(** * WakeExerHand: the motion-derived measurement engine

    A shallow embedding of the parts of the repository that turn hand and
    arm landmarks into range-of-motion figures, and the properties the
    specification states about them.

    - [WristAngle]   the reference wrist-angle algorithm (wrist_angle.py,
                     embedded in the design notes)
    - [JointAngles]  per-finger joint angles and total active motion
    - [Js]           the JavaScript values the handlers manipulate
    - [Kapandji]     the thumb-opposition ladder and its session score
    - [Complete]     the assessment completion endpoint (server/routes.ts)
    - [Recording]    the recording page's per-frame callback
    - [Dash]         the DASH questionnaire score
    - [WristTransforms]  frames under a change of camera view
    - [CompleteFrames]   the frames the completion endpoint collects
    - [Routes]       the read endpoints of server/routes.ts: history,
                     assessment list, progress, motion data, today's list,
                     streak, calendar, access codes
    - [Submission]   what the recording page submits for a repetition
    - [DashForm]     the DASH questionnaire form and its buttons
    - [QuickDash]    the running score of the QuickDASH questionnaire
    - [Replay]       the playback controls of the motion replay

    Part I holds the model, one module per source unit; Part II holds the
    properties, in a module [XFacts] for each module [X].  The calculator
    modules the handlers import (lib/rom-calculator,
    shared/rom-calculator, shared/kapandji-calculator) are not among the
    sources: the handlers take them as parameters, and [JointAngles] and
    [Kapandji] model them from the specification.

    Numbers.  The Python and TypeScript sources compute with binary64
    floating point.  The geometric code is embedded over the real numbers,
    the handlers and the questionnaire over the rationals: both are the
    exact arithmetic the floating-point code approximates.  The operations
    that yield a non-finite value in the source (division by zero, arccos
    outside [-1,1]) are kept partial and return [None], and so do the
    calls on which the source raises an exception. *)

From Stdlib Require Import Reals Lra Lia ZArith QArith Qround List Bool.
From Stdlib Require String Lqa Permutation Sorted.
Import ListNotations.

(** Error-monad notation shared by the modules below. *)
Definition obind {A B : Type} (m : option A) (f : A -> option B) : option B :=
  match m with
  | Some a => f a
  | None => None
  end.

Notation "x <- m ;; k" := (obind m (fun x => k))
  (at level 61, m at next level, right associativity).

Fixpoint mapM {A B : Type} (f : A -> option B) (l : list A) : option (list B) :=
  match l with
  | [] => Some []
  | a :: l' => b <- f a ;; bs <- mapM f l' ;; Some (b :: bs)
  end.

(* ##################################################################### *)
(** * Part I: the model *)
(* ##################################################################### *)

(* ===================================================================== *)
(** * wrist_angle.py *)
(* ===================================================================== *)

Module WristAngle.
Local Open Scope R_scope.

(** A row of the numpy array: one landmark (x, y, z). *)
Record Vec3 : Type := mkVec3 { vx : R; vy : R; vz : R }.

Definition vsub (a b : Vec3) : Vec3 :=
  mkVec3 (vx a - vx b) (vy a - vy b) (vz a - vz b).

(** [(a * b).sum()] *)
Definition vdot (a b : Vec3) : R :=
  vx a * vx b + vy a * vy b + vz a * vz b.

(** [np.cross(a, b)] *)
Definition vcross (a b : Vec3) : Vec3 :=
  mkVec3 (vy a * vz b - vz a * vy b)
         (vz a * vx b - vx a * vz b)
         (vx a * vy b - vy a * vx b).

(** [np.linalg.norm(v)] *)
Definition norm (v : Vec3) : R := sqrt (vdot v v).

(** Division: not a finite number when the divisor is zero. *)
Definition np_div (x n : R) : option R :=
  if Req_dec_T n 0 then None else Some (x / n).

(** [np.arccos]: nan outside [-1, 1]. *)
Definition np_arccos (x : R) : option R :=
  if Rle_dec (-1) x then
    if Rle_dec x 1 then Some (acos x) else None
  else None.

(** [x.clip(lo, hi)] is [minimum(maximum(x, lo), hi)]. *)
Definition np_clip (x lo hi : R) : R := Rmin (Rmax x lo) hi.

(** [np.sign] *)
Definition np_sign (x : R) : R :=
  if Rlt_dec 0 x then 1 else if Rlt_dec x 0 then -1 else 0.

(** [DEG = 180.0 / np.pi] *)
Definition DEG : R := 180 / PI.

(** [_unit(v)]: [v / n if n > 0 else v]. *)
Definition _unit (v : Vec3) : option Vec3 :=
  let n := norm v in
  if Rlt_dec 0 n then
    x <- np_div (vx v) n ;;
    y <- np_div (vy v) n ;;
    z <- np_div (vz v) n ;;
    Some (mkVec3 x y z)
  else Some v.

(** One frame: rows 0, 1, 2 are ELBOW, WRIST, MIDDLE_MCP. *)
Record Frame : Type := mkFrame { elbow : Vec3; wrist : Vec3; middle_mcp : Vec3 }.

(** [np.where(wrist.x < elbow.x, -1, 1)] *)
Definition side_factor (fr : Frame) : R :=
  if Rlt_dec (vx (wrist fr)) (vx (elbow fr)) then -1 else 1.

(** The body of [wrist_angle] for one row of [frames], up to
    [signed_theta]. *)
Definition signed_theta (fr : Frame) : option R :=
  let forearm := vsub (wrist fr) (elbow fr) in
  let handvec := vsub (middle_mcp fr) (wrist fr) in
  u_for <- _unit forearm ;;
  u_hand <- _unit handvec ;;
  let dot := np_clip (vdot u_for u_hand) (-1) 1 in
  ac <- np_arccos dot ;;
  let theta := ac * DEG in
  let cross := vcross u_for u_hand in
  let sign_raw := np_sign (vz cross + 1e-9) in
  Some (theta * sign_raw * side_factor fr).

(** [np.median] of a non-empty buffer: the middle of the sorted values, or
    the mean of the two middle ones. *)
Fixpoint insert_sorted (x : R) (l : list R) : list R :=
  match l with
  | [] => [x]
  | y :: l' => if Rle_dec x y then x :: l else y :: insert_sorted x l'
  end.

Definition np_median (l : list R) : R :=
  let s := fold_right insert_sorted [] l in
  let n := length s in
  if Nat.even n
  then (nth (n / 2 - 1) s 0 + nth (n / 2) s 0) / 2
  else nth (n / 2) s 0.

(** [buf.append(val)] on a [deque(maxlen=k)]. *)
Definition deque_append (k : nat) (buf : list R) (val : R) : list R :=
  let b := buf ++ [val] in
  if (k <? length b)%nat then tl b else b.

(** [out[i] = v] *)
Fixpoint set_nth (i : nat) (v : R) (out : list R) : list R :=
  match out, i with
  | [], _ => []
  | _ :: out', O => v :: out'
  | x :: out', S i' => x :: set_nth i' v out'
  end.

(** The loop [for i, val in enumerate(signed_theta)]. *)
Fixpoint median_loop (k half : nat) (vals : list R) (i : nat) (buf out : list R)
  : list R :=
  match vals with
  | [] => out
  | val :: rest =>
      let buf' := deque_append k buf val in
      let m := np_median buf' in
      let out' := if (i <? half)%nat then set_nth i m out
                  else set_nth (i - half) m out in
      median_loop k half rest (S i) buf' out'
  end.

(** The tail loop [for i in range(half): out[-(i + 1)] = out[-(half + 1)]]. *)
Definition median_tail (half n : nat) (out : list R) : list R :=
  fold_left (fun o i => set_nth (n - 1 - i) (nth (n - 1 - half) o 0) o)
    (seq 0 half) out.

(** The optional moving median, on the contents [out0] that
    [np.empty_like] happens to leave in [out], which are whatever the
    allocator returns. *)
Definition moving_median_from (out0 : list R) (median_k : nat) (signed : list R)
  : list R :=
  let n := length signed in
  if (1 <? median_k)%nat && (median_k <=? n)%nat then
    let half := (median_k / 2)%nat in
    median_tail half n (median_loop median_k half signed 0 [] out0)
  else signed.

(** The moving median with [out] starting at 0 in every slot. *)
Definition moving_median (median_k : nat) (signed : list R) : list R :=
  moving_median_from (repeat 0 (length signed)) median_k signed.

(** The argument [frame_xyz]: an array of shape (N, 3, 3), as in the unit
    tests, or of shape (3, 3), a single frame, as the docstring allows. *)
Inductive FrameXyz : Type :=
| Batch (frames : list Frame)
| Single (fr : Frame).

(** [wrist_angle(frame_xyz, median_k)]; [None] stands for a raised
    exception.
    - Shape (3, 3): [np.atleast_3d] appends the new axis, so [frames] has
      shape (3, 3, 1) and [forearm], [handvec], [u_for], [u_hand] have shape
      (3, 1); [_unit], the dot product and the arccos go through, and
      [np.cross] raises ValueError on vectors of one component.
    - Shape (0, 3, 3): [np.apply_along_axis] raises ValueError, there being
      no row to apply [_unit] to.
    - Shape (N, 3, 3) with N > 0: one signed angle per frame, then the
      optional moving median. *)
Definition wrist_angle (frame_xyz : FrameXyz) (median_k : nat) : option (list R) :=
  match frame_xyz with
  | Single _ => None
  | Batch [] => None
  | Batch frames =>
      signed <- mapM signed_theta frames ;;
      Some (moving_median median_k signed)
  end.

(** [forearm] and [handvec] of a frame. *)
Definition forearm_of (fr : Frame) : Vec3 := vsub (wrist fr) (elbow fr).
Definition handvec_of (fr : Frame) : Vec3 := vsub (middle_mcp fr) (wrist fr).

(** The closed form the partial operations evaluate to. *)
Definition unit_vec (v : Vec3) : Vec3 :=
  if Rlt_dec 0 (norm v)
  then mkVec3 (vx v / norm v) (vy v / norm v) (vz v / norm v)
  else v.

Definition theta_of (fr : Frame) : R :=
  acos (np_clip (vdot (unit_vec (vsub (wrist fr) (elbow fr)))
                      (unit_vec (vsub (middle_mcp fr) (wrist fr)))) (-1) 1) * DEG.

Definition sign_raw_of (fr : Frame) : R :=
  np_sign (vz (vcross (unit_vec (vsub (wrist fr) (elbow fr)))
                      (unit_vec (vsub (middle_mcp fr) (wrist fr)))) + 1e-9).

(** The radian measure of [d] degrees. *)
Definition rad (d : R) : R := d * (PI / 180).

(** The frames of the script's unit tests. *)
Definition R_elbow : Vec3 := mkVec3 0.1 0.3 0.
Definition R_wrist : Vec3 := mkVec3 0.2 0.5 0.
Definition R_hand : Vec3 := mkVec3 0.18 0.45 0.15.
Definition R_hand2 : Vec3 := mkVec3 0.22 0.55 0.15.
Definition L_elbow : Vec3 := mkVec3 (-0.1) 0.3 0.
Definition L_wrist : Vec3 := mkVec3 (-0.2) 0.5 0.
Definition L_hand : Vec3 := mkVec3 (-0.18) 0.45 0.15.

Definition test_frames : list Frame :=
  [ mkFrame R_elbow R_wrist R_hand;
    mkFrame R_elbow R_wrist R_hand2;
    mkFrame L_elbow L_wrist L_hand ].

(** [expected = np.array([+60, -30, +60])] *)
Definition expected : list Z := [60; -30; 60]%Z.

(** [a] rounds to the integer [n] ([np.round(a, 0) == n]). *)
Definition rounds_to (a : R) (n : Z) : Prop := Rabs (a - IZR n) <= 1 / 2.

(** The script's assertion, [np.allclose(np.round(got), expected)]. *)
Fixpoint all_round_to (got : list R) (exp : list Z) : Prop :=
  match got, exp with
  | [], [] => True
  | a :: got', n :: exp' => rounds_to a n /\ all_round_to got' exp'
  | _, _ => False
  end.

End WristAngle.

(* ===================================================================== *)
(** * Joint angle calculator *)
(* ===================================================================== *)

Module JointAngles.
Import WristAngle.
Local Open Scope R_scope.

(** Modelled from the spec: the zero point of a joint angle, which section
    4.2 leaves to the implementation ("180 = fully extended" is the one it
    names). *)
Inductive Convention : Type :=
| ExtendedIs180   (* vectors from the joint to its two neighbours *)
| ExtendedIs0.    (* the incoming and the outgoing bone *)

(** Modelled from the spec: the landmarks of one finger (MCP, PIP, DIP,
    TIP), with the wrist (landmark 0) as the proximal end of the bone that
    reaches the MCP joint. *)
Record Finger : Type := mkFinger {
  f_wrist : Vec3; f_mcp : Vec3; f_pip : Vec3; f_dip : Vec3; f_tip : Vec3
}.

Record JointAngles : Type := mkJointAngles {
  mcpAngle : R; pipAngle : R; dipAngle : R; totalActiveRom : R
}.

Definition in_range (lo hi x : R) : Prop := lo <= x <= hi.

(** A straight finger along the x axis, and a finger folded flat back and
    forth on itself. *)
Definition straight_finger : Finger :=
  mkFinger (mkVec3 0 0 0) (mkVec3 1 0 0) (mkVec3 2 0 0) (mkVec3 3 0 0) (mkVec3 4 0 0).

Definition folded_finger : Finger :=
  mkFinger (mkVec3 0 0 0) (mkVec3 1 0 0) (mkVec3 0 0 0) (mkVec3 1 0 0) (mkVec3 0 0 0).

Section Calculator.

(** The normalisation in use: the reference algorithm's zero-norm guard
    ([unit_vec]) or an epsilon-biased one. *)
Variable unit : Vec3 -> Vec3.

(** Modelled from the spec: the joint angle formula of section 4.2 (the
    calculator module, lib/rom-calculator, is not among the sources),
    [arccos(clamp(dot(unit(v1), unit(v2)), -1, 1)) * 180/pi]. *)
Definition joint_angle (v1 v2 : Vec3) : option R :=
  ac <- np_arccos (np_clip (vdot (unit v1) (unit v2)) (-1) 1) ;;
  Some (ac * DEG).

(** Modelled from the spec: the two adjacent bone vectors at a joint with
    neighbours [prev] and [next], under either zero-point convention. *)
Definition bone_vectors (c : Convention) (prev joint next : Vec3) : Vec3 * Vec3 :=
  match c with
  | ExtendedIs180 => (vsub prev joint, vsub next joint)
  | ExtendedIs0 => (vsub joint prev, vsub next joint)
  end.

(** Modelled from the spec: the angle at a joint, between its two
    adjacent bone vectors. *)
Definition angle_at (c : Convention) (prev joint next : Vec3) : option R :=
  let '(v1, v2) := bone_vectors c prev joint next in joint_angle v1 v2.

(** Modelled from the spec: [calculateFingerROM] of lib/rom-calculator
    (absent): the MCP, PIP and DIP angles of a finger and
    [totalActiveRom = MCP + PIP + DIP] angle magnitudes. *)
Definition calculateFingerROM (c : Convention) (f : Finger) : option JointAngles :=
  mcp <- angle_at c (f_wrist f) (f_mcp f) (f_pip f) ;;
  pip <- angle_at c (f_mcp f) (f_pip f) (f_dip f) ;;
  dip <- angle_at c (f_pip f) (f_dip f) (f_tip f) ;;
  Some (mkJointAngles mcp pip dip (Rabs mcp + Rabs pip + Rabs dip)).

End Calculator.

End JointAngles.

(* ===================================================================== *)
(** * JavaScript values *)
(* ===================================================================== *)

Module Js.
Local Open Scope Q_scope.

(** A numeric field of a JSON object as the handlers read it: absent, null
    or a (finite) number. *)
Inductive jsnum : Type :=
| JUndefined
| JNull
| JNum (q : Q).

(** Truthiness of a number: every number but zero. *)
Definition truthy (q : Q) : bool := negb (Qeq_bool q 0).

(** [x || 0] for a variable of type [number | null]. *)
Definition or_zero (x : option Q) : Q :=
  match x with
  | Some q => if truthy q then q else 0
  | None => 0
  end.

(** [field || 0] *)
Definition field_or_zero (x : jsnum) : Q :=
  match x with
  | JNum q => if truthy q then q else 0
  | _ => 0
  end.

(** [field || null] *)
Definition or_null (x : jsnum) : option Q :=
  match x with
  | JNum q => if truthy q then Some q else None
  | _ => None
  end.

(** [Math.max(a, b)] on two numbers. *)
Definition Math_max (a b : Q) : Q := if Qle_bool a b then b else a.

(** [a >= b] with [a] read from a field: false when [a] is absent (NaN),
    null counts as 0. *)
Definition field_ge (a : jsnum) (b : Q) : bool :=
  match a with
  | JUndefined => false
  | JNull => Qle_bool b 0
  | JNum q => Qle_bool b q
  end.

(** [a < b] on two numbers. *)
Definition Qltb (a b : Q) : bool := negb (Qle_bool b a).

(** A hand landmark [{x, y, z}]. *)
Record Landmark : Type := mkLandmark { lx : Q; ly : Q; lz : Q }.

(** ['LEFT' | 'RIGHT' | 'UNKNOWN'] *)
Inductive HandType : Type := LEFT | RIGHT | UNKNOWN.

Definition HandType_eqb (a b : HandType) : bool :=
  match a, b with
  | LEFT, LEFT | RIGHT, RIGHT | UNKNOWN, UNKNOWN => true
  | _, _ => false
  end.

(** The order on [number | null] maxima: null is below every number. *)
Definition ole (a b : option Q) : Prop :=
  match a, b with
  | None, _ => True
  | Some x, Some y => x <= y
  | Some _, None => False
  end.

End Js.

(* ===================================================================== *)
(** * Kapandji scorer *)
(* ===================================================================== *)

Module Kapandji.
Import Js.
Local Open Scope Q_scope.

(** The landmarks of one frame. *)
Definition FrameLandmarks : Type := list Landmark.

(** Modelled from the spec: the Euclidean distance of section 4.3,
    squared. *)
Definition dist2 (a b : Landmark) : Q :=
  (lx a - lx b) * (lx a - lx b) + (ly a - ly b) * (ly a - ly b)
  + (lz a - lz b) * (lz a - lz b).

(** Modelled from the spec: the ratchet of section 4.3, a score that only
    moves up. *)
Definition ratchet (score rung : nat) : nat :=
  if (score <? rung)%nat then rung else score.

Section Scorer.

(** The proximity threshold, the thumb-tip landmark and the ladder of
    targets (rung 1 first), fixed at implementation time. *)
Variable threshold : Q.
Variable thumbTip : FrameLandmarks -> option Landmark.
Variable ladder : list (FrameLandmarks -> option Landmark).

(** Modelled from the spec: "distance below a proximity threshold" of
    section 4.3 (shared/kapandji-calculator is not among the sources); the
    Euclidean distance is compared on squares. *)
Definition near (a b : Landmark) : bool :=
  Qle_bool 0 threshold && Qltb (dist2 a b) (threshold * threshold).

(** Modelled from the spec: the achieved rung of a frame is the
    highest-indexed target the thumb tip is near to (0 when none); the
    scorer of shared/kapandji-calculator is absent. *)
Fixpoint highest_rung (lms : FrameLandmarks) (thumb : Landmark)
    (targets : list (FrameLandmarks -> option Landmark)) (rung best : nat) : nat :=
  match targets with
  | [] => best
  | t :: ts =>
      let reached := match t lms with
                     | Some p => near thumb p
                     | None => false
                     end in
      highest_rung lms thumb ts (S rung) (if reached then rung else best)
  end.

(** Modelled from the spec: the rung of a frame; a frame without a thumb
    tip scores 0. *)
Definition frameRung (lms : FrameLandmarks) : nat :=
  match thumbTip lms with
  | Some thumb => highest_rung lms thumb ladder 1 0
  | None => 0
  end.

(** Modelled from the spec: [calculateMaxKapandjiScore] of
    shared/kapandji-calculator (absent): the session score is a ratchet
    folded over the frames, starting from 0. *)
Definition calculateMaxKapandjiScore (frames : list FrameLandmarks) : nat :=
  fold_left (fun score lms => ratchet score (frameRung lms)) frames 0%nat.

(** The same fold from an arbitrary starting score. *)
Definition foldScore (start : nat) (frames : list FrameLandmarks) : nat :=
  fold_left (fun score lms => ratchet score (frameRung lms)) frames start.

End Scorer.

End Kapandji.

(* ===================================================================== *)
(** * server/routes.ts: POST /api/users/:userId/assessments/:assessmentId/complete *)
(* ===================================================================== *)

Module Complete.
Import Js.
Import String.
Local Open Scope Q_scope.

(** ** The request body *)

(** [rep.romData] *)
Record RomData : Type := mkRomData {
  rd_mcpAngle : jsnum; rd_pipAngle : jsnum; rd_dipAngle : jsnum;
  rd_totalActiveRom : jsnum
}.

(** [frame.wristAngles] *)
Record WristAngles : Type := mkWristAngles {
  wa_wristFlexionAngle : jsnum; wa_wristExtensionAngle : jsnum
}.

(** One entry of [rep.motionData]. *)
Record MotionFrame : Type := mkMotionFrame {
  landmarks : list Landmark;
  wristAngles : option WristAngles
}.

(** One entry of [repetitionData]. *)
Record Repetition : Type := mkRepetition {
  romData : option RomData;
  rep_wristFlexionAngle : jsnum;
  rep_wristExtensionAngle : jsnum;
  rep_maxWristFlexion : jsnum;
  rep_maxWristExtension : jsnum;
  motionData : option (list MotionFrame)
}.

(** [req.body] (the two fields passed through untouched, the aggregate
    [romData] and [responses], are left out). *)
Record Body : Type := mkBody {
  repetitionData : option (list Repetition);
  qualityScore : jsnum;
  handType : option HandType;
  reqWristFlexionAngle : jsnum;
  reqWristExtensionAngle : jsnum;
  reqMaxWristFlexion : jsnum;
  reqMaxWristExtension : jsnum;
  maxRadialDeviation : jsnum;
  maxUlnarDeviation : jsnum;
  dashScore : jsnum
}.

(** ** The handler's variables *)

Record RomMaxima : Type := mkRomMaxima {
  maxMcpAngle : option Q; maxPipAngle : option Q; maxDipAngle : option Q;
  totalActiveRom : option Q
}.

Record WristMaxima : Type := mkWristMaxima {
  wristFlexionAngle : option Q; wristExtensionAngle : option Q;
  maxWristFlexion : option Q; maxWristExtension : option Q
}.

Record FingerResults : Type := mkFingerResults {
  kapandjiScore : option Q;
  indexFingerRom : option Q; middleFingerRom : option Q;
  ringFingerRom : option Q; pinkyFingerRom : option Q;
  middleFingerMcp : option Q; middleFingerPip : option Q; middleFingerDip : option Q;
  ringFingerMcp : option Q; ringFingerPip : option Q; ringFingerDip : option Q;
  pinkyFingerMcp : option Q; pinkyFingerPip : option Q; pinkyFingerDip : option Q
}.

(** The state of the [repetitionData.forEach] loop. *)
Record LoopState : Type := mkLoopState {
  rom : RomMaxima;
  wristMax : WristMaxima;
  allMotionFrames : list MotionFrame
}.

(** ** What the two calculators return *)

Record KapandjiDetails : Type := mkKapandjiDetails {
  indexProximalPhalanx : bool; indexMiddlePhalanx : bool; indexTip : bool;
  middleTip : bool; ringTip : bool; littleTip : bool
}.

Record KapandjiResult : Type := mkKapandjiResult {
  maxScore : Q;
  details : KapandjiDetails
}.

Record FingerROM : Type := mkFingerROM {
  fr_mcpAngle : jsnum; fr_pipAngle : jsnum; fr_dipAngle : jsnum;
  fr_totalActiveRom : jsnum
}.

Record TemporalQuality : Type := mkTemporalQuality {
  tq_index : jsnum; tq_middle : jsnum; tq_ring : jsnum; tq_pinky : jsnum
}.

Record AllFingersROM : Type := mkAllFingersROM {
  af_index : option FingerROM; af_middle : option FingerROM;
  af_ring : option FingerROM; af_pinky : option FingerROM;
  temporalQuality : option TemporalQuality
}.

(** The row handed to [storage.createUserAssessment].  [String(x)] of a
    number is kept as the number. *)
Record UserAssessmentRow : Type := mkRow {
  sessionNumber : nat;
  completedAt : Z;
  row_qualityScore : jsnum;
  row_rom : RomMaxima;
  row_fingers : FingerResults;
  row_wrist : WristMaxima;
  row_handType : option HandType;
  row_maxRadialDeviation : option Q;
  row_maxUlnarDeviation : option Q;
  row_dashScore : jsnum
}.

(** ** The loop over the repetitions *)

(** [if (rep.romData) { maxMcpAngle = Math.max(maxMcpAngle || 0,
    rep.romData.mcpAngle || 0); ... }] *)
Definition foldRomData (m : RomMaxima) (rd : RomData) : RomMaxima :=
  mkRomMaxima
    (Some (Math_max (or_zero (maxMcpAngle m)) (field_or_zero (rd_mcpAngle rd))))
    (Some (Math_max (or_zero (maxPipAngle m)) (field_or_zero (rd_pipAngle rd))))
    (Some (Math_max (or_zero (maxDipAngle m)) (field_or_zero (rd_dipAngle rd))))
    (Some (Math_max (or_zero (totalActiveRom m)) (field_or_zero (rd_totalActiveRom rd)))).

(** [if (v !== undefined) cur = Math.max(cur || 0, v)]; a null [v] counts
    as 0 in [Math.max]. *)
Definition foldRepField (cur : option Q) (v : jsnum) : option Q :=
  match v with
  | JUndefined => cur
  | JNull => Some (Math_max (or_zero cur) 0)
  | JNum q => Some (Math_max (or_zero cur) q)
  end.

(** [if (v !== undefined && v !== null) cur = Math.max(cur || 0, v)] *)
Definition foldFrameField (cur : option Q) (v : jsnum) : option Q :=
  match v with
  | JNum q => Some (Math_max (or_zero cur) q)
  | _ => cur
  end.

(** The body of [rep.motionData.forEach]. *)
Definition foldFrame (w : WristMaxima) (frame : MotionFrame) : WristMaxima :=
  match wristAngles frame with
  | Some fw =>
      mkWristMaxima
        (foldFrameField (wristFlexionAngle w) (wa_wristFlexionAngle fw))
        (foldFrameField (wristExtensionAngle w) (wa_wristExtensionAngle fw))
        (maxWristFlexion w) (maxWristExtension w)
  | None => w
  end.

(** The body of [repetitionData.forEach]. *)
Definition foldRep (st : LoopState) (rep : Repetition) : LoopState :=
  let rom1 := match romData rep with
              | Some rd => foldRomData (rom st) rd
              | None => rom st
              end in
  let w := wristMax st in
  let w1 := mkWristMaxima
              (foldRepField (wristFlexionAngle w) (rep_wristFlexionAngle rep))
              (foldRepField (wristExtensionAngle w) (rep_wristExtensionAngle rep))
              (foldRepField (maxWristFlexion w) (rep_maxWristFlexion rep))
              (foldRepField (maxWristExtension w) (rep_maxWristExtension rep)) in
  match motionData rep with
  | Some frames =>
      mkLoopState rom1 (fold_left foldFrame frames w1) (allMotionFrames st ++ frames)
  | None => mkLoopState rom1 w1 (allMotionFrames st)
  end.

(** "Update max wrist values based on extracted data". *)
Definition updateMaxWrist (w : WristMaxima) : WristMaxima :=
  mkWristMaxima (wristFlexionAngle w) (wristExtensionAngle w)
    (match wristFlexionAngle w with
     | Some a => Some (Math_max (or_zero (maxWristFlexion w)) a)
     | None => maxWristFlexion w
     end)
    (match wristExtensionAngle w with
     | Some a => Some (Math_max (or_zero (maxWristExtension w)) a)
     | None => maxWristExtension w
     end).

(** ** Kapandji and temporal-quality branches *)

Definition TEMPORAL_QUALITY_THRESHOLD : Q := 0.7.

(** [allFingersROM.finger?.field] *)
Definition finger_field (f : option FingerROM) (sel : FingerROM -> jsnum) : jsnum :=
  match f with
  | Some r => sel r
  | None => JUndefined
  end.

(** [(quality >= TEMPORAL_QUALITY_THRESHOLD) ? value || null : null] *)
Definition gated (quality value : jsnum) : option Q :=
  if field_ge quality TEMPORAL_QUALITY_THRESHOLD then or_null value else None.

(** [allFingersROM.temporalQuality || {}] *)
Definition quality_of (r : AllFingersROM) : TemporalQuality :=
  match temporalQuality r with
  | Some tq => tq
  | None => mkTemporalQuality JUndefined JUndefined JUndefined JUndefined
  end.

Definition noFingers : FingerResults :=
  mkFingerResults None None None None None None None None None None None None None None.

(** The assignments of the Kapandji branch. *)
Definition kapandjiFingers (k : KapandjiResult) : FingerResults :=
  let d := details k in
  mkFingerResults
    (Some (maxScore k))
    (Some (if indexTip d then 3
           else if indexMiddlePhalanx d then 2
           else if indexProximalPhalanx d then 1 else 0))
    (Some (if middleTip d then 4 else 0))
    (Some (if ringTip d then 5 else 0))
    (Some (if littleTip d then 6 else 0))
    None None None None None None None None None.

(** The assignments of the range-of-motion branch. *)
Definition romFingers (r : AllFingersROM) : FingerResults :=
  let tq := quality_of r in
  mkFingerResults
    None
    (gated (tq_index tq) (finger_field (af_index r) fr_totalActiveRom))
    (gated (tq_middle tq) (finger_field (af_middle r) fr_totalActiveRom))
    (gated (tq_ring tq) (finger_field (af_ring r) fr_totalActiveRom))
    (gated (tq_pinky tq) (finger_field (af_pinky r) fr_totalActiveRom))
    (gated (tq_middle tq) (finger_field (af_middle r) fr_mcpAngle))
    (gated (tq_middle tq) (finger_field (af_middle r) fr_pipAngle))
    (gated (tq_middle tq) (finger_field (af_middle r) fr_dipAngle))
    (gated (tq_ring tq) (finger_field (af_ring r) fr_mcpAngle))
    (gated (tq_ring tq) (finger_field (af_ring r) fr_pipAngle))
    (gated (tq_ring tq) (finger_field (af_ring r) fr_dipAngle))
    (gated (tq_pinky tq) (finger_field (af_pinky r) fr_mcpAngle))
    (gated (tq_pinky tq) (finger_field (af_pinky r) fr_pipAngle))
    (gated (tq_pinky tq) (finger_field (af_pinky r) fr_dipAngle)).

Definition KapandjiScoreName : String.string := "Kapandji Score"%string.

(** The loop state the handler starts from. *)
Definition initialState (body : Body) : LoopState :=
  mkLoopState (mkRomMaxima None None None None)
    (mkWristMaxima (or_null (reqWristFlexionAngle body))
       (or_null (reqWristExtensionAngle body))
       (or_null (reqMaxWristFlexion body))
       (or_null (reqMaxWristExtension body))) [].

(** [assessment?.name === "Kapandji Score"] *)
Definition isKapandji (assessmentName : option String.string) : bool :=
  match assessmentName with
  | Some n => String.eqb n KapandjiScoreName
  | None => false
  end.

Section Handler.

(** The two calculators, shared/kapandji-calculator and
    shared/rom-calculator, are not among the sources; [None] is a thrown
    exception, which the handler catches. *)
Variable calculateMaxKapandjiScore : list MotionFrame -> option KapandjiResult.
Variable calculateAllFingersMaxROM : list MotionFrame -> option AllFingersROM.

(** [if (allMotionFrames.length > 0) { try { ... } catch { ... } }] *)
Definition finalizeFingers (assessmentName : option String.string)
    (m : RomMaxima) (frames : list MotionFrame) : RomMaxima * FingerResults :=
  match frames with
  | [] => (m, noFingers)
  | _ :: _ =>
      if isKapandji assessmentName then
        match calculateMaxKapandjiScore frames with
        | Some k =>
            (mkRomMaxima (maxMcpAngle m) (maxPipAngle m) (maxDipAngle m)
               (Some (maxScore k)),
             kapandjiFingers k)
        | None => (m, noFingers)
        end
      else
        match calculateAllFingersMaxROM frames with
        | Some r => (m, romFingers r)
        | None => (m, noFingers)
        end
  end.

(** The handler, from the request to the stored row.  [now] is the clock
    read by [new Date()], [existing] the assessment ids of the user's
    earlier rows, [assessmentName] the name [storage.getAssessment]
    returns. *)
Definition completeAssessment (now : Z) (existing : list Z) (assessmentId : Z)
    (assessmentName : option String.string) (body : Body) : UserAssessmentRow :=
  let st0 := initialState body in
  let '(rom1, fingers, wrist1) :=
    match repetitionData body with
    | Some reps =>
        let st := fold_left foldRep reps st0 in
        let w := updateMaxWrist (wristMax st) in
        let '(m, f) := finalizeFingers assessmentName (rom st) (allMotionFrames st) in
        (m, f, w)
    | None => (rom st0, noFingers, wristMax st0)
    end in
  let sessionCount := List.length (filter (Z.eqb assessmentId) existing) in
  mkRow (sessionCount + 1) now (qualityScore body) rom1 fingers wrist1
    (handType body)
    (or_null (maxRadialDeviation body)) (or_null (maxUlnarDeviation body))
    (dashScore body).

End Handler.

(** The Kapandji scorer of the specification as the handler's calculator:
    the session score over the landmarks of the motion frames ([detailsOf]
    stands for the flags the result carries along). *)
Definition kapandjiCalculator (threshold : Q)
    (thumbTip : Kapandji.FrameLandmarks -> option Landmark)
    (ladder : list (Kapandji.FrameLandmarks -> option Landmark))
    (detailsOf : list MotionFrame -> KapandjiDetails)
    (frames : list MotionFrame) : option KapandjiResult :=
  Some (mkKapandjiResult
          (inject_Z (Z.of_nat (Kapandji.calculateMaxKapandjiScore threshold thumbTip ladder
                                 (map landmarks frames))))
          (detailsOf frames)).

(** The fingers and the metrics of the range-of-motion branch. *)
Inductive Finger : Type := Index | Middle | Ring | Pinky.
Inductive Metric : Type := Tam | Mcp | Pip | Dip.

(** [temporalQuality[finger]] *)
Definition quality (tq : TemporalQuality) (f : Finger) : jsnum :=
  match f with
  | Index => tq_index tq
  | Middle => tq_middle tq
  | Ring => tq_ring tq
  | Pinky => tq_pinky tq
  end.

(** [allFingersROM[finger]?.[metric]] *)
Definition computed (r : AllFingersROM) (f : Finger) (m : Metric) : jsnum :=
  finger_field
    (match f with
     | Index => af_index r
     | Middle => af_middle r
     | Ring => af_ring r
     | Pinky => af_pinky r
     end)
    (match m with
     | Tam => fr_totalActiveRom
     | Mcp => fr_mcpAngle
     | Pip => fr_pipAngle
     | Dip => fr_dipAngle
     end).

(** The field of the row a finger metric is stored in; the row has no
    gated field for the joints of the index finger. *)
Definition stored (fr : FingerResults) (f : Finger) (m : Metric) : option (option Q) :=
  match f, m with
  | Index, Tam => Some (indexFingerRom fr)
  | Middle, Tam => Some (middleFingerRom fr)
  | Ring, Tam => Some (ringFingerRom fr)
  | Pinky, Tam => Some (pinkyFingerRom fr)
  | Middle, Mcp => Some (middleFingerMcp fr)
  | Middle, Pip => Some (middleFingerPip fr)
  | Middle, Dip => Some (middleFingerDip fr)
  | Ring, Mcp => Some (ringFingerMcp fr)
  | Ring, Pip => Some (ringFingerPip fr)
  | Ring, Dip => Some (ringFingerDip fr)
  | Pinky, Mcp => Some (pinkyFingerMcp fr)
  | Pinky, Pip => Some (pinkyFingerPip fr)
  | Pinky, Dip => Some (pinkyFingerDip fr)
  | Index, _ => None
  end.

(** The range-of-motion branch ran on the request and the calculator
    returned [r]. *)
Definition rom_branch
    (calculateAllFingersMaxROM : list MotionFrame -> option AllFingersROM)
    (assessmentName : option String.string) (body : Body) (r : AllFingersROM) : Prop :=
  exists reps,
    (repetitionData body = Some reps) /\
    (allMotionFrames (fold_left foldRep reps (initialState body)) <> []) /\
    (isKapandji assessmentName = false) /\
    (calculateAllFingersMaxROM
       (allMotionFrames (fold_left foldRep reps (initialState body))) = Some r).

(** A request with one repetition of one motion frame, and a calculator
    result in which the middle finger is fully tracked (quality 0.9) with a
    measured total active motion and joint angles of 0, the ring finger is
    poorly tracked (quality 0.5) and the index and pinky fingers are well
    tracked with nonzero values. *)
Definition sample_frame : MotionFrame :=
  mkMotionFrame [mkLandmark 0 0 0] None.

Definition sample_body : Body :=
  mkBody
    (Some [mkRepetition (Some (mkRomData (JNum 45) (JNum 60) (JNum 30) (JNum 135)))
             JUndefined JUndefined JUndefined JUndefined (Some [sample_frame])])
    (JNum 90) (Some LEFT)
    JUndefined JUndefined JUndefined JUndefined JUndefined JUndefined JUndefined.

Definition sample_rom : AllFingersROM :=
  mkAllFingersROM
    (Some (mkFingerROM (JNum 45) (JNum 60) (JNum 30) (JNum 135)))
    (Some (mkFingerROM (JNum 0) (JNum 0) (JNum 0) (JNum 0)))
    (Some (mkFingerROM (JNum 50) (JNum 40) (JNum 30) (JNum 120)))
    (Some (mkFingerROM (JNum 70) (JNum 80) (JNum 0) (JNum 150)))
    (Some (mkTemporalQuality (JNum 0.9) (JNum 0.9) (JNum 0.5) (JNum 1))).

Definition sample_row : UserAssessmentRow :=
  completeAssessment (fun _ => None) (fun _ => Some sample_rom)
    0%Z [] 1%Z (Some "TAM Assessment"%string) sample_body.

(** Pointwise order on the running maxima. *)
Definition le_rom (a b : RomMaxima) : Prop :=
  ole (maxMcpAngle a) (maxMcpAngle b) /\ ole (maxPipAngle a) (maxPipAngle b) /\
  ole (maxDipAngle a) (maxDipAngle b) /\ ole (totalActiveRom a) (totalActiveRom b).

Definition le_wrist (a b : WristMaxima) : Prop :=
  ole (wristFlexionAngle a) (wristFlexionAngle b) /\
  ole (wristExtensionAngle a) (wristExtensionAngle b) /\
  ole (maxWristFlexion a) (maxWristFlexion b) /\
  ole (maxWristExtension a) (maxWristExtension b).

End Complete.

(* ===================================================================== *)
(** * The recording page: handleMediaPipeUpdate and the recording controls *)
(* ===================================================================== *)

Module Recording.
Import Js.
Local Open Scope Q_scope.

(** [JointAngles] of lib/rom-calculator. *)
Record JointAngles : Type := mkJointAngles {
  mcpAngle : Q; pipAngle : Q; dipAngle : Q; totalActiveRom : Q
}.

(** [data.wristAngles] *)
Record WristAngles : Type := mkWristAngles {
  wristFlexionAngle : jsnum; wristExtensionAngle : jsnum
}.

(** [data.wristDeviation] *)
Record WristDeviation : Type := mkWristDeviation {
  radialDeviation : Q; ulnarDeviation : Q
}.

(** What the tracker passes to [onUpdate]; an absent field is [None]. *)
Record TrackerData : Type := mkTrackerData {
  handDetected : bool;
  detectedHandSide : option HandType;
  data_handType : option HandType;
  lockedHandType : option HandType;
  data_sessionHandType : option HandType;
  wristDeviation : option WristDeviation;
  landmarks : option (list Landmark);
  wristAngles : option WristAngles
}.

Record SessionMaxWristAngles : Type := mkSessionMaxWristAngles {
  maxWristFlexion : Q; maxWristExtension : Q
}.

Record SessionMaxDeviation : Type := mkSessionMaxDeviation {
  maxRadialDeviation : Q; maxUlnarDeviation : Q
}.

(** A captured [motionFrame]. *)
Record MotionFrame : Type := mkMotionFrame {
  timestamp : Z;
  mf_landmarks : list Landmark;
  mf_wristAngles : option WristAngles;
  handedness : HandType;
  mf_sessionHandType : HandType
}.

(** The component state the callback reads and writes (display-only state
    is left out). *)
Record State : Type := mkState {
  isRecording : bool;
  recordingStartTime : option Z;          (* recordingStartTimeRef.current *)
  detectedHandType : HandType;
  sessionHandType : HandType;
  maxROM : JointAngles;
  sessionMaxWristAngles : SessionMaxWristAngles;
  sessionMaxDeviation : SessionMaxDeviation;
  recordingMotionData : list MotionFrame
}.

(** The state of a freshly mounted page. *)
Definition initialState : State :=
  mkState false None UNKNOWN UNKNOWN (mkJointAngles 0 0 0 0)
    (mkSessionMaxWristAngles 0 0) (mkSessionMaxDeviation 0 0) [].

(** [x && x !== 'UNKNOWN'] *)
Definition known (x : option HandType) : option HandType :=
  match x with
  | Some UNKNOWN => None
  | _ => x
  end.

(** [a || b] on optional strings. *)
Definition orElse (a b : option HandType) : option HandType :=
  match a with
  | Some _ => a
  | None => b
  end.

(** The two [setDetectedHandType] updates. *)
Definition updateDetected (cur : HandType) (data : TrackerData) : HandType :=
  let d1 := match known (detectedHandSide data) with
            | Some h => h
            | None => cur
            end in
  match known (data_handType data) with
  | Some h => h
  | None => d1
  end.

(** "Only update detected hand type if no session lock exists". *)
Definition updateSession (cur : HandType) (data : TrackerData) : HandType :=
  match cur with
  | UNKNOWN =>
      match known (lockedHandType data) with
      | Some h => h
      | None =>
          match known (detectedHandSide data) with
          | Some h => h
          | None => cur
          end
      end
  | _ => cur
  end.

(** "Update session maximums for deviation". *)
Definition updateDeviation (m : SessionMaxDeviation) (data : TrackerData)
  : SessionMaxDeviation :=
  match wristDeviation data with
  | Some d =>
      mkSessionMaxDeviation
        (if Qltb (maxRadialDeviation m) (radialDeviation d)
         then radialDeviation d else maxRadialDeviation m)
        (if Qltb (maxUlnarDeviation m) (ulnarDeviation d)
         then ulnarDeviation d else maxUlnarDeviation m)
  | None => m
  end.

(** [setSessionMaxWristAngles(prev => ...)] *)
Definition updateWristMax (prev : SessionMaxWristAngles) (wa : WristAngles)
  : SessionMaxWristAngles :=
  mkSessionMaxWristAngles
    (Math_max (maxWristFlexion prev) (field_or_zero (wristFlexionAngle wa)))
    (Math_max (maxWristExtension prev) (field_or_zero (wristExtensionAngle wa))).

(** [setMaxROM(prev => ...)] *)
Definition updateMaxROM (prev romData : JointAngles) : JointAngles :=
  mkJointAngles
    (Math_max (mcpAngle prev) (mcpAngle romData))
    (Math_max (pipAngle prev) (pipAngle romData))
    (Math_max (dipAngle prev) (dipAngle romData))
    (Math_max (totalActiveRom prev) (totalActiveRom romData)).

(** [recordingStartTimeRef.current && recordingElapsed > 0 &&
    recordingElapsed <= 10], with [recordingElapsed] in seconds and the
    clock in milliseconds. *)
Definition inCaptureWindow (start : option Z) (currentTime : Z) : bool :=
  match start with
  | Some t0 =>
      negb (t0 =? 0)%Z && (0 <? currentTime - t0)%Z && (currentTime - t0 <=? 10000)%Z
  | None => false
  end.

(** The frame pushed on [recordingMotionDataRef.current], if any.  The
    session hand type is the one of the state the callback closes over. *)
Definition captureFrame (st : State) (data : TrackerData) (currentTime : Z)
  : option MotionFrame :=
  match landmarks data with
  | Some (l :: ls) =>
      if inCaptureWindow (recordingStartTime st) currentTime && handDetected data then
        Some (mkMotionFrame currentTime (l :: ls) (wristAngles data)
                (match sessionHandType st with
                 | UNKNOWN =>
                     match orElse (data_sessionHandType data)
                             (orElse (lockedHandType data)
                                (orElse (detectedHandSide data) (data_handType data))) with
                     | Some h => h
                     | None => LEFT
                     end
                 | h => h
                 end)
                (match sessionHandType st with
                 | UNKNOWN =>
                     match orElse (data_sessionHandType data)
                             (orElse (lockedHandType data) (detectedHandSide data)) with
                     | Some h => h
                     | None => LEFT
                     end
                 | h => h
                 end))
      else None
  | _ => None
  end.

(** The controls and timers of the page, next to the tracker callback. *)
Inductive Event : Type :=
| MediaPipeUpdate (data : TrackerData) (currentTime : Z)
| StartRecording                   (* the record button *)
| CountdownElapsed (startTime : Z) (* the countdown reaches zero *)
| StopRecording                    (* the stop button or the 15 s timer *)
| RetakeRecording.


Section Page.

(** [calculateCurrentROM] of lib/rom-calculator, not among the sources;
    [None] is an exception thrown inside the [try] block. *)
Variable calculateCurrentROM : list Landmark -> option JointAngles.

(** [handleMediaPipeUpdate(data)], with the clock reading [Date.now()]. *)
Definition handleMediaPipeUpdate (st : State) (data : TrackerData) (currentTime : Z)
  : State :=
  let detected := updateDetected (detectedHandType st) data in
  let deviation := updateDeviation (sessionMaxDeviation st) data in
  let session := updateSession (sessionHandType st) data in
  match landmarks data with
  | Some (l :: ls) =>
      let wristMax := match wristAngles data with
                      | Some wa => updateWristMax (sessionMaxWristAngles st) wa
                      | None => sessionMaxWristAngles st
                      end in
      let rom := if (21 <=? List.length (l :: ls))%nat then
                   match calculateCurrentROM (l :: ls) with
                   | Some romData =>
                       if isRecording st then updateMaxROM (maxROM st) romData
                       else maxROM st
                   | None => maxROM st
                   end
                 else maxROM st in
      let motion := match captureFrame st data currentTime with
                    | Some frame => recordingMotionData st ++ [frame]
                    | None => recordingMotionData st
                    end in
      mkState (isRecording st) (recordingStartTime st) detected session rom
        wristMax deviation motion
  | _ =>
      mkState (isRecording st) (recordingStartTime st) detected session (maxROM st)
        (sessionMaxWristAngles st) deviation (recordingMotionData st)
  end.

(** [startRecording]: "Lock the current detected hand type immediately
    when record button is pressed". *)
Definition startRecording (st : State) : State :=
  let currentDetectedHand := match detectedHandType st with
                             | UNKNOWN => LEFT
                             | h => h
                             end in
  mkState (isRecording st) (recordingStartTime st) (detectedHandType st)
    currentDetectedHand (maxROM st) (sessionMaxWristAngles st)
    (sessionMaxDeviation st) (recordingMotionData st).

(** The countdown reaching zero: recording begins, "maintaining locked
    hand type". *)
Definition beginRecording (st : State) (startTime : Z) : State :=
  mkState true (Some startTime) (detectedHandType st) (sessionHandType st)
    (mkJointAngles 0 0 0 0) (sessionMaxWristAngles st) (sessionMaxDeviation st) [].

(** [stopRecording], and the recording timer running out. *)
Definition stopRecording (st : State) : State :=
  mkState false None (detectedHandType st) (sessionHandType st) (maxROM st)
    (sessionMaxWristAngles st) (sessionMaxDeviation st) (recordingMotionData st).

(** [retakeRecording] *)
Definition retakeRecording (st : State) : State :=
  mkState false (recordingStartTime st) (detectedHandType st) (sessionHandType st)
    (maxROM st) (sessionMaxWristAngles st) (sessionMaxDeviation st)
    (recordingMotionData st).

Definition step (st : State) (e : Event) : State :=
  match e with
  | MediaPipeUpdate data currentTime => handleMediaPipeUpdate st data currentTime
  | StartRecording => startRecording st
  | CountdownElapsed startTime => beginRecording st startTime
  | StopRecording => stopRecording st
  | RetakeRecording => retakeRecording st
  end.

Definition run (st : State) (evs : list Event) : State := fold_left step evs st.


End Page.

Definition le_angles (a b : JointAngles) : Prop :=
  mcpAngle a <= mcpAngle b /\ pipAngle a <= pipAngle b /\
  dipAngle a <= dipAngle b /\ totalActiveRom a <= totalActiveRom b.

Definition le_wristMax (a b : SessionMaxWristAngles) : Prop :=
  maxWristFlexion a <= maxWristFlexion b /\ maxWristExtension a <= maxWristExtension b.

(** A frame that reports the right hand, delivered two seconds into a
    recording locked to the left hand. *)
Definition opposite_frame : TrackerData :=
  mkTrackerData true (Some RIGHT) (Some RIGHT) (Some RIGHT) (Some RIGHT) None
    (Some [mkLandmark 0 0 0]) None.





End Recording.

(* ===================================================================== *)
(** * components/dash-assessment.tsx: the DASH score *)
(* ===================================================================== *)

Module Dash.
Local Open Scope Q_scope.

(** [responses: Record<number, number>]: the answer given to each
    answered question, as (question id, value) entries. *)
Definition Responses : Type := list (nat * Z).

(** [Object.values(responses)] *)
Definition Object_values (responses : Responses) : list Z := map snd responses.

(** [Math.round(x)]: the integer nearest to [x], halves rounded up. *)
Definition Math_round (x : Q) : Z := Qfloor (x + (1 # 2)).

(** [calculateDashScore(responses)] of components/dash-assessment.tsx. *)
Definition calculateDashScore (responses : Responses) : option Q :=
  let validResponses := filter (fun value => (0 <? value)%Z) (Object_values responses) in
  if (List.length validResponses <? 27)%nat then None
  else
    let sum := fold_left (fun acc value => (acc + value)%Z) validResponses 0%Z in
    let average := inject_Z sum / inject_Z (Z.of_nat (List.length validResponses)) in
    let dashScore := ((average - 1) / 4) * 100 in
    Some (inject_Z (Math_round (dashScore * 10)) / 10).

(** The answered questions: the responses with a positive value. *)
Definition answered (responses : Responses) : list Z :=
  filter (fun value => (0 <? value)%Z) (Object_values responses).

(** The arithmetic mean of a list of answers. *)
Definition mean (l : list Z) : Q :=
  inject_Z (fold_right Z.add 0%Z l) / inject_Z (Z.of_nat (List.length l)).

(** 27 answers of 3 ("moderate difficulty") and three questions left
    unanswered. *)
Definition sample_responses : Responses :=
  map (fun i => (i, 3%Z)) (seq 1 27).

End Dash.

(* ===================================================================== *)
(** * wrist_angle.py: frames under a change of camera view *)
(* ===================================================================== *)

Module WristTransforms.
Import WristAngle.
Local Open Scope R_scope.

Definition vadd (a b : Vec3) : Vec3 :=
  mkVec3 (vx a + vx b) (vy a + vy b) (vz a + vz b).

Definition vscale (s : R) (v : Vec3) : Vec3 :=
  mkVec3 (s * vx v) (s * vy v) (s * vz v).

(** The landmark seen in a mirror across the image's vertical axis (the
    other arm), and in a mirror across the image plane (depth reversed). *)
Definition mirror_x (v : Vec3) : Vec3 := mkVec3 (- vx v) (vy v) (vz v).
Definition mirror_z (v : Vec3) : Vec3 := mkVec3 (vx v) (vy v) (- vz v).

Definition map_frame (f : Vec3 -> Vec3) (fr : Frame) : Frame :=
  mkFrame (f (elbow fr)) (f (wrist fr)) (f (middle_mcp fr)).

(** The frame moved by [t] and seen [s] times larger. *)
Definition rescale_frame (s : R) (t : Vec3) (fr : Frame) : Frame :=
  map_frame (fun p => vscale s (vadd p t)) fr.

(** A right arm bent upwards in the image plane, and a forearm whose hand
    is bent straight into the depth of the image. *)
Definition planar_frame : Frame :=
  mkFrame (mkVec3 0 0 0) (mkVec3 1 0 0) (mkVec3 1 1 0).

Definition depth_frame : Frame :=
  mkFrame (mkVec3 0 0 0) (mkVec3 1 0 0) (mkVec3 1 0 1).

End WristTransforms.

(* ===================================================================== *)
(** * server/routes.ts: a wrist request for the completion endpoint *)
(* ===================================================================== *)

Module CompleteSamples.
Import Js Complete.
Import String.
Local Open Scope Q_scope.

(** A wrist recording of one repetition whose single motion frame reads 42
    degrees of flexion, while the repetition's own summary fields are 0. *)
Definition wrist_frame : MotionFrame :=
  mkMotionFrame [mkLandmark 0 0 0] (Some (mkWristAngles (JNum 42) (JNum 0))).

Definition wrist_repetition : Repetition :=
  mkRepetition None (JNum 0) (JNum 0) (JNum 0) (JNum 0) (Some [wrist_frame]).

Definition wrist_body : Body :=
  mkBody (Some [wrist_repetition]) (JNum 70) (Some RIGHT)
    JUndefined JUndefined JUndefined JUndefined JUndefined JUndefined JUndefined.

Definition wrist_row : UserAssessmentRow :=
  completeAssessment (fun _ => None) (fun _ => None)
    0%Z [] 3%Z (Some "Wrist Flexion"%string) wrist_body.

End CompleteSamples.

(* ===================================================================== *)
(** * server/routes.ts: what the completion endpoint hands the calculators *)
(* ===================================================================== *)

Module CompleteFrames.
Import Js Complete.


End CompleteFrames.

(* ===================================================================== *)
(** * server/routes.ts: the patient-facing read endpoints *)
(* ===================================================================== *)

(** The handlers that read a patient's stored rows: history, progress,
    motion data, today's list, streak and calendar.  [storage] is not
    among the sources; each handler takes what its storage calls return.

    Time.  A [Date] is its [getTime()], the milliseconds since the epoch,
    and each handler reads the clock once.  [toISOString().split('T')[0]]
    is the UTC calendar day, modelled as the number of that day since the
    epoch: two instants have the same date string exactly when they have
    the same day number.  [setDate(getDate() - i)] moves a date back by
    [i] local days, which is [i] times 24 hours on a server whose zone has
    a fixed offset from UTC, as assumed here. *)

Module Routes.
Import Js.
Import String.
Local Open Scope Z_scope.

(** [1000 * 60 * 60 * 24] *)
Definition DAY : Z := 1000 * 60 * 60 * 24.

(** [new Date(t).toISOString().split('T')[0]] *)
Definition isoDate (t : Z) : Z := t / DAY.

(** [Math.floor((now - t) / (1000 * 60 * 60 * 24))] *)
Definition daysSince (now t : Z) : Z := (now - t) / DAY.

(** [Math.ceil(a / b)] on integers, for a positive [b]. *)
Definition Math_ceil_div (a b : Z) : Z := - ((- a) / b).

(** A row of [user_assessments] as the handlers read it.  [completedAt]
    is a [Date] or null; [repetitionData], a JSON column, is the array the
    completion endpoint stored or null. *)
Record UserAssessment : Type := mkUserAssessment {
  ua_id : Z;
  ua_assessmentId : Z;
  ua_isCompleted : bool;
  ua_completedAt : option Z;
  ua_repetitionData : option (list Complete.Repetition)
}.

(** A row of [assessments]; [duration] is in seconds or null. *)
Record Assessment : Type := mkAssessment {
  a_id : Z;
  a_name : string;
  a_duration : option Z;
  a_orderIndex : Z
}.

(** A row of [users]. *)
Record User : Type := mkUser {
  u_code : string;
  u_injuryType : option string;
  u_createdAt : option Z;
  u_studyStartDate : option Z
}.

(** [arr.sort((a, b) => key(b) - key(a))]: the stable sort into
    descending order of [key]. *)
Fixpoint insertDesc {A : Type} (key : A -> Z) (x : A) (l : list A) : list A :=
  match l with
  | [] => [x]
  | y :: l' => if key y <=? key x then x :: l else y :: insertDesc key x l'
  end.

Definition sortDesc {A : Type} (key : A -> Z) (l : list A) : list A :=
  fold_right (insertDesc key) [] l.

(** [ua.isCompleted && ua.completedAt] *)
Definition completedWithDate (ua : UserAssessment) : bool :=
  ua_isCompleted ua &&
  match ua_completedAt ua with
  | Some _ => true
  | None => false
  end.

(** [new Date(ua.completedAt || 0).getTime()] *)
Definition timeOf (ua : UserAssessment) : Z :=
  match ua_completedAt ua with
  | Some t => t
  | None => 0
  end.

(** ** GET /api/users/:userId/history *)

(** The path is registered twice; Express runs the handler registered
    first, which answers, so this is the one modelled.  The handler of
    GET /api/users/by-code/:userCode/history builds the same list.  An
    entry carries more fields of the row than the four kept here; they are
    copied unchanged. *)
Record HistoryEntry : Type := mkHistoryEntry {
  h_id : Z;
  h_assessmentName : string;
  h_assessmentId : Z;
  h_completedAt : option Z
}.

(** [assessment?.name || 'Unknown Assessment'], then the DASH override. *)
Definition historyName (assessments : list Assessment) (ua : UserAssessment) : string :=
  let assessmentName :=
    match find (fun a => a_id a =? ua_assessmentId ua) assessments with
    | Some a => if String.eqb (a_name a) EmptyString then "Unknown Assessment"%string
                else a_name a
    | None => "Unknown Assessment"%string
    end in
  if ua_assessmentId ua =? 6 then "DASH Survey"%string else assessmentName.

Definition historyEntry (assessments : list Assessment) (ua : UserAssessment)
  : HistoryEntry :=
  mkHistoryEntry (ua_id ua) (historyName assessments ua) (ua_assessmentId ua)
    (ua_completedAt ua).

(** [new Date(e.completedAt || 0).getTime()] *)
Definition historyTime (e : HistoryEntry) : Z :=
  match h_completedAt e with
  | Some t => t
  | None => 0
  end.

Definition history (assessments : list Assessment) (userAssessments : list UserAssessment)
  : list HistoryEntry :=
  match userAssessments with
  | [] => []
  | _ :: _ =>
      sortDesc historyTime
        (map (historyEntry assessments) (filter ua_isCompleted userAssessments))
  end.

(** ** GET /api/users/:userId/assessments *)

(** An assessment with the patient's progress: [...assessment] and the
    fields taken from the representative session. *)
Record AssessmentProgress : Type := mkAssessmentProgress {
  ap_assessment : Assessment;
  ap_isCompleted : bool;
  ap_completedAt : option Z;
  ap_userAssessmentId : option Z
}.

(** [mostRecentCompleted || mostRecentSession] among the sessions of one
    assessment. *)
Definition representativeSession (allUserAssessments : list UserAssessment)
  : option UserAssessment :=
  let mostRecentCompleted :=
    hd_error (sortDesc timeOf (filter ua_isCompleted allUserAssessments)) in
  let mostRecentSession := hd_error (sortDesc timeOf allUserAssessments) in
  match mostRecentCompleted with
  | Some ua => Some ua
  | None => mostRecentSession
  end.

Definition withProgress (userAssessments : list UserAssessment) (assessment : Assessment)
  : AssessmentProgress :=
  let allUserAssessments :=
    filter (fun ua => ua_assessmentId ua =? a_id assessment) userAssessments in
  let hasCompletedSession := existsb ua_isCompleted allUserAssessments in
  let representative := representativeSession allUserAssessments in
  mkAssessmentProgress assessment hasCompletedSession
    (match representative with
     | Some ua => ua_completedAt ua
     | None => None
     end)
    (option_map ua_id representative).

(** The list of the handler, for the assessments [allAssessments] that
    storage returns for the patient;
    [.sort((a, b) => a.orderIndex - b.orderIndex)] is ascending and
    stable. *)
Definition assessmentsWithProgress (allAssessments : list Assessment)
    (userAssessments : list UserAssessment) : list AssessmentProgress :=
  sortDesc (fun e => - a_orderIndex (ap_assessment e))
    (map (withProgress userAssessments) allAssessments).

(** ** GET /api/users/:userId/progress *)

Record Progress : Type := mkProgress {
  completed : Z;
  total : Z;
  percentage : Z
}.

Definition progress (userAssessments : list UserAssessment)
    (allAssessments : list Assessment) : Progress :=
  let completed := Z.of_nat (List.length (filter ua_isCompleted userAssessments)) in
  let total := Z.of_nat (List.length allAssessments) in
  mkProgress completed total
    (if 0 <? total
     then Dash.Math_round ((inject_Z completed / inject_Z total) * 100)%Q
     else 0).

(** ** GET /api/user-assessments/:userAssessmentId/motion-data *)

Inductive Response (A : Type) : Type :=
| Json (body : A)
| Status (code : Z).

Arguments Json {A} body.
Arguments Status {A} code.

(** The [forEach] that collects [rep.motionData] of every repetition. *)
Definition extractMotionData (reps : list Complete.Repetition)
  : list Complete.MotionFrame :=
  fold_left (fun motionData rep =>
               match Complete.motionData rep with
               | Some frames => motionData ++ frames
               | None => motionData
               end) reps [].

Section MotionData.

(** [storage.getUserAssessments(userId)]; [None] is a thrown exception,
    which the search loop ignores. *)
Variable getUserAssessments : Z -> option (list UserAssessment).

(** [for (let userId = ...; userId <= 100; userId++)], with [n] rounds
    left. *)
Fixpoint searchUsers (n : nat) (userId : Z) (userAssessmentId : Z)
  : option UserAssessment :=
  match n with
  | O => None
  | S n' =>
      match getUserAssessments userId with
      | Some userAssessments =>
          match find (fun ua => ua_id ua =? userAssessmentId) userAssessments with
          | Some found => Some found
          | None => searchUsers n' (userId + 1) userAssessmentId
          end
      | None => searchUsers n' (userId + 1) userAssessmentId
      end
  end.

Definition findUserAssessment (userAssessmentId : Z) : option UserAssessment :=
  searchUsers 100 1 userAssessmentId.

Definition motionDataRoute (userAssessmentId : Z)
  : Response (list Complete.MotionFrame) :=
  match findUserAssessment userAssessmentId with
  | Some userAssessment =>
      match ua_repetitionData userAssessment with
      | Some reps => Json (extractMotionData reps)
      | None => Status 404
      end
  | None => Status 404
  end.

End MotionData.

(** ** GET /api/users/:userId/assessments/today *)

(** The rows completed on the UTC day of [now]. *)
Definition completedToday (userAssessments : list UserAssessment) (now : Z)
  : list UserAssessment :=
  filter (fun ua => completedWithDate ua && (isoDate (timeOf ua) =? isoDate now))
    userAssessments.

(** The names every JavaScript object inherits from [Object.prototype]:
    indexing the literal [assessmentMap] with one of them yields a function
    or an object, not a list of ids. *)
Definition inheritedNames : list string :=
  ["constructor"; "__defineGetter__"; "__defineSetter__"; "hasOwnProperty";
   "__lookupGetter__"; "__lookupSetter__"; "isPrototypeOf"; "propertyIsEnumerable";
   "toString"; "valueOf"; "__proto__"; "toLocaleString"]%string.

(** [getAssessmentsForInjuryType(injuryType)]; [None] is a value without
    an [includes] method. *)
Definition getAssessmentsForInjuryType (injuryType : string) : option (list Z) :=
  if String.eqb injuryType "Trigger Finger" then Some [1]
  else if String.eqb injuryType "Carpal Tunnel" then Some [1; 2; 3; 4; 5]
  else if String.eqb injuryType "Distal Radius Fracture" then Some [1; 2; 3; 4; 5]
  else if String.eqb injuryType "Wrist Fracture" then Some [1; 2; 3; 4; 5]
  else if String.eqb injuryType "CMC Arthroplasty" then Some [1; 2]
  else if existsb (String.eqb injuryType) inheritedNames then None
  else Some [1; 2; 3; 4; 5].

Record TodayEntry : Type := mkTodayEntry {
  te_id : Z;
  te_name : string;
  te_estimatedMinutes : Z;
  te_isRequired : bool;
  te_isCompleted : bool;
  te_completedAt : option Z;
  te_userAssessmentId : option Z
}.

(** [x?.id || null] *)
Definition id_or_null (x : option UserAssessment) : option Z :=
  match x with
  | Some ua => if ua_id ua =? 0 then None else Some (ua_id ua)
  | None => None
  end.

(** [x?.completedAt || null] *)
Definition completedAt_or_null (x : option UserAssessment) : option Z :=
  match x with
  | Some ua => ua_completedAt ua
  | None => None
  end.

(** [!!x] *)
Definition present {A : Type} (x : option A) : bool :=
  match x with
  | Some _ => true
  | None => false
  end.

(** The entry of one core assessment. *)
Definition todayEntry (done : list UserAssessment) (assessment : Assessment)
  : TodayEntry :=
  let completedAssessment := find (fun ua => ua_assessmentId ua =? a_id assessment) done in
  mkTodayEntry (a_id assessment) (a_name assessment)
    (Math_ceil_div (match a_duration assessment with
                    | Some d => if d =? 0 then 600 else d
                    | None => 600
                    end) 60)
    true (present completedAssessment)
    (completedAt_or_null completedAssessment) (id_or_null completedAssessment).

(** [coreAssessments.filter(a => allowedAssessmentIds.includes(a.id)).map(...)];
    the call of [includes] throws when the allowed ids are no list and
    there is a core assessment to test. *)
Definition todayCore (user : User) (coreAssessments : list Assessment)
    (done : list UserAssessment) : option (list TodayEntry) :=
  match getAssessmentsForInjuryType
          (match u_injuryType user with
           | Some t => t
           | None => EmptyString
           end) with
  | Some allowedAssessmentIds =>
      Some (map (todayEntry done)
              (filter (fun a => existsb (Z.eqb (a_id a)) allowedAssessmentIds)
                 coreAssessments))
  | None =>
      match coreAssessments with
      | [] => Some []
      | _ :: _ => None
      end
  end.

(** The completed DASH rows that carry a date. *)
Definition dashRows (userAssessments : list UserAssessment) : list UserAssessment :=
  filter completedWithDate (filter (fun ua => ua_assessmentId ua =? 6) userAssessments).

(** [dashAssessments.filter(...).sort(...)[0]] *)
Definition lastDashAssessment (userAssessments : list UserAssessment)
  : option UserAssessment :=
  hd_error (sortDesc timeOf (dashRows userAssessments)).

(** The DASH entry of today's list, if it is pushed. *)
Definition todayDash (user : User) (userAssessments : list UserAssessment) (now : Z)
  : option TodayEntry :=
  let last := lastDashAssessment userAssessments in
  let recoveryStartDate := match u_createdAt user with
                           | Some t => t
                           | None => now
                           end in
  let daysSinceStart := daysSince now recoveryStartDate in
  let daysSinceLastDash := match last with
                           | Some l => daysSince now (timeOf l)
                           | None => daysSinceStart
                           end in
  let dashCompletedToday :=
    find (fun ua => ua_assessmentId ua =? 6) (completedToday userAssessments now) in
  if (6 <=? daysSinceLastDash) || ((0 <=? daysSinceStart) && negb (present last))
     || present dashCompletedToday
  then Some (mkTodayEntry 6 "DASH Survey" 10 false (present dashCompletedToday)
               (completedAt_or_null dashCompletedToday) (id_or_null dashCompletedToday))
  else None.

(** The handler: [None] is the 500 answer of the [catch] block. *)
Definition todayRoute (user : User) (coreAssessments : list Assessment)
    (userAssessments : list UserAssessment) (now : Z) : option (list TodayEntry) :=
  core <- todayCore user coreAssessments (completedToday userAssessments now) ;;
  Some (core ++ match todayDash user userAssessments now with
                | Some dash => [dash]
                | None => []
                end).

(** ** GET /api/patients/:code/daily-assessments *)

(** Whether the daily list gets the DASH reminder.  [new Date(null)] is
    the epoch. *)
Definition dailyDash (user : User) (userAssessments : list UserAssessment) (now : Z)
  : bool :=
  let recoveryStartDate := match u_studyStartDate user with
                           | Some t => t
                           | None => match u_createdAt user with
                                     | Some t => t
                                     | None => 0
                                     end
                           end in
  let daysSinceStart := daysSince now recoveryStartDate in
  let last := lastDashAssessment userAssessments in
  let daysSinceLastDash := match last with
                           | Some l => daysSince now (timeOf l)
                           | None => daysSinceStart
                           end in
  (6 <=? daysSinceLastDash) || ((6 <=? daysSinceStart) && negb (present last)).

(** ** GET /api/patients/:code/streak *)

(** [.filter((date, index, array) => array.indexOf(date) === index)] *)
Fixpoint uniqueDates (seen : list Z) (dates : list Z) : list Z :=
  match dates with
  | [] => []
  | d :: rest =>
      if existsb (Z.eqb d) seen then uniqueDates seen rest
      else d :: uniqueDates (d :: seen) rest
  end.

(** The distinct UTC days with a completed row, most recent first. *)
Definition completionDates (completedAssessments : list UserAssessment) : list Z :=
  sortDesc (fun d => d * DAY)
    (uniqueDates []
       (map (fun ua => isoDate (timeOf ua))
          (filter (fun ua => present (ua_completedAt ua)) completedAssessments))).

(** [for (let i = ...; i < 30; i++)], with [n] rounds left. *)
Fixpoint streakLoop (n : nat) (dates : list Z) (todayStr : Z) (checkDate : Z)
    (streak : Z) : Z :=
  match n with
  | O => streak
  | S n' =>
      let dateStr := isoDate checkDate in
      if existsb (Z.eqb dateStr) dates then
        streakLoop n' dates todayStr (checkDate - DAY) (streak + 1)
      else if negb (dateStr =? todayStr) then streak
      else streakLoop n' dates todayStr (checkDate - DAY) streak
  end.

Record Streak : Type := mkStreak {
  currentStreak : Z;
  longestStreak : Z;
  totalCompletions : Z
}.

Definition streakRoute (userAssessments : list UserAssessment) (now : Z) : Streak :=
  let completedAssessments := filter ua_isCompleted userAssessments in
  let actualCompletions := Z.of_nat (List.length completedAssessments) in
  if 0 <? actualCompletions then
    let dates := completionDates completedAssessments in
    let streak := streakLoop 30 dates (isoDate now) now 0 in
    mkStreak streak
      (Z.max streak (Math_ceil_div (Z.of_nat (List.length dates)) 5))
      actualCompletions
  else mkStreak 0 0 actualCompletions.

(** Some completed row carries a date on the UTC day [day]. *)
Definition completedOn (userAssessments : list UserAssessment) (day : Z) : bool :=
  existsb (fun ua => completedWithDate ua && (isoDate (timeOf ua) =? day))
    userAssessments.

(** ** GET /api/patients/:code/calendar *)

(** The [status] of a calendar day on the patient dashboard. *)
Inductive DayStatus : Type := completed_day | missed_day | pending_day | future_day.

Record CalendarDay : Type := mkCalendarDay {
  cd_date : Z;
  cd_status : DayStatus;
  cd_completedAssessments : Z;
  cd_totalAssessments : Z
}.

(** [new Date(2025, 5, 20)]: local midnight of 20 June 2025, on a server
    [tz] milliseconds ahead of UTC. *)
Definition recoveryStartDate (tz : Z) : Z := 1750377600000 - tz.

(** [new Set(ids).size] *)
Definition distinct (ids : list Z) : Z :=
  Z.of_nat (List.length (nodup Z.eq_dec ids)).

(** The entry pushed for [date]. *)
Definition calendarDay (tz : Z) (totalAssessments : Z)
    (userAssessments : list UserAssessment) (today date : Z) : CalendarDay :=
  let dateStr := isoDate date in
  if date <? recoveryStartDate tz then
    mkCalendarDay dateStr future_day 0 totalAssessments
  else if date <=? today then
    let assessmentsForDate :=
      filter (fun ua =>
                match ua_completedAt ua with
                | Some t => (isoDate t =? dateStr) && ua_isCompleted ua
                | None => false
                end) userAssessments in
    match assessmentsForDate with
    | _ :: _ =>
        let completedCount := distinct (map ua_assessmentId assessmentsForDate) in
        mkCalendarDay dateStr
          (if totalAssessments <=? completedCount then completed_day else pending_day)
          completedCount totalAssessments
    | [] => mkCalendarDay dateStr pending_day 0 totalAssessments
    end
  else mkCalendarDay dateStr future_day 0 totalAssessments.

(** [for (let i = 29; i >= 0; i--)] *)
Definition calendarRoute (tz : Z) (allAssessments : list Assessment)
    (userAssessments : list UserAssessment) (today : Z) : list CalendarDay :=
  map (fun i => calendarDay tz (Z.of_nat (List.length allAssessments)) userAssessments
                  today (today - Z.of_nat i * DAY))
    (rev (seq 0 30)).

(** ** POST /api/admin/generate-code *)

(** [Math.floor(100000 + Math.random() * 900000)], for the value [r] that
    [Math.random()] returns. *)
Definition accessCode (r : Q) : Z := Qfloor (100000 + r * 900000)%Q.

(** ** Sample data *)

(** Days 20300 to 20302 after the epoch (July 2025). *)
Definition sample_rows : list UserAssessment :=
  [mkUserAssessment 1 1 true (Some (20300 * DAY + 5000)) None;
   mkUserAssessment 2 6 true (Some (20301 * DAY + 7000)) None;
   mkUserAssessment 3 2 false None None;
   mkUserAssessment 4 1 true (Some (20302 * DAY + 100)) None].

Definition sample_assessments : list Assessment :=
  [mkAssessment 1 "TAM" (Some 600) 1; mkAssessment 2 "Kapandji Score" None 2].

Definition sample_user : User :=
  mkUser "DEMO01" (Some "Trigger Finger"%string) (Some (20290 * DAY)) None.

(** A stored row with the repetitions of [CompleteSamples.wrist_body]. *)
Definition stored_wrist_row : UserAssessment :=
  mkUserAssessment 7 3 true (Some (20302 * DAY))
    (Complete.repetitionData CompleteSamples.wrist_body).

Definition sample_storage (userId : Z) : option (list UserAssessment) :=
  if userId =? 2 then None
  else if userId =? 5 then Some [stored_wrist_row]
  else Some [].

End Routes.

(* ===================================================================== *)
(** * The recording page: what a finished repetition submits *)
(* ===================================================================== *)

(** [calculateQualityScore], [handleRepetitionComplete] and
    [completeAssessment] of the recording page, and the JSON body the
    completion endpoint receives from them. *)

Module Submission.
Import Js Recording.
Local Open Scope Z_scope.

(** [trackingQuality], a string the tracker reports. *)
Inductive TrackingQuality : Type := Excellent | Good | Fair | OtherQuality.

(** The display state [calculateQualityScore] reads. *)
Record Display : Type := mkDisplay {
  landmarksCount : Z;
  disp_handDetected : bool;
  trackingQuality : TrackingQuality
}.

Definition calculateQualityScore (d : Display) : Z :=
  let score := 0 in
  let score := if landmarksCount d =? 21 then score + 40 else score in
  let score := if disp_handDetected d then score + 30 else score in
  let score := match trackingQuality d with
               | Excellent => score + 30
               | Good => score + 20
               | Fair => score + 10
               | OtherQuality => score
               end in
  Z.min score 100.

(** One entry of [recordedData]. *)
Record RepetitionData : Type := mkRepetitionData {
  repetition : Z;
  duration : Z;
  rd_qualityScore : Z;
  rd_motionData : list MotionFrame;
  rd_romData : JointAngles;
  rd_wristFlexionAngle : Q;
  rd_wristExtensionAngle : Q;
  rd_maxWristFlexion : Q;
  rd_maxWristExtension : Q
}.

(** The argument of [completeAssessmentMutation.mutate]. *)
Record Request : Type := mkRequest {
  totalDuration : Z;
  averageQuality : Q;
  req_repetitionData : list RepetitionData;
  req_qualityScore : Q;
  req_handType : HandType
}.

(** [Math.round((last.timestamp - first.timestamp) / 1000)], or 15 when
    no frame was captured. *)
Definition actualDuration (frames : list MotionFrame) : Z :=
  match frames with
  | [] => 15
  | first :: _ =>
      Dash.Math_round
        (inject_Z (timestamp (last frames first) - timestamp first) / 1000)%Q
  end.

(** [latestMotionData?.wristAngles?.field || 0] *)
Definition latest_or_zero (frames : list MotionFrame) (sel : WristAngles -> jsnum) : Q :=
  match frames with
  | [] => 0%Q
  | first :: _ =>
      match mf_wristAngles (last frames first) with
      | Some wa => field_or_zero (sel wa)
      | None => 0%Q
      end
  end.

(** [completeAssessment(finalRecordedData)] *)
Definition completeAssessment (st : State) (finalRecordedData : list RepetitionData)
  : Request :=
  let averageQuality :=
    match finalRecordedData with
    | [] => 0%Q
    | _ :: _ =>
        (inject_Z (fold_left (fun sum rep => (sum + rd_qualityScore rep)%Z)
                     finalRecordedData 0%Z)
         / inject_Z (Z.of_nat (List.length finalRecordedData)))%Q
    end in
  let finalHandType := match sessionHandType st with
                       | UNKNOWN => detectedHandType st
                       | h => h
                       end in
  mkRequest
    (fold_left (fun sum rep => sum + duration rep) finalRecordedData 0)
    averageQuality finalRecordedData averageQuality finalHandType.

Section Page.

(** [calculateMaxROM] of lib/rom-calculator and
    [calculateMaxElbowWristAngles] of shared/elbow-wrist-calculator, not
    among the sources; [None] is an exception, which ends the handler
    before anything is submitted. *)
Variable calculateMaxROM : list MotionFrame -> option JointAngles.
Variable calculateMaxElbowWristAngles : list MotionFrame -> option WristAngles.

(** [handleRepetitionComplete]: the repetition it records and the request
    it submits. *)
Definition handleRepetitionComplete (st : State) (d : Display) (currentRepetition : Z)
    (recordedData : list RepetitionData) : option Request :=
  let frames := recordingMotionData st in
  finalMaxROM <- match frames with
                 | [] => Some (maxROM st)
                 | _ :: _ => calculateMaxROM frames
                 end ;;
  sessionMax <- calculateMaxElbowWristAngles frames ;;
  let repetitionData :=
    mkRepetitionData currentRepetition (actualDuration frames)
      (calculateQualityScore d) frames finalMaxROM
      (latest_or_zero frames wristFlexionAngle)
      (latest_or_zero frames wristExtensionAngle)
      (field_or_zero (wristFlexionAngle sessionMax))
      (field_or_zero (wristExtensionAngle sessionMax)) in
  Some (completeAssessment st (recordedData ++ [repetitionData])).

End Page.

(** ** The request as the completion endpoint reads it *)

Definition toWristAngles (wa : WristAngles) : Complete.WristAngles :=
  Complete.mkWristAngles (wristFlexionAngle wa) (wristExtensionAngle wa).

Definition toMotionFrame (f : MotionFrame) : Complete.MotionFrame :=
  Complete.mkMotionFrame (mf_landmarks f) (option_map toWristAngles (mf_wristAngles f)).

Definition toRepetition (rep : RepetitionData) : Complete.Repetition :=
  Complete.mkRepetition
    (Some (Complete.mkRomData (JNum (mcpAngle (rd_romData rep)))
             (JNum (pipAngle (rd_romData rep))) (JNum (dipAngle (rd_romData rep)))
             (JNum (totalActiveRom (rd_romData rep)))))
    (JNum (rd_wristFlexionAngle rep)) (JNum (rd_wristExtensionAngle rep))
    (JNum (rd_maxWristFlexion rep)) (JNum (rd_maxWristExtension rep))
    (Some (map toMotionFrame (rd_motionData rep))).

(** [req.body]: the fields the page does not send are absent. *)
Definition toBody (r : Request) : Complete.Body :=
  Complete.mkBody (Some (map toRepetition (req_repetitionData r)))
    (JNum (req_qualityScore r)) (Some (req_handType r))
    JUndefined JUndefined JUndefined JUndefined JUndefined JUndefined JUndefined.

(** A recording: the record button, the end of the countdown at time 1000,
    and two tracker frames two and five seconds later. *)
Definition sample_events : list Event :=
  [StartRecording; CountdownElapsed 1000;
   MediaPipeUpdate opposite_frame 3000; MediaPipeUpdate opposite_frame 6000].

Definition sample_display : Display := mkDisplay 21 true Good.

End Submission.

(* ===================================================================== *)
(** * components/dash-assessment.tsx: the questionnaire form *)
(* ===================================================================== *)

(** The state of the [DashAssessment] component and its handlers.  A
    [Record<number, number>] is its list of entries in the order JavaScript
    enumerates integer keys, which is ascending. *)

Module DashForm.
Import Dash.
Local Open Scope Z_scope.

(** [RESPONSE_OPTIONS]: the radio buttons of a question. *)
Inductive ResponseOption : Type :=
| NoDifficulty | MildDifficulty | ModerateDifficulty | SevereDifficulty | Unable.

(** [option.value] *)
Definition value (o : ResponseOption) : Z :=
  match o with
  | NoDifficulty => 1
  | MildDifficulty => 2
  | ModerateDifficulty => 3
  | SevereDifficulty => 4
  | Unable => 5
  end.

Record State : Type := mkState {
  responses : Responses;
  currentQuestion : nat
}.

(** [useState({})] and [useState(1)] *)
Definition initialState : State := mkState [] 1.

(** [{ ...prev, [questionId]: value }] *)
Fixpoint setResponse (questionId : nat) (v : Z) (prev : Responses) : Responses :=
  match prev with
  | [] => [(questionId, v)]
  | (q, w) :: rest =>
      if (questionId =? q)%nat then (questionId, v) :: rest
      else if (questionId <? q)%nat then (questionId, v) :: prev
      else (q, w) :: setResponse questionId v rest
  end.

(** [responses[questionId]] *)
Fixpoint getResponse (questionId : nat) (r : Responses) : option Z :=
  match r with
  | [] => None
  | (q, w) :: rest => if (questionId =? q)%nat then Some w else getResponse questionId rest
  end.

(** [Object.keys(responses)] *)
Definition Object_keys (r : Responses) : list nat := map fst r.

Definition handleResponseChange (st : State) (questionId : nat) (v : Z) : State :=
  mkState (setResponse questionId v (responses st)) (currentQuestion st).

(** [handleNext]: without a response to the current question it only
    shows a toast. *)
Definition handleNext (st : State) : State :=
  match getResponse (currentQuestion st) (responses st) with
  | None => st
  | Some v =>
      if v =? 0 then st
      else if (currentQuestion st <? 30)%nat
           then mkState (responses st) (currentQuestion st + 1)
           else st
  end.

Definition handlePrevious (st : State) : State :=
  if (1 <? currentQuestion st)%nat
  then mkState (responses st) (currentQuestion st - 1)
  else st.

(** [handleComplete]: the arguments of [onComplete], or [None] when the
    handler returns without calling it. *)
Definition handleComplete (st : State) : option (Responses * Q) :=
  let answeredQuestions := List.length (Object_keys (responses st)) in
  if (answeredQuestions <? 27)%nat then None
  else
    match calculateDashScore (responses st) with
    | Some dashScore => Some (responses st, dashScore)
    | None => None
    end.

(** What the patient can do on the form: pick a radio button of the
    current question, or press Next or Previous. *)
Inductive Event : Type :=
| Select (o : ResponseOption)
| Next
| Previous.

Definition step (st : State) (e : Event) : State :=
  match e with
  | Select o => handleResponseChange st (currentQuestion st) (value o)
  | Next => handleNext st
  | Previous => handlePrevious st
  end.

Definition run (st : State) (evs : list Event) : State := fold_left step evs st.

(** Answering every question with "moderate difficulty" up to question
    30, which is left open. *)
Definition sample_session : list Event :=
  concat (repeat [Select ModerateDifficulty; Next] 29).

End DashForm.

(* ===================================================================== *)
(** * pages/quickdash-questionnaire.tsx: the running score *)
(* ===================================================================== *)

Module QuickDash.
Local Open Scope Q_scope.

(** [form.getValues()]: the eleven fields, each a number or undefined. *)
Definition Values : Type := list (option Z).

(** [calculateScore()] *)
Definition calculateScore (values : Values) : Q :=
  let scores := flat_map (fun v => match v with
                                   | Some n => [n]
                                   | None => []
                                   end) values in
  match scores with
  | [] => 0
  | _ :: _ =>
      let sum := fold_left (fun acc score => (acc + score)%Z) scores 0%Z in
      let avgScore := inject_Z sum / inject_Z (Z.of_nat (List.length scores)) in
      ((avgScore - 1) / 4) * 100
  end.

(** [currentScore > 0 && (...)]: whether the score panel is rendered. *)
Definition showsScore (values : Values) : bool :=
  negb (Qle_bool (calculateScore values) 0).

Inductive Category : Type := Minimal | Mild | Moderate | Severe.

(** The label under the score. *)
Definition category (currentScore : Q) : Category :=
  if Qle_bool currentScore 25 then Minimal
  else if Qle_bool currentScore 50 then Mild
  else if Qle_bool currentScore 75 then Moderate
  else Severe.

(** Three questions answered: 1, 3 and 5. *)
Definition sample_values : Values :=
  [Some 1%Z; None; Some 3%Z; Some 5%Z; None; None; None; None; None; None; None].

End QuickDash.

(* ===================================================================== *)
(** * pages/patient-motion-replay.tsx: the playback controls *)
(* ===================================================================== *)

Module Replay.

(** [isPlaying], [currentFrame] and whether [intervalRef.current] holds a
    running interval. *)
Record State : Type := mkState {
  isPlaying : bool;
  currentFrame : nat;
  interval : bool
}.

Definition initialState : State := mkState false 0 false.

Section Player.

(** [recordingData.length] *)
Variable totalFrames : nat.

Definition togglePlayback (st : State) : State :=
  if isPlaying st then mkState false (currentFrame st) false
  else mkState true (currentFrame st) true.

(** The interval callback: [prev >= totalFrames - 1] is a comparison of
    numbers, so it holds for every [prev] when there is no frame. *)
Definition tick (st : State) : State :=
  if interval st then
    if (Z.of_nat totalFrames - 1 <=? Z.of_nat (currentFrame st))%Z
    then mkState false (currentFrame st) false
    else mkState (isPlaying st) (currentFrame st + 1) (interval st)
  else st.

Definition resetPlayback (st : State) : State := mkState false 0 false.

Inductive Event : Type := Toggle | Tick | Reset.

Definition step (st : State) (e : Event) : State :=
  match e with
  | Toggle => togglePlayback st
  | Tick => tick st
  | Reset => resetPlayback st
  end.

Definition run (st : State) (evs : list Event) : State := fold_left step evs st.

End Player.

End Replay.

(* ##################################################################### *)
(** * Part II: the properties *)
(* ##################################################################### *)

(* ===================================================================== *)
(** * Properties of wrist_angle.py *)
(* ===================================================================== *)

Module WristAngleFacts.
Import WristAngle.
Local Open Scope R_scope.

(** ** Totality *)

Lemma np_div_pos (x n : R) : 0 < n -> np_div x n = Some (x / n).
Proof.
  intros Hn. unfold np_div.
  destruct (Req_dec_T n 0) as [E | _]; [lra | reflexivity].
Qed.

Lemma unit_defined (v : Vec3) : _unit v = Some (unit_vec v).
Proof.
  unfold _unit, unit_vec.
  destruct (Rlt_dec 0 (norm v)) as [Hn | Hn]; [| reflexivity].
  rewrite !np_div_pos by assumption. reflexivity.
Qed.

Lemma np_clip_bounds (x : R) : -1 <= np_clip x (-1) 1 <= 1.
Proof.
  unfold np_clip, Rmin, Rmax.
  destruct (Rle_dec x (-1)); destruct (Rle_dec _ 1); lra.
Qed.

Lemma np_clip_id (x : R) : -1 <= x <= 1 -> np_clip x (-1) 1 = x.
Proof.
  intros Hx. unfold np_clip, Rmin, Rmax.
  destruct (Rle_dec x (-1)); destruct (Rle_dec _ 1); lra.
Qed.

Lemma np_arccos_clip (x : R) :
  np_arccos (np_clip x (-1) 1) = Some (acos (np_clip x (-1) 1)).
Proof.
  pose proof (np_clip_bounds x) as [Hlo Hhi].
  unfold np_arccos.
  destruct (Rle_dec (-1) (np_clip x (-1) 1)); [| contradiction].
  destruct (Rle_dec (np_clip x (-1) 1) 1); [reflexivity | contradiction].
Qed.

Lemma signed_theta_defined (fr : Frame) :
  signed_theta fr = Some (theta_of fr * sign_raw_of fr * side_factor fr).
Proof.
  unfold signed_theta. rewrite !unit_defined. cbn [obind].
  rewrite np_arccos_clip. reflexivity.
Qed.

(** The moving median on five values with a window of three. *)
Example moving_median_3 :
  moving_median 3 [1; 5; 2; 8; 3] = [3; 2; 5; 3; 3].
Proof.
  unfold moving_median, moving_median_from. cbn -[Rle_dec Rplus Rdiv].
  unfold np_median, deque_append. cbn -[Rle_dec Rplus Rdiv].
  repeat (destruct (Rle_dec _ _); try lra; cbn -[Rle_dec Rplus Rdiv]).
  f_equal. lra.
Qed.

(** ** Angle magnitude *)

Lemma DEG_pos : 0 < DEG.
Proof. unfold DEG. apply Rdiv_lt_0_compat; [lra | apply PI_RGT_0]. Qed.

Lemma acos_deg_bound (x : R) : 0 <= acos x * DEG <= 180.
Proof.
  pose proof (acos_bound x) as [Hlo Hhi]. pose proof DEG_pos as Hd.
  split.
  - apply Rmult_le_pos; lra.
  - replace 180 with (PI * DEG).
    + apply Rmult_le_compat_r; lra.
    + unfold DEG. field. pose proof PI_RGT_0. lra.
Qed.

Lemma theta_bound (fr : Frame) : 0 <= theta_of fr <= 180.
Proof. unfold theta_of. apply acos_deg_bound. Qed.

Lemma np_sign_cases (x : R) : np_sign x = 1 \/ np_sign x = -1 \/ np_sign x = 0.
Proof.
  unfold np_sign. destruct (Rlt_dec 0 x); [auto |].
  destruct (Rlt_dec x 0); auto.
Qed.

Lemma side_factor_cases (fr : Frame) : side_factor fr = 1 \/ side_factor fr = -1.
Proof. unfold side_factor. destruct (Rlt_dec _ _); auto. Qed.

Lemma signed_bound (t s f : R) :
  0 <= t <= 180 -> (s = 1 \/ s = -1 \/ s = 0) -> (f = 1 \/ f = -1) ->
  -180 <= t * s * f <= 180.
Proof.
  intros Ht [-> | [-> | ->]] [-> | ->]; lra.
Qed.

(** ** Degenerate vectors *)

Lemma vsub_self (p : Vec3) : vsub p p = mkVec3 0 0 0.
Proof. unfold vsub. f_equal; ring. Qed.

Lemma unit_vec_zero : unit_vec (mkVec3 0 0 0) = mkVec3 0 0 0.
Proof.
  unfold unit_vec. destruct (Rlt_dec 0 (norm (mkVec3 0 0 0))) as [H | _]; [| reflexivity].
  exfalso. unfold norm, vdot in H. cbn in H.
  replace (0 * 0 + 0 * 0 + 0 * 0) with 0 in H by ring.
  rewrite sqrt_0 in H. lra.
Qed.

Lemma acos_clip_zero : acos (np_clip 0 (-1) 1) * DEG = 90.
Proof.
  rewrite np_clip_id by lra. rewrite acos_0. unfold DEG.
  field. pose proof PI_RGT_0. lra.
Qed.

Lemma np_sign_bias : np_sign (0 + 1e-9) = 1.
Proof. unfold np_sign. destruct (Rlt_dec 0 (0 + 1e-9)); [reflexivity | lra]. Qed.

Lemma signed_theta_zero_forearm (p h : Vec3) :
  signed_theta (mkFrame p p h) = Some 90.
Proof.
  rewrite signed_theta_defined.
  unfold theta_of, sign_raw_of, side_factor. cbn [elbow wrist middle_mcp].
  rewrite vsub_self, unit_vec_zero.
  set (u := unit_vec (vsub h p)).
  replace (vdot (mkVec3 0 0 0) u) with 0 by (unfold vdot; cbn; ring).
  replace (vz (vcross (mkVec3 0 0 0) u)) with 0 by (unfold vcross; cbn; ring).
  rewrite acos_clip_zero, np_sign_bias.
  destruct (Rlt_dec (vx p) (vx p)); [lra |]. f_equal. ring.
Qed.

Lemma signed_theta_zero_hand (e w : Vec3) :
  signed_theta (mkFrame e w w) = Some (90 * side_factor (mkFrame e w w)).
Proof.
  rewrite signed_theta_defined.
  unfold theta_of, sign_raw_of. cbn [elbow wrist middle_mcp].
  rewrite vsub_self, unit_vec_zero.
  set (u := unit_vec (vsub w e)).
  replace (vdot u (mkVec3 0 0 0)) with 0 by (unfold vdot; cbn; ring).
  replace (vz (vcross u (mkVec3 0 0 0))) with 0 by (unfold vcross; cbn; ring).
  rewrite acos_clip_zero, np_sign_bias. f_equal. ring.
Qed.

Lemma signed_thetas_defined (frames : list Frame) :
  exists l, mapM signed_theta frames = Some l /\ length l = length frames.
Proof.
  induction frames as [| fr frames IH].
  - exists []. split; reflexivity.
  - destruct IH as [l [Hl Hlen]]. cbn [mapM].
    rewrite signed_theta_defined, Hl. cbn [obind].
    eexists. split; [reflexivity |]. cbn. now rewrite Hlen.
Qed.

(** ** One angle per frame *)

Lemma set_nth_length (i : nat) (v : R) (out : list R) :
  length (set_nth i v out) = length out.
Proof.
  revert i. induction out as [| x out IH]; intros i; destruct i; cbn;
    try reflexivity.
  now rewrite IH.
Qed.

Lemma median_loop_length (k half : nat) (vals : list R) (i : nat) (buf out : list R) :
  length (median_loop k half vals i buf out) = length out.
Proof.
  revert i buf out. induction vals as [| val rest IH]; intros i buf out; [reflexivity |].
  cbn [median_loop]. rewrite IH.
  destruct (i <? half)%nat; apply set_nth_length.
Qed.

Lemma median_tail_length (half n : nat) (out : list R) :
  length (median_tail half n out) = length out.
Proof.
  unfold median_tail. generalize (seq 0 half). intros idx. revert out.
  induction idx as [| i idx IH]; intros out; [reflexivity |].
  cbn [fold_left]. rewrite IH. apply set_nth_length.
Qed.

Lemma moving_median_from_length (out0 : list R) (median_k : nat) (signed : list R) :
  length out0 = length signed ->
  length (moving_median_from out0 median_k signed) = length signed.
Proof.
  intros H0. unfold moving_median_from.
  destruct ((1 <? median_k)%nat && (median_k <=? length signed)%nat); [| reflexivity].
  now rewrite median_tail_length, median_loop_length.
Qed.

Lemma moving_median_length (median_k : nat) (signed : list R) :
  length (moving_median median_k signed) = length signed.
Proof.
  unfold moving_median. apply moving_median_from_length. apply repeat_length.
Qed.

(** ** The shapes of [frame_xyz] *)

Lemma wrist_angle_batch (fr : Frame) (frames : list Frame) (median_k : nat) :
  wrist_angle (Batch (fr :: frames)) median_k =
  (signed <- mapM signed_theta (fr :: frames) ;;
   Some (moving_median median_k signed)).
Proof. reflexivity. Qed.

Lemma wrist_angle_defined (fr : Frame) (frames : list Frame) (median_k : nat) :
  exists l, wrist_angle (Batch (fr :: frames)) median_k = Some l /\
            length l = S (length frames).
Proof.
  rewrite wrist_angle_batch.
  destruct (signed_thetas_defined (fr :: frames)) as [l [-> Hlen]].
  cbn [obind]. eexists. split; [reflexivity |].
  now rewrite moving_median_length.
Qed.

(** C8. On every frame, degenerate ones included, the angle computation of
    one row yields a defined angle: no division by zero and no arccos
    outside its domain is ever reached, and the result lies in [-180, 180].
    With a zero-length forearm (elbow and wrist coincide) the result is 90,
    with a zero-length hand vector (hand reference and wrist coincide) it
    is 90 times the side factor.  On every batch of shape (N, 3, 3) with at
    least one frame, with or without the moving median, [wrist_angle]
    returns one angle per frame.  On the single frame of shape (3, 3) that
    the docstring allows, [wrist_angle] raises for every frame, degenerate
    or not, and it raises on the batch without frames. *)
Theorem wrist_angle_defined_on_batches_only :
  forall (fr : Frame) (frames : list Frame) (median_k : nat),
    (exists a, signed_theta fr = Some a /\ -180 <= a <= 180) /\
    signed_theta (mkFrame (wrist fr) (wrist fr) (middle_mcp fr)) = Some 90 /\
    signed_theta (mkFrame (elbow fr) (wrist fr) (wrist fr))
      = Some (90 * side_factor (mkFrame (elbow fr) (wrist fr) (wrist fr))) /\
    (exists l, wrist_angle (Batch (fr :: frames)) median_k = Some l /\
               length l = S (length frames)) /\
    wrist_angle (Single fr) median_k = None /\
    wrist_angle (Batch []) median_k = None.
Proof.
  intros fr frames median_k. repeat split.
  - exists (theta_of fr * sign_raw_of fr * side_factor fr). split.
    + apply signed_theta_defined.
    + apply signed_bound.
      * apply theta_bound.
      * unfold sign_raw_of. apply np_sign_cases.
      * apply side_factor_cases.
  - apply signed_theta_zero_forearm.
  - apply signed_theta_zero_hand.
  - apply wrist_angle_defined.
Qed.

(** ** The unit-test frames *)

Lemma acos_decreasing (x y : R) : -1 <= x -> x < y -> y <= 1 -> acos y < acos x.
Proof.
  intros Hx Hxy Hy.
  pose proof (acos_bound x) as [? ?]. pose proof (acos_bound y) as [? ?].
  apply cos_decreasing_0; try assumption.
  rewrite !cos_acos by lra. exact Hxy.
Qed.

Lemma norm_pos (v : Vec3) : 0 < vdot v v -> 0 < norm v.
Proof. intros H. unfold norm. now apply sqrt_lt_R0. Qed.

Lemma unit_vec_scaled (v : Vec3) :
  0 < vdot v v ->
  unit_vec v = mkVec3 (vx v / norm v) (vy v / norm v) (vz v / norm v).
Proof.
  intros H. unfold unit_vec.
  destruct (Rlt_dec 0 (norm v)) as [_ | Hn]; [reflexivity |].
  exfalso. apply Hn. now apply norm_pos.
Qed.

Lemma norm_mult (a b : Vec3) :
  0 < vdot a a -> 0 < vdot b b -> norm a * norm b = sqrt (vdot a a * vdot b b).
Proof. intros Ha Hb. unfold norm. rewrite sqrt_mult; lra. Qed.

Lemma dot_unit (a b : Vec3) :
  0 < vdot a a -> 0 < vdot b b ->
  vdot (unit_vec a) (unit_vec b) = vdot a b / sqrt (vdot a a * vdot b b).
Proof.
  intros Ha Hb. rewrite <- norm_mult by assumption.
  rewrite !unit_vec_scaled by assumption.
  pose proof (norm_pos a Ha). pose proof (norm_pos b Hb).
  unfold vdot at 1. cbn [vx vy vz]. unfold vdot at 1. field. lra.
Qed.

Lemma crossz_unit (a b : Vec3) :
  0 < vdot a a -> 0 < vdot b b ->
  vz (vcross (unit_vec a) (unit_vec b))
  = vz (vcross a b) / sqrt (vdot a a * vdot b b).
Proof.
  intros Ha Hb. rewrite <- norm_mult by assumption.
  rewrite !unit_vec_scaled by assumption.
  pose proof (norm_pos a Ha). pose proof (norm_pos b Hb).
  unfold vcross. cbn [vx vy vz]. field. lra.
Qed.

(** Numerical brackets: pi from Machin's series, the sine from its Taylor
    polynomials. *)
Lemma PI_bracket : 3.135 < PI < 3.147.
Proof.
  pose proof (PI_2_3_7_ineq 0) as [H0 _]. pose proof (PI_2_3_7_ineq 1) as [_ H1].
  unfold sum_f_R0, tg_alt, PI_2_3_7_tg, Ratan_seq in H0, H1.
  simpl in H0, H1. lra.
Qed.

Lemma sin_taylor (a : R) :
  0 <= a -> a <= PI -> a - a ^ 3 / 6 <= sin a <= a - a ^ 3 / 6 + a ^ 5 / 120.
Proof.
  intros H0 H1. pose proof (sin_bound a 0 H0 H1) as [Hl Hu].
  unfold sin_approx, sum_f_R0, sin_term in Hl, Hu.
  simpl in Hl, Hu. lra.
Qed.

Lemma rad_deg (d : R) : rad d * DEG = d.
Proof. unfold rad, DEG. field. pose proof PI_RGT_0. lra. Qed.

Lemma sin_19_5 : sin (rad 19.5) < 0.335.
Proof.
  pose proof PI_bracket as [Plo Phi].
  assert (Hlo : 0.3396 <= rad 19.5) by (unfold rad; lra).
  assert (Hhi : rad 19.5 <= 0.341) by (unfold rad; lra).
  destruct (sin_taylor (rad 19.5)) as [_ Hu]; [lra | lra |].
  assert (H3 : 0.3396 ^ 3 <= rad 19.5 ^ 3) by (apply pow_incr; lra).
  assert (H5 : rad 19.5 ^ 5 <= 0.341 ^ 5) by (apply pow_incr; lra).
  simpl in H3, H5. simpl in Hu. lra.
Qed.

Lemma sin_20_5 : 0.349 < sin (rad 20.5).
Proof.
  pose proof PI_bracket as [Plo Phi].
  assert (Hlo : 0.357 <= rad 20.5) by (unfold rad; lra).
  assert (Hhi : rad 20.5 <= 0.3585) by (unfold rad; lra).
  destruct (sin_taylor (rad 20.5)) as [Hl _]; [lra | lra |].
  assert (H3 : rad 20.5 ^ 3 <= 0.3585 ^ 3) by (apply pow_incr; lra).
  simpl in H3. simpl in Hl. lra.
Qed.

Lemma acos_sin (d : R) : 0 <= d <= 90 -> acos (sin (rad d)) * DEG = 90 - d.
Proof.
  intros Hd. pose proof PI_RGT_0 as Hpi.
  rewrite <- cos_shift. rewrite acos_cos.
  - replace (PI / 2 - rad d) with (rad (90 - d)) by (unfold rad; field).
    apply rad_deg.
  - unfold rad. split; nra.
Qed.

(** The raw angle for a cosine between 0.335 and 0.349, and for its
    opposite. *)
Lemma theta_acute (c : R) :
  0.335 <= c <= 0.349 -> 69.5 < acos (np_clip c (-1) 1) * DEG < 70.5.
Proof.
  intros [Hlo Hhi]. rewrite np_clip_id by lra.
  pose proof DEG_pos as Hd.
  pose proof sin_19_5 as S1. pose proof sin_20_5 as S2.
  pose proof (SIN_bound (rad 19.5)) as [B1 _].
  pose proof (SIN_bound (rad 20.5)) as [_ B2].
  assert (H1 : acos c < acos (sin (rad 19.5))) by (apply acos_decreasing; lra).
  assert (H2 : acos (sin (rad 20.5)) < acos c) by (apply acos_decreasing; lra).
  apply (Rmult_lt_compat_r DEG _ _ Hd) in H1, H2.
  rewrite acos_sin in H1, H2 by lra. lra.
Qed.

Lemma theta_obtuse (c : R) :
  0.335 <= - c <= 0.349 -> 109.5 < acos (np_clip c (-1) 1) * DEG < 110.5.
Proof.
  intros Hc. rewrite np_clip_id by lra.
  pose proof (theta_acute (- c) Hc) as H. rewrite np_clip_id in H by lra.
  replace c with (- - c) by ring. rewrite acos_opp.
  replace ((PI - acos (- c)) * DEG) with (180 - acos (- c) * DEG).
  - lra.
  - unfold DEG. field. pose proof PI_RGT_0. lra.
Qed.

(** The cosine of the test frames, in absolute value. *)
Lemma test_cosine : 0.335 <= 0.012 / sqrt (0.05 * 0.0254) <= 0.349.
Proof.
  assert (Hlo : 0.0344 < sqrt (0.05 * 0.0254)).
  { rewrite <- (sqrt_square 0.0344) by lra. apply sqrt_lt_1; lra. }
  assert (Hhi : sqrt (0.05 * 0.0254) < 0.0358).
  { rewrite <- (sqrt_square 0.0358) at 1 by lra. apply sqrt_lt_1; lra. }
  set (s := sqrt (0.05 * 0.0254)) in *.
  split.
  - apply Rmult_le_reg_r with s; [lra |].
    unfold Rdiv. rewrite Rmult_assoc, Rinv_l by lra. lra.
  - apply Rmult_le_reg_r with s; [lra |].
    unfold Rdiv. rewrite Rmult_assoc, Rinv_l by lra. lra.
Qed.

Lemma np_sign_pos (x : R) : 0 < x -> np_sign x = 1.
Proof. intros H. unfold np_sign. destruct (Rlt_dec 0 x); [reflexivity | contradiction]. Qed.

Lemma np_sign_neg (x : R) : x < 0 -> np_sign x = -1.
Proof.
  intros H. unfold np_sign.
  destruct (Rlt_dec 0 x); [lra |]. destruct (Rlt_dec x 0); [reflexivity | contradiction].
Qed.

(** The bias [1e-9] does not change the sign of a cross product as large
    as the ones of the test frames. *)
Lemma sign_biased (cz p : R) :
  0 < p -> p < 1 -> cz <> 0 -> 1e-6 <= Rabs cz ->
  np_sign (cz / sqrt p + 1e-9) = np_sign cz.
Proof.
  intros Hp Hp1 Hcz Habs.
  pose proof (sqrt_lt_R0 p Hp) as Hs.
  assert (Hs1 : sqrt p < 1) by (rewrite <- sqrt_1; apply sqrt_lt_1; lra).
  assert (Hinv : 1 < / sqrt p).
  { rewrite <- Rinv_1 at 1. apply Rinv_lt_contravar; lra. }
  destruct (Rlt_dec 0 cz) as [Hpos | Hneg].
  - rewrite (np_sign_pos cz Hpos). apply np_sign_pos.
    assert (0 < cz / sqrt p) by (apply Rdiv_lt_0_compat; lra). lra.
  - assert (Hlt : cz < 0) by lra.
    rewrite (np_sign_neg cz Hlt). apply np_sign_neg.
    rewrite Rabs_left in Habs by assumption.
    unfold Rdiv. nra.
Qed.

Lemma theta_of_unfold (fr : Frame) :
  0 < vdot (forearm_of fr) (forearm_of fr) ->
  0 < vdot (handvec_of fr) (handvec_of fr) ->
  theta_of fr
  = acos (np_clip (vdot (forearm_of fr) (handvec_of fr)
                   / sqrt (vdot (forearm_of fr) (forearm_of fr)
                           * vdot (handvec_of fr) (handvec_of fr))) (-1) 1) * DEG.
Proof.
  intros Hf Hh. unfold theta_of. fold (forearm_of fr) (handvec_of fr).
  now rewrite dot_unit.
Qed.

Lemma sign_raw_of_unfold (fr : Frame) :
  0 < vdot (forearm_of fr) (forearm_of fr) ->
  0 < vdot (handvec_of fr) (handvec_of fr) ->
  sign_raw_of fr
  = np_sign (vz (vcross (forearm_of fr) (handvec_of fr))
             / sqrt (vdot (forearm_of fr) (forearm_of fr)
                     * vdot (handvec_of fr) (handvec_of fr)) + 1e-9).
Proof.
  intros Hf Hh. unfold sign_raw_of. fold (forearm_of fr) (handvec_of fr).
  now rewrite crossz_unit.
Qed.

(** The signed angle of a frame from the four scalars that decide it. *)
Lemma signed_theta_eval (fr : Frame) (ff hh d cz : R) :
  vdot (forearm_of fr) (forearm_of fr) = ff ->
  vdot (handvec_of fr) (handvec_of fr) = hh ->
  vdot (forearm_of fr) (handvec_of fr) = d ->
  vz (vcross (forearm_of fr) (handvec_of fr)) = cz ->
  0 < ff -> 0 < hh -> ff * hh < 1 -> cz <> 0 -> 1e-6 <= Rabs cz ->
  signed_theta fr
  = Some (acos (np_clip (d / sqrt (ff * hh)) (-1) 1) * DEG
          * np_sign cz * side_factor fr).
Proof.
  intros Hff Hhh Hd Hcz Hf Hh Hp Hnz Habs.
  rewrite signed_theta_defined.
  rewrite theta_of_unfold, sign_raw_of_unfold by lra.
  rewrite Hff, Hhh, Hd, Hcz.
  rewrite sign_biased; try assumption; [reflexivity | nra].
Qed.

Lemma right_flexion_angle :
  exists t, signed_theta (mkFrame R_elbow R_wrist R_hand) = Some (- t)
            /\ 109.5 < t < 110.5.
Proof.
  exists (acos (np_clip (-0.012 / sqrt (0.05 * 0.0254)) (-1) 1) * DEG). split.
  - rewrite (signed_theta_eval _ 0.05 0.0254 (-0.012) (-0.001));
      try (unfold forearm_of, handvec_of, vdot, vcross, vsub; cbn; lra).
    + rewrite np_sign_neg by lra. unfold side_factor. cbn.
      destruct (Rlt_dec 0.2 0.1); [lra |]. f_equal. ring.
    + rewrite Rabs_left by lra. lra.
  - apply theta_obtuse. pose proof test_cosine as H.
    unfold Rdiv in *. lra.
Qed.

Lemma right_extension_angle :
  exists t, signed_theta (mkFrame R_elbow R_wrist R_hand2) = Some t
            /\ 69.5 < t < 70.5.
Proof.
  exists (acos (np_clip (0.012 / sqrt (0.05 * 0.0254)) (-1) 1) * DEG). split.
  - rewrite (signed_theta_eval _ 0.05 0.0254 0.012 0.001);
      try (unfold forearm_of, handvec_of, vdot, vcross, vsub; cbn; lra).
    + rewrite np_sign_pos by lra. unfold side_factor. cbn.
      destruct (Rlt_dec 0.2 0.1); [lra |]. f_equal. ring.
    + rewrite Rabs_right by lra. lra.
  - apply theta_acute. exact test_cosine.
Qed.

Lemma left_flexion_angle :
  signed_theta (mkFrame L_elbow L_wrist L_hand)
  = signed_theta (mkFrame R_elbow R_wrist R_hand).
Proof.
  rewrite (signed_theta_eval (mkFrame L_elbow L_wrist L_hand)
             0.05 0.0254 (-0.012) 0.001);
    try (unfold forearm_of, handvec_of, vdot, vcross, vsub; cbn; lra).
  - rewrite (signed_theta_eval (mkFrame R_elbow R_wrist R_hand)
               0.05 0.0254 (-0.012) (-0.001));
      try (unfold forearm_of, handvec_of, vdot, vcross, vsub; cbn; lra).
    + rewrite np_sign_pos, np_sign_neg by lra. unfold side_factor. cbn.
      destruct (Rlt_dec (-0.2) (-0.1)); [| lra].
      destruct (Rlt_dec 0.2 0.1); [lra |]. f_equal. ring.
    + rewrite Rabs_left by lra. lra.
  - rewrite Rabs_right by lra. lra.
Qed.

Lemma rounds_to_range (a : R) (n : Z) :
  rounds_to a n <-> IZR n - 1 / 2 <= a <= IZR n + 1 / 2.
Proof.
  unfold rounds_to. split.
  - intros H. destruct (Rcase_abs (a - IZR n)) as [Hneg | Hpos].
    + rewrite Rabs_left in H by assumption. lra.
    + rewrite Rabs_right in H by assumption. lra.
  - intros [Hlo Hhi]. apply Rabs_le. lra.
Qed.

(** C1. On the three frames of the script's own unit test the signed
    angles round to -110, +70 and -110 degrees: the right arm with the
    first hand point gives an angle between -110.5 and -109.5 (the test
    expects +60), with the second hand point one between +69.5 and +70.5
    (the test expects -30), and the mirrored left arm gives the same value
    as the first frame (the test expects +60).  The script's assertion
    fails. *)
Theorem wrist_angle_unit_test :
  exists a1 a2 a3 : R,
    wrist_angle (Batch test_frames) 1 = Some [a1; a2; a3] /\
    -110.5 < a1 < -109.5 /\ 69.5 < a2 < 70.5 /\ a3 = a1 /\
    all_round_to [a1; a2; a3] [-110; 70; -110]%Z /\
    ~ rounds_to a1 60 /\ ~ rounds_to a2 (-30) /\ ~ rounds_to a3 60 /\
    ~ all_round_to [a1; a2; a3] expected.
Proof.
  destruct right_flexion_angle as [t1 [E1 B1]].
  destruct right_extension_angle as [t2 [E2 B2]].
  pose proof left_flexion_angle as E3. rewrite E1 in E3.
  exists (- t1), t2, (- t1).
  assert (N1 : ~ rounds_to (- t1) 60).
  { intros H. apply rounds_to_range in H. lra. }
  assert (N2 : ~ rounds_to t2 (-30)).
  { intros H. apply rounds_to_range in H. lra. }
  assert (R1 : rounds_to (- t1) (-110)) by (apply rounds_to_range; lra).
  assert (R2 : rounds_to t2 70) by (apply rounds_to_range; lra).
  split; [| split; [| split; [| split; [| split; [| split; [| split; [| split]]]]]]];
    try assumption; try lra; try reflexivity.
  - unfold wrist_angle, test_frames. cbn [mapM].
    rewrite E1, E2, E3. reflexivity.
  - cbn. tauto.
  - cbn. intros [H _]. exact (N1 H).
Qed.

End WristAngleFacts.

(* ===================================================================== *)
(** * Properties of the joint angle calculator *)
(* ===================================================================== *)

Module JointAnglesFacts.
Import WristAngle WristAngleFacts JointAngles.
Local Open Scope R_scope.

Section CalculatorFacts.

Variable unit : Vec3 -> Vec3.

Local Abbreviation joint_angle := (JointAngles.joint_angle unit).
Local Abbreviation angle_at := (JointAngles.angle_at unit).
Local Abbreviation calculateFingerROM := (JointAngles.calculateFingerROM unit).

Lemma joint_angle_defined (v1 v2 : Vec3) :
  exists a, joint_angle v1 v2 = Some a /\ 0 <= a <= 180.
Proof.
  unfold joint_angle. rewrite np_arccos_clip. cbn [obind].
  eexists. split; [reflexivity | apply acos_deg_bound].
Qed.

Lemma angle_at_defined (c : Convention) (p j n : Vec3) :
  exists a, angle_at c p j n = Some a /\ 0 <= a <= 180.
Proof.
  unfold angle_at. destruct (bone_vectors c p j n) as [v1 v2].
  apply joint_angle_defined.
Qed.

Lemma calculateFingerROM_bounds (c : Convention) (f : Finger) :
  exists r, calculateFingerROM c f = Some r /\
    in_range 0 180 (mcpAngle r) /\ in_range 0 180 (pipAngle r) /\
    in_range 0 180 (dipAngle r) /\ in_range 0 540 (totalActiveRom r).
Proof.
  unfold calculateFingerROM.
  destruct (angle_at_defined c (f_wrist f) (f_mcp f) (f_pip f)) as [m [-> Hm]].
  destruct (angle_at_defined c (f_mcp f) (f_pip f) (f_dip f)) as [p [-> Hp]].
  destruct (angle_at_defined c (f_pip f) (f_dip f) (f_tip f)) as [d [-> Hd]].
  cbn [obind]. eexists. split; [reflexivity |]. cbn.
  unfold in_range. rewrite !Rabs_right by lra. lra.
Qed.

End CalculatorFacts.

Lemma unit_vec_x_pos : unit_vec (mkVec3 1 0 0) = mkVec3 1 0 0.
Proof.
  rewrite unit_vec_scaled by (unfold vdot; cbn; lra).
  unfold norm, vdot. cbn.
  replace (1 * 1 + 0 * 0 + 0 * 0) with 1 by ring. rewrite sqrt_1.
  f_equal; field.
Qed.

Lemma unit_vec_x_neg : unit_vec (mkVec3 (-1) 0 0) = mkVec3 (-1) 0 0.
Proof.
  rewrite unit_vec_scaled by (unfold vdot; cbn; lra).
  unfold norm, vdot. cbn.
  replace (-1 * -1 + 0 * 0 + 0 * 0) with 1 by ring. rewrite sqrt_1.
  f_equal; field.
Qed.

Lemma acos_minus_one_deg : acos (np_clip (-1) (-1) 1) * DEG = 180.
Proof.
  rewrite np_clip_id by lra.
  replace (-1) with (- (1)) by ring. rewrite acos_opp, acos_1.
  unfold DEG. field. pose proof PI_RGT_0. lra.
Qed.

Lemma joint_angle_opposite :
  joint_angle unit_vec (mkVec3 (-1) 0 0) (mkVec3 1 0 0) = Some 180.
Proof.
  unfold joint_angle. rewrite np_arccos_clip. cbn [obind].
  rewrite unit_vec_x_pos, unit_vec_x_neg.
  replace (vdot (mkVec3 (-1) 0 0) (mkVec3 1 0 0)) with (-1)
    by (unfold vdot; cbn; ring).
  now rewrite acos_minus_one_deg.
Qed.

Lemma vsub_x (a b : R) : vsub (mkVec3 a 0 0) (mkVec3 b 0 0) = mkVec3 (a - b) 0 0.
Proof. unfold vsub. cbn. f_equal; ring. Qed.

Lemma angle_at_straight (a : R) :
  angle_at unit_vec ExtendedIs180 (mkVec3 (a - 1) 0 0) (mkVec3 a 0 0) (mkVec3 (a + 1) 0 0)
  = Some 180.
Proof.
  unfold angle_at, bone_vectors. rewrite !vsub_x.
  replace (a - 1 - a) with (-1) by ring. replace (a + 1 - a) with 1 by ring.
  apply joint_angle_opposite.
Qed.

Lemma straight_finger_rom :
  calculateFingerROM unit_vec ExtendedIs180 straight_finger
  = Some (mkJointAngles 180 180 180 540).
Proof.
  unfold calculateFingerROM, straight_finger. cbn [f_wrist f_mcp f_pip f_dip f_tip].
  pose proof (angle_at_straight 1) as H1.
  pose proof (angle_at_straight 2) as H2.
  pose proof (angle_at_straight 3) as H3.
  replace (1 - 1) with 0 in H1 by ring. replace (1 + 1) with 2 in H1 by ring.
  replace (2 - 1) with 1 in H2 by ring. replace (2 + 1) with 3 in H2 by ring.
  replace (3 - 1) with 2 in H3 by ring. replace (3 + 1) with 4 in H3 by ring.
  rewrite H1, H2, H3. cbn [obind]. f_equal. f_equal.
  rewrite Rabs_right by lra. ring.
Qed.

Lemma folded_finger_rom :
  calculateFingerROM unit_vec ExtendedIs0 folded_finger
  = Some (mkJointAngles 180 180 180 540).
Proof.
  assert (Hout : angle_at unit_vec ExtendedIs0 (mkVec3 0 0 0) (mkVec3 1 0 0) (mkVec3 0 0 0)
                 = Some 180).
  { unfold angle_at, bone_vectors, joint_angle. rewrite np_arccos_clip. cbn [obind].
    rewrite !vsub_x.
    replace (1 - 0) with 1 by ring. replace (0 - 1) with (-1) by ring.
    rewrite unit_vec_x_pos, unit_vec_x_neg.
    replace (vdot (mkVec3 1 0 0) (mkVec3 (-1) 0 0)) with (-1)
      by (unfold vdot; cbn; ring).
    now rewrite acos_minus_one_deg. }
  assert (Hin : angle_at unit_vec ExtendedIs0 (mkVec3 1 0 0) (mkVec3 0 0 0) (mkVec3 1 0 0)
                = Some 180).
  { unfold angle_at, bone_vectors. rewrite !vsub_x.
    replace (0 - 1) with (-1) by ring. replace (1 - 0) with 1 by ring.
    apply joint_angle_opposite. }
  unfold calculateFingerROM, folded_finger. cbn [f_wrist f_mcp f_pip f_dip f_tip].
  rewrite Hout, Hin. cbn [obind]. f_equal. f_equal.
  rewrite Rabs_right by lra. ring.
Qed.

(** C6, as stated, fails: under the convention the specification names
    (180 degrees = fully extended) a straight finger has three joint angles
    of 180 degrees and a total active motion of 540 degrees, above 300;
    under the other convention a finger folded flat on itself has the
    same. *)
Lemma tam_exceeds_300 :
  (exists r, calculateFingerROM unit_vec ExtendedIs180 straight_finger = Some r /\
             totalActiveRom r = 540 /\ ~ in_range 0 300 (totalActiveRom r)) /\
  (exists r, calculateFingerROM unit_vec ExtendedIs0 folded_finger = Some r /\
             totalActiveRom r = 540 /\ ~ in_range 0 300 (totalActiveRom r)).
Proof.
  split; eexists; (split; [first [apply straight_finger_rom | apply folded_finger_rom] |]);
    cbn; (split; [reflexivity | unfold in_range; lra]).
Qed.

(** C6 (amended). For every frame and every finger, whatever the
    normalisation and the zero-point convention, the three joint angles are
    defined and lie in [0, 180], the raw angle of the wrist algorithm lies
    in [0, 180], and the per-finger total active motion lies in
    [0, 540]. *)
Theorem joint_angles_in_range :
  forall (unit : Vec3 -> Vec3) (c : Convention) (f : Finger) (fr : Frame),
    (exists r, calculateFingerROM unit c f = Some r /\
       in_range 0 180 (mcpAngle r) /\ in_range 0 180 (pipAngle r) /\
       in_range 0 180 (dipAngle r) /\ in_range 0 540 (totalActiveRom r)) /\
    in_range 0 180 (theta_of fr).
Proof.
  intros unit c f fr. split.
  - apply calculateFingerROM_bounds.
  - apply theta_bound.
Qed.

End JointAnglesFacts.

(* ===================================================================== *)
(** * Properties of the JavaScript operations *)
(* ===================================================================== *)

Module JsFacts.
Import Js.
Local Open Scope Q_scope.

Lemma Math_max_l (a b : Q) : a <= Math_max a b.
Proof.
  unfold Math_max. destruct (Qle_bool a b) eqn:E.
  - now apply Qle_bool_iff.
  - apply Qle_refl.
Qed.

Lemma Math_max_r (a b : Q) : b <= Math_max a b.
Proof.
  unfold Math_max. destruct (Qle_bool a b) eqn:E.
  - apply Qle_refl.
  - apply Qlt_le_weak. apply Qnot_le_lt. intros H.
    apply Qle_bool_iff in H. congruence.
Qed.

Lemma truthy_false (q : Q) : truthy q = false -> q == 0.
Proof.
  unfold truthy. intros H. apply negb_false_iff in H. now apply Qeq_bool_iff.
Qed.

Lemma or_zero_ge (x : option Q) : ole x (Some (or_zero x)).
Proof.
  destruct x as [q |]; cbn; [| exact I].
  destruct (truthy q) eqn:E.
  - apply Qle_refl.
  - apply truthy_false in E. rewrite E. apply Qle_refl.
Qed.

Lemma ole_refl (a : option Q) : ole a a.
Proof. destruct a; cbn; [apply Qle_refl | exact I]. Qed.

Lemma ole_trans (a b c : option Q) : ole a b -> ole b c -> ole a c.
Proof.
  destruct a, b, c; cbn; try tauto. apply Qle_trans.
Qed.

(** A maximum folded as [Math.max(x || 0, v)] never drops below [x]. *)
Lemma ole_max_fold (x : option Q) (v : Q) : ole x (Some (Math_max (or_zero x) v)).
Proof.
  eapply ole_trans; [apply or_zero_ge |]. cbn. apply Math_max_l.
Qed.

End JsFacts.

(* ===================================================================== *)
(** * Properties of the Kapandji scorer *)
(* ===================================================================== *)

Module KapandjiFacts.
Import Js Kapandji.
Local Open Scope Q_scope.

Section ScorerFacts.

Variable threshold : Q.
Variable thumbTip : FrameLandmarks -> option Landmark.
Variable ladder : list (FrameLandmarks -> option Landmark).

Local Abbreviation frameRung := (Kapandji.frameRung threshold thumbTip ladder).
Local Abbreviation foldScore := (Kapandji.foldScore threshold thumbTip ladder).
Local Abbreviation calculateMaxKapandjiScore :=
  (Kapandji.calculateMaxKapandjiScore threshold thumbTip ladder).

Lemma ratchet_max (s r : nat) : ratchet s r = Nat.max s r.
Proof.
  unfold ratchet. destruct (s <? r)%nat eqn:E.
  - apply Nat.ltb_lt in E. lia.
  - apply Nat.ltb_ge in E. lia.
Qed.

Lemma foldScore_max (frames : list FrameLandmarks) (start : nat) :
  foldScore start frames = Nat.max start (list_max (map frameRung frames)).
Proof.
  revert start. induction frames as [| f frames IH]; intros start.
  - unfold foldScore. cbn [fold_left map]. change (list_max []) with 0%nat. lia.
  - unfold foldScore in *. cbn [fold_left map].
    rewrite IH, ratchet_max.
    change (list_max (frameRung f :: map frameRung frames))
      with (Nat.max (frameRung f) (list_max (map frameRung frames))).
    lia.
Qed.

Lemma score_is_list_max (frames : list FrameLandmarks) :
  calculateMaxKapandjiScore frames = list_max (map frameRung frames).
Proof.
  change (foldScore 0 frames = list_max (map frameRung frames)).
  rewrite foldScore_max. lia.
Qed.

Lemma list_max_attained (l : list nat) :
  l = [] \/ In (list_max l) l.
Proof.
  induction l as [| a l IH]; [now left | right].
  change (list_max (a :: l)) with (Nat.max a (list_max l)).
  destruct (Nat.max_spec a (list_max l)) as [[_ E] | [_ E]].
  - rewrite E. destruct IH as [-> | IH].
    + cbn in *. left. lia.
    + now right.
  - rewrite E. now left.
Qed.

End ScorerFacts.

(** C3. The session Kapandji score is the maximum of the per-frame rungs:
    it equals the list maximum, it bounds the rung of every frame, some
    frame attains it (unless there is no frame), and appending frames
    never lowers it. *)
Theorem kapandji_session_score_is_max :
  forall (threshold : Q) (thumbTip : FrameLandmarks -> option Landmark)
         (ladder : list (FrameLandmarks -> option Landmark))
         (frames more : list FrameLandmarks),
    let rung := frameRung threshold thumbTip ladder in
    let score := calculateMaxKapandjiScore threshold thumbTip ladder in
    score frames = list_max (map rung frames) /\
    Forall (fun lms => (rung lms <= score frames)%nat) frames /\
    (frames = [] \/ Exists (fun lms => rung lms = score frames) frames) /\
    (score frames <= score (frames ++ more))%nat.
Proof.
  intros threshold thumbTip ladder frames more rung score.
  subst rung score. repeat split.
  - apply score_is_list_max.
  - rewrite score_is_list_max. apply Forall_forall. intros lms Hin.
    pose proof (proj1 (list_max_le (map (frameRung threshold thumbTip ladder) frames) _)
                  (Nat.le_refl _)) as Hall.
    rewrite Forall_forall in Hall. apply Hall. now apply in_map.
  - destruct frames as [| f frames]; [now left | right].
    rewrite score_is_list_max.
    destruct (list_max_attained (map (frameRung threshold thumbTip ladder) (f :: frames)))
      as [E | Hin]; [discriminate |].
    apply in_map_iff in Hin. destruct Hin as [lms [E Hin]].
    apply Exists_exists. exists lms. split; [assumption | exact E].
  - rewrite !score_is_list_max, map_app, list_max_app. lia.
Qed.

End KapandjiFacts.

(* ===================================================================== *)
(** * Properties of the completion endpoint *)
(* ===================================================================== *)

Module CompleteFacts.
Import Js JsFacts Complete.
Import String.
Local Open Scope Q_scope.

(** ** The running maxima only grow *)

Lemma foldRomData_mono (m : RomMaxima) (rd : RomData) : le_rom m (foldRomData m rd).
Proof. unfold le_rom, foldRomData. cbn. repeat split; apply ole_max_fold. Qed.

Lemma foldRepField_mono (cur : option Q) (v : jsnum) : ole cur (foldRepField cur v).
Proof.
  destruct v; cbn [foldRepField]; [apply ole_refl | apply ole_max_fold ..].
Qed.

Lemma foldFrameField_mono (cur : option Q) (v : jsnum) : ole cur (foldFrameField cur v).
Proof.
  destruct v; cbn [foldFrameField]; [apply ole_refl .. | apply ole_max_fold].
Qed.

Lemma le_rom_refl (m : RomMaxima) : le_rom m m.
Proof. unfold le_rom. repeat split; apply ole_refl. Qed.

Lemma le_wrist_refl (w : WristMaxima) : le_wrist w w.
Proof. unfold le_wrist. repeat split; apply ole_refl. Qed.

Lemma le_rom_trans (a b c : RomMaxima) : le_rom a b -> le_rom b c -> le_rom a c.
Proof.
  unfold le_rom. intros (H1 & H2 & H3 & H4) (K1 & K2 & K3 & K4).
  repeat split; eapply ole_trans; eassumption.
Qed.

Lemma le_wrist_trans (a b c : WristMaxima) : le_wrist a b -> le_wrist b c -> le_wrist a c.
Proof.
  unfold le_wrist. intros (H1 & H2 & H3 & H4) (K1 & K2 & K3 & K4).
  repeat split; eapply ole_trans; eassumption.
Qed.

Lemma foldFrame_mono (w : WristMaxima) (frame : MotionFrame) : le_wrist w (foldFrame w frame).
Proof.
  unfold foldFrame. destruct (wristAngles frame) as [fw |]; [| apply le_wrist_refl].
  unfold le_wrist. cbn. repeat split;
    try apply foldFrameField_mono; apply ole_refl.
Qed.

Lemma foldFrames_mono (frames : list MotionFrame) (w : WristMaxima) :
  le_wrist w (fold_left foldFrame frames w).
Proof.
  revert w. induction frames as [| fr frames IH]; intros w; cbn [fold_left].
  - apply le_wrist_refl.
  - eapply le_wrist_trans; [apply foldFrame_mono | apply IH].
Qed.

Lemma foldRep_mono (st : LoopState) (rep : Repetition) :
  le_rom (rom st) (rom (foldRep st rep)) /\
  le_wrist (wristMax st) (wristMax (foldRep st rep)).
Proof.
  assert (Hw : le_wrist (wristMax st)
     (mkWristMaxima
        (foldRepField (wristFlexionAngle (wristMax st)) (rep_wristFlexionAngle rep))
        (foldRepField (wristExtensionAngle (wristMax st)) (rep_wristExtensionAngle rep))
        (foldRepField (maxWristFlexion (wristMax st)) (rep_maxWristFlexion rep))
        (foldRepField (maxWristExtension (wristMax st)) (rep_maxWristExtension rep)))).
  { unfold le_wrist. cbn. repeat split; apply foldRepField_mono. }
  assert (Hr : le_rom (rom st)
     (match romData rep with
      | Some rd => foldRomData (rom st) rd
      | None => rom st
      end)).
  { destruct (romData rep); [apply foldRomData_mono | apply le_rom_refl]. }
  unfold foldRep. destruct (motionData rep) as [frames |]; cbn [rom wristMax].
  - split; [exact Hr |].
    eapply le_wrist_trans; [exact Hw | apply foldFrames_mono].
  - split; assumption.
Qed.

Lemma foldReps_mono (reps : list Repetition) (st : LoopState) :
  le_rom (rom st) (rom (fold_left foldRep reps st)) /\
  le_wrist (wristMax st) (wristMax (fold_left foldRep reps st)).
Proof.
  revert st. induction reps as [| rep reps IH]; intros st; cbn [fold_left].
  - split; [apply le_rom_refl | apply le_wrist_refl].
  - destruct (foldRep_mono st rep) as [H1 H2].
    destruct (IH (foldRep st rep)) as [K1 K2].
    split; [eapply le_rom_trans | eapply le_wrist_trans]; eassumption.
Qed.

Lemma updateMaxWrist_mono (w : WristMaxima) : le_wrist w (updateMaxWrist w).
Proof.
  unfold le_wrist, updateMaxWrist. cbn. repeat split; try apply ole_refl.
  - destruct (wristFlexionAngle w); [apply ole_max_fold | apply ole_refl].
  - destruct (wristExtensionAngle w); [apply ole_max_fold | apply ole_refl].
Qed.

(** ** The temporal-quality gate *)

Lemma gated_below (quality value : jsnum) :
  field_ge quality TEMPORAL_QUALITY_THRESHOLD = false -> gated quality value = None.
Proof. intros H. unfold gated. now rewrite H. Qed.

Lemma gated_zero (quality : jsnum) (q : Q) :
  q == 0 -> gated quality (JNum q) = None.
Proof.
  intros H. unfold gated, or_null, truthy.
  apply Qeq_bool_iff in H. rewrite H. cbn.
  now destruct (field_ge quality TEMPORAL_QUALITY_THRESHOLD).
Qed.

Lemma gated_nonzero (quality : jsnum) (q : Q) :
  field_ge quality TEMPORAL_QUALITY_THRESHOLD = true -> ~ q == 0 ->
  gated quality (JNum q) = Some q.
Proof.
  intros Hq Hz. unfold gated, or_null, truthy. rewrite Hq.
  destruct (Qeq_bool q 0) eqn:E; [| reflexivity].
  apply Qeq_bool_iff in E. contradiction.
Qed.

Lemma stored_romFingers (r : AllFingersROM) (f : Finger) (m : Metric) (slot : option Q) :
  stored (romFingers r) f m = Some slot ->
  slot = gated (quality (quality_of r) f) (computed r f m).
Proof.
  destruct f, m; cbn; intros H; try discriminate; now injection H as <-.
Qed.

Lemma rom_branch_fingers
    (kap : list MotionFrame -> option KapandjiResult)
    (calc : list MotionFrame -> option AllFingersROM)
    (now : Z) (existing : list Z) (id : Z) (name : option String.string)
    (body : Body) (r : AllFingersROM) :
  rom_branch calc name body r ->
  row_fingers (completeAssessment kap calc now existing id name body) = romFingers r.
Proof.
  intros (reps & Hreps & Hne & Hname & Hcalc).
  unfold completeAssessment. rewrite Hreps.
  set (st := fold_left foldRep reps (initialState body)) in *.
  unfold finalizeFingers.
  destruct (allMotionFrames st) as [| fr frames] eqn:Hfr; [contradiction |].
  rewrite Hname, Hcalc. reflexivity.
Qed.

(** C9. In the completion endpoint, when the range-of-motion branch runs, a
    finger metric whose temporal quality passes the threshold and whose
    computed value is exactly 0 is stored as null, the value also stored
    for a finger the gate rejects. *)
Theorem measured_zero_stored_as_null :
  forall (kap : list MotionFrame -> option KapandjiResult)
         (calc : list MotionFrame -> option AllFingersROM)
         (now : Z) (existing : list Z) (id : Z) (name : option String.string)
         (body : Body) (r : AllFingersROM)
         (f : Finger) (m : Metric) (slot : option Q) (q : Q),
    rom_branch calc name body r ->
    stored (row_fingers (completeAssessment kap calc now existing id name body)) f m
      = Some slot ->
    field_ge (quality (quality_of r) f) TEMPORAL_QUALITY_THRESHOLD = true ->
    computed r f m = JNum q ->
    q == 0 ->
    slot = None.
Proof.
  intros kap calc now existing id name body r f m slot q Hb Hs Hq Hc Hz.
  rewrite (rom_branch_fingers kap calc now existing id name body r Hb) in Hs.
  apply stored_romFingers in Hs. rewrite Hs, Hc. now apply gated_zero.
Qed.

Lemma measured_zero_stored_as_null_witness :
  field_ge (quality (quality_of sample_rom) Middle) TEMPORAL_QUALITY_THRESHOLD = true /\
  computed sample_rom Middle Tam = JNum 0 /\
  middleFingerRom (row_fingers sample_row) = None.
Proof.
  split; [reflexivity | split; [reflexivity |]].
  apply (measured_zero_stored_as_null (fun _ => None) (fun _ => Some sample_rom)
           0%Z [] 1%Z (Some "TAM Assessment"%string) sample_body sample_rom
           Middle Tam (middleFingerRom (row_fingers sample_row)) 0).
  - exists [mkRepetition (Some (mkRomData (JNum 45) (JNum 60) (JNum 30) (JNum 135)))
              JUndefined JUndefined JUndefined JUndefined (Some [sample_frame])].
    split; [reflexivity |]. split; [cbn; discriminate |].
    split; reflexivity.
  - reflexivity.
  - reflexivity.
  - reflexivity.
  - reflexivity.
Defined.

(** C4. The stored finger fields for a calculator result in which the
    middle finger passes the quality gate (0.9) with a measured total
    active motion and joint angles of 0: every middle-finger field is null,
    as are the fields of the rejected ring finger (quality 0.5), while the
    nonzero values of the accepted index and pinky fingers are kept, except
    the pinky's DIP angle of 0. *)
Theorem gate_drops_measured_zero :
  row_fingers sample_row
  = mkFingerResults None
      (Some 135) None None (Some 150)
      None None None
      None None None
      (Some 70) (Some 80) None.
Proof. reflexivity. Qed.

(** With the specification's scorer plugged in, the Kapandji score the
    endpoint stores is the highest rung over all motion frames of all
    repetitions. *)
Lemma kapandji_score_stored
    (threshold : Q) (thumbTip : Kapandji.FrameLandmarks -> option Landmark)
    (ladder : list (Kapandji.FrameLandmarks -> option Landmark))
    (detailsOf : list MotionFrame -> KapandjiDetails)
    (calc : list MotionFrame -> option AllFingersROM)
    (now : Z) (existing : list Z) (id : Z) (name : option String.string)
    (body : Body) (reps : list Repetition) :
  repetitionData body = Some reps ->
  allMotionFrames (fold_left foldRep reps (initialState body)) <> [] ->
  isKapandji name = true ->
  kapandjiScore
    (row_fingers (completeAssessment
                    (kapandjiCalculator threshold thumbTip ladder detailsOf)
                    calc now existing id name body))
  = Some (inject_Z (Z.of_nat
            (list_max (map (Kapandji.frameRung threshold thumbTip ladder)
                         (map landmarks
                            (allMotionFrames
                               (fold_left foldRep reps (initialState body)))))))).
Proof.
  intros Hreps Hne Hname.
  unfold completeAssessment. rewrite Hreps.
  set (st := fold_left foldRep reps (initialState body)) in *.
  unfold finalizeFingers.
  destruct (allMotionFrames st) as [| fr frames] eqn:Hfr; [contradiction |].
  rewrite Hname. unfold kapandjiCalculator. cbn [row_fingers kapandjiFingers kapandjiScore maxScore].
  now rewrite KapandjiFacts.score_is_list_max.
Qed.

End CompleteFacts.

(* ===================================================================== *)
(** * Properties of the recording page *)
(* ===================================================================== *)

Module RecordingFacts.
Import Js JsFacts Recording.
Local Open Scope Q_scope.

(** ** The session lock *)

Lemma updateSession_locked (h : HandType) (data : TrackerData) :
  h <> UNKNOWN -> updateSession h data = h.
Proof. intros Hh. destruct h; [reflexivity | reflexivity | contradiction]. Qed.

Lemma handleMediaPipeUpdate_session
    (calc : list Landmark -> option JointAngles)
    (st : State) (data : TrackerData) (t : Z) :
  sessionHandType (handleMediaPipeUpdate calc st data t)
  = updateSession (sessionHandType st) data.
Proof.
  unfold handleMediaPipeUpdate.
  destruct (landmarks data) as [[| l ls] |]; reflexivity.
Qed.



Lemma startRecording_locks (st : State) :
  sessionHandType (startRecording st) <> UNKNOWN.
Proof.
  unfold startRecording. cbn. destruct (detectedHandType st); discriminate.
Qed.

Lemma run_app (calc : list Landmark -> option JointAngles)
    (st : State) (evs evs' : list Event) :
  run calc st (evs ++ evs') = run calc (run calc st evs) evs'.
Proof. unfold run. apply fold_left_app. Qed.




(** ** The running maxima only grow *)

Lemma updateMaxROM_mono (prev romData : JointAngles) : le_angles prev (updateMaxROM prev romData).
Proof. unfold le_angles, updateMaxROM. cbn. repeat split; apply Math_max_l. Qed.

Lemma updateWristMax_mono (prev : SessionMaxWristAngles) (wa : WristAngles) :
  le_wristMax prev (updateWristMax prev wa).
Proof. unfold le_wristMax, updateWristMax. cbn. split; apply Math_max_l. Qed.

Lemma le_angles_refl (a : JointAngles) : le_angles a a.
Proof. unfold le_angles. repeat split; apply Qle_refl. Qed.

Lemma le_wristMax_refl (a : SessionMaxWristAngles) : le_wristMax a a.
Proof. unfold le_wristMax. split; apply Qle_refl. Qed.

Lemma handleMediaPipeUpdate_mono
    (calc : list Landmark -> option JointAngles)
    (st : State) (data : TrackerData) (t : Z) :
  le_angles (maxROM st) (maxROM (handleMediaPipeUpdate calc st data t)) /\
  le_wristMax (sessionMaxWristAngles st)
    (sessionMaxWristAngles (handleMediaPipeUpdate calc st data t)).
Proof.
  unfold handleMediaPipeUpdate.
  destruct (landmarks data) as [[| l ls] |]; cbn [maxROM sessionMaxWristAngles];
    try (split; [apply le_angles_refl | apply le_wristMax_refl]).
  split.
  - destruct (21 <=? List.length (l :: ls))%nat; [| apply le_angles_refl].
    destruct (calc (l :: ls)) as [romData |]; [| apply le_angles_refl].
    destruct (isRecording st); [apply updateMaxROM_mono | apply le_angles_refl].
  - destruct (wristAngles data) as [wa |];
      [apply updateWristMax_mono | apply le_wristMax_refl].
Qed.

(** C2. Folding in one more repetition, one more motion frame or one more
    tracker update never lowers a running maximum: on the server the
    joint, total-active-motion and wrist maxima after a repetition (and
    after each of its frames, and after the closing update) are at least
    what they were, null counting as "nothing yet"; on the recording page
    the joint, total-active-motion and wrist maxima after a tracker update
    are at least what they were. *)
Theorem session_maxima_never_decrease :
  (forall (st : Complete.LoopState) (rep : Complete.Repetition),
      Complete.le_rom (Complete.rom st) (Complete.rom (Complete.foldRep st rep)) /\
      Complete.le_wrist (Complete.wristMax st)
        (Complete.wristMax (Complete.foldRep st rep))) /\
  (forall (w : Complete.WristMaxima) (frame : Complete.MotionFrame),
      Complete.le_wrist w (Complete.foldFrame w frame)) /\
  (forall w : Complete.WristMaxima, Complete.le_wrist w (Complete.updateMaxWrist w)) /\
  (forall (calc : list Landmark -> option JointAngles)
          (st : State) (data : TrackerData) (t : Z),
      le_angles (maxROM st) (maxROM (handleMediaPipeUpdate calc st data t)) /\
      le_wristMax (sessionMaxWristAngles st)
        (sessionMaxWristAngles (handleMediaPipeUpdate calc st data t))).
Proof.
  split; [| split; [| split]].
  - apply CompleteFacts.foldRep_mono.
  - apply CompleteFacts.foldFrame_mono.
  - apply CompleteFacts.updateMaxWrist_mono.
  - apply handleMediaPipeUpdate_mono.
Qed.

End RecordingFacts.

(* ===================================================================== *)
(** * Properties of the DASH score *)
(* ===================================================================== *)

Module DashFacts.
Import Dash.
Local Open Scope Q_scope.

Lemma fold_left_add (l : list Z) (a : Z) :
  fold_left (fun acc value => (acc + value)%Z) l a = (a + fold_right Z.add 0 l)%Z.
Proof.
  revert a. induction l as [| v l IH]; intros a; cbn [fold_left fold_right].
  - lia.
  - rewrite IH. lia.
Qed.

Lemma answers_sum_bounds (l : list Z) :
  Forall (fun v => (1 <= v <= 5)%Z) l ->
  (Z.of_nat (List.length l) <= fold_right Z.add 0 l <= 5 * Z.of_nat (List.length l))%Z.
Proof.
  induction 1 as [| v l Hv _ IH]; cbn [fold_right List.length]; lia.
Qed.

Lemma answered_range (responses : Responses) :
  Forall (fun e => (snd e <= 5)%Z) responses ->
  Forall (fun v => (1 <= v <= 5)%Z) (answered responses).
Proof.
  intros H. unfold answered, Object_values. apply Forall_forall. intros v Hin.
  apply filter_In in Hin. destruct Hin as [Hin Hpos].
  apply in_map_iff in Hin. destruct Hin as [e [<- Hin]].
  rewrite Forall_forall in H. specialize (H e Hin).
  apply Z.ltb_lt in Hpos. lia.
Qed.

Lemma mean_range (l : list Z) :
  l <> [] -> Forall (fun v => (1 <= v <= 5)%Z) l -> 1 <= mean l /\ mean l <= 5.
Proof.
  intros Hne Hall. pose proof (answers_sum_bounds l Hall) as [Hlo Hhi].
  assert (Hn : (0 < Z.of_nat (List.length l))%Z) by (destruct l; [congruence | cbn; lia]).
  assert (Hq : 0 < inject_Z (Z.of_nat (List.length l))).
  { change 0 with (inject_Z 0). now rewrite <- Zlt_Qlt. }
  unfold mean. split.
  - apply Qle_shift_div_l; [assumption |]. rewrite Qmult_1_l. now rewrite <- Zle_Qle.
  - apply Qle_shift_div_r; [assumption |].
    change 5 with (inject_Z 5). rewrite <- inject_Z_mult. now rewrite <- Zle_Qle.
Qed.

Lemma score_scaled (a : Q) : ((a - 1) / 4) * 100 * 10 == (a - 1) * 250.
Proof. field. Qed.

(** Rounding to one decimal place: the result is a whole number of
    tenths, within a twentieth of the argument. *)
Lemma round_tenths (x : Q) :
  x - (1 # 20) < inject_Z (Math_round (x * 10)) / 10 /\
  inject_Z (Math_round (x * 10)) / 10 <= x + (1 # 20).
Proof.
  unfold Math_round.
  pose proof (Qfloor_le (x * 10 + (1 # 2))) as Hle.
  pose proof (Qlt_floor (x * 10 + (1 # 2))) as Hlt.
  rewrite inject_Z_plus in Hlt. change (inject_Z 1) with 1 in Hlt.
  set (k := inject_Z (Qfloor (x * 10 + (1 # 2)))) in *.
  split.
  - apply Qlt_shift_div_l; [reflexivity |]. Lqa.lra.
  - apply Qle_shift_div_r; [reflexivity |]. Lqa.lra.
Qed.

Lemma round_tenths_range (y : Q) :
  0 <= y -> y <= 1000 ->
  0 <= inject_Z (Math_round y) / 10 /\ inject_Z (Math_round y) / 10 <= 100.
Proof.
  intros Hlo Hhi. unfold Math_round.
  assert (H0 : (0 <= Qfloor (y + (1 # 2)))%Z).
  { change 0%Z with (Qfloor (0 + (1 # 2))). apply Qfloor_resp_le. Lqa.lra. }
  assert (H1 : (Qfloor (y + (1 # 2)) <= 1000)%Z).
  { change 1000%Z with (Qfloor (1000 + (1 # 2))). apply Qfloor_resp_le. Lqa.lra. }
  rewrite Zle_Qle in H0, H1.
  set (k := inject_Z (Qfloor (y + (1 # 2)))) in *.
  change (inject_Z 0) with 0 in H0. change (inject_Z 1000) with 1000 in H1.
  split.
  - apply Qle_shift_div_l; [reflexivity |]. Lqa.lra.
  - apply Qle_shift_div_r; [reflexivity |]. Lqa.lra.
Qed.

Lemma calculateDashScore_eq (responses : Responses) :
  calculateDashScore responses
  = if (List.length (answered responses) <? 27)%nat then None
    else Some (inject_Z (Math_round (((mean (answered responses) - 1) / 4) * 100 * 10)) / 10).
Proof.
  unfold calculateDashScore, answered, mean.
  destruct (_ <? 27)%nat; [reflexivity |].
  rewrite fold_left_add, Z.add_0_l. reflexivity.
Qed.

(** C10. [calculateDashScore] returns null exactly when fewer than 27
    questions have a positive response.  Otherwise, the answers lying in
    1..5, it returns the score [((mean - 1) / 4) * 100] of the answered
    questions rounded to one decimal place (a whole number of tenths within
    a twentieth of the score), and that value lies in [0, 100]. *)
Theorem calculateDashScore_spec :
  forall responses : Responses,
    Forall (fun e => (snd e <= 5)%Z) responses ->
    let valid := answered responses in
    let score := ((mean valid - 1) / 4) * 100 in
    (calculateDashScore responses = None <-> (List.length valid < 27)%nat) /\
    ((27 <= List.length valid)%nat ->
     exists k : Z,
       calculateDashScore responses = Some (inject_Z k / 10) /\
       k = Math_round (score * 10) /\
       score - (1 # 20) < inject_Z k / 10 /\ inject_Z k / 10 <= score + (1 # 20) /\
       0 <= inject_Z k / 10 /\ inject_Z k / 10 <= 100).
Proof.
  intros responses Hall valid score. subst valid score.
  rewrite calculateDashScore_eq. split.
  - destruct (List.length (answered responses) <? 27)%nat eqn:E.
    + apply Nat.ltb_lt in E. tauto.
    + apply Nat.ltb_ge in E. split; [discriminate | lia].
  - intros Hn.
    destruct (List.length (answered responses) <? 27)%nat eqn:E.
    { apply Nat.ltb_lt in E. lia. }
    eexists. split; [reflexivity |]. split; [reflexivity |].
    pose proof (round_tenths (((mean (answered responses) - 1) / 4) * 100)) as [R1 R2].
    split; [exact R1 |]. split; [exact R2 |].
    assert (Hne : answered responses <> []).
    { intros Hnil. rewrite Hnil in Hn. cbn in Hn. lia. }
    destruct (mean_range _ Hne (answered_range responses Hall)) as [M1 M2].
    apply round_tenths_range; rewrite score_scaled; Lqa.lra.
Qed.

Lemma calculateDashScore_spec_witness :
  Forall (fun e => (snd e <= 5)%Z) sample_responses /\
  (27 <= List.length (answered sample_responses))%nat /\
  (calculateDashScore sample_responses = None
   <-> (List.length (answered sample_responses) < 27)%nat) /\
  exists k : Z,
    calculateDashScore sample_responses = Some (inject_Z k / 10) /\
    k = Math_round (((mean (answered sample_responses) - 1) / 4) * 100 * 10) /\
    ((mean (answered sample_responses) - 1) / 4) * 100 - (1 # 20) < inject_Z k / 10 /\
    inject_Z k / 10 <= ((mean (answered sample_responses) - 1) / 4) * 100 + (1 # 20) /\
    0 <= inject_Z k / 10 /\ inject_Z k / 10 <= 100.
Proof.
  assert (Hall : Forall (fun e => (snd e <= 5)%Z) sample_responses).
  { apply Forall_forall. intros e Hin. unfold sample_responses in Hin.
    apply in_map_iff in Hin. destruct Hin as [i [<- _]]. cbn. lia. }
  assert (Hn : (27 <= List.length (answered sample_responses))%nat).
  { vm_compute. lia. }
  split; [exact Hall |]. split; [exact Hn |].
  destruct (calculateDashScore_spec sample_responses Hall) as [Hnull Hscore].
  split; [exact Hnull |]. exact (Hscore Hn).
Defined.

Example sample_score : calculateDashScore sample_responses = Some (500 # 10).
Proof. vm_compute. reflexivity. Qed.

End DashFacts.

(* ===================================================================== *)
(** * Properties of wrist_angle.py under a change of camera view *)
(* ===================================================================== *)

Module WristTransformsFacts.
Import WristAngle WristAngleFacts WristTransforms.
Local Open Scope R_scope.

Lemma vec3_eq (a b : Vec3) :
  vx a = vx b -> vy a = vy b -> vz a = vz b -> a = b.
Proof. destruct a, b. cbn. intros -> -> ->. reflexivity. Qed.

Lemma vdot_nonneg (v : Vec3) : 0 <= vdot v v.
Proof. unfold vdot. nra. Qed.

Lemma norm_zero_vec (v : Vec3) : ~ 0 < norm v -> v = mkVec3 0 0 0.
Proof.
  intros H. pose proof (sqrt_pos (vdot v v)) as Hs. fold (norm v) in Hs.
  assert (Hn : norm v = 0) by lra.
  apply sqrt_eq_0 in Hn; [| apply vdot_nonneg].
  unfold vdot in Hn. apply vec3_eq; cbn; nra.
Qed.

(** ** Mirror images *)

Lemma norm_mirror_x (v : Vec3) : norm (mirror_x v) = norm v.
Proof. unfold norm. f_equal. unfold vdot, mirror_x. cbn. ring. Qed.

Lemma norm_mirror_z (v : Vec3) : norm (mirror_z v) = norm v.
Proof. unfold norm. f_equal. unfold vdot, mirror_z. cbn. ring. Qed.

Lemma unit_vec_mirror_x (v : Vec3) : unit_vec (mirror_x v) = mirror_x (unit_vec v).
Proof.
  unfold unit_vec. rewrite norm_mirror_x.
  destruct (Rlt_dec 0 (norm v)) as [Hn | Hn]; [| reflexivity].
  apply vec3_eq; cbn; field; lra.
Qed.

Lemma unit_vec_mirror_z (v : Vec3) : unit_vec (mirror_z v) = mirror_z (unit_vec v).
Proof.
  unfold unit_vec. rewrite norm_mirror_z.
  destruct (Rlt_dec 0 (norm v)) as [Hn | Hn]; [| reflexivity].
  apply vec3_eq; cbn; field; lra.
Qed.

Lemma vsub_mirror_x (a b : Vec3) : vsub (mirror_x a) (mirror_x b) = mirror_x (vsub a b).
Proof. apply vec3_eq; cbn; ring. Qed.

Lemma vsub_mirror_z (a b : Vec3) : vsub (mirror_z a) (mirror_z b) = mirror_z (vsub a b).
Proof. apply vec3_eq; cbn; ring. Qed.

Lemma theta_of_mirror_x (fr : Frame) : theta_of (map_frame mirror_x fr) = theta_of fr.
Proof.
  unfold theta_of, map_frame. cbn [elbow wrist middle_mcp].
  rewrite !vsub_mirror_x, !unit_vec_mirror_x.
  do 3 f_equal. unfold vdot, mirror_x. cbn. ring.
Qed.

Lemma crossz_mirror_x (a b : Vec3) :
  vz (vcross (mirror_x a) (mirror_x b)) = - vz (vcross a b).
Proof. unfold vcross, mirror_x. cbn. ring. Qed.

Lemma np_sign_mirror (c : R) :
  1e-9 < Rabs c -> np_sign (- c + 1e-9) = - np_sign (c + 1e-9).
Proof.
  intros H. destruct (Rcase_abs c) as [Hneg | Hpos].
  - rewrite Rabs_left in H by assumption.
    rewrite (np_sign_pos (- c + 1e-9)), (np_sign_neg (c + 1e-9)) by lra. ring.
  - rewrite Rabs_right in H by assumption.
    rewrite (np_sign_neg (- c + 1e-9)), (np_sign_pos (c + 1e-9)) by lra. ring.
Qed.

Lemma side_factor_mirror_x (fr : Frame) :
  vx (wrist fr) <> vx (elbow fr) ->
  side_factor (map_frame mirror_x fr) = - side_factor fr.
Proof.
  intros H. unfold side_factor, map_frame, mirror_x. cbn.
  destruct (Rlt_dec (- vx (wrist fr)) (- vx (elbow fr)));
    destruct (Rlt_dec (vx (wrist fr)) (vx (elbow fr))); lra.
Qed.

(** X1. The side factor does what it is there for: as long as the arm is
    not vertical in the image (wrist and elbow differ in x) and the
    in-plane bend is more than the bias can hide, the arm and its mirror
    image across the vertical axis get the same signed angle. *)
Theorem mirrored_arm_same_angle :
  forall fr : Frame,
    vx (wrist fr) <> vx (elbow fr) ->
    1e-9 < Rabs (vz (vcross (unit_vec (forearm_of fr)) (unit_vec (handvec_of fr)))) ->
    signed_theta (map_frame mirror_x fr) = signed_theta fr.
Proof.
  intros fr Hx Hc. rewrite !signed_theta_defined.
  rewrite theta_of_mirror_x, (side_factor_mirror_x fr Hx).
  assert (Hs : sign_raw_of (map_frame mirror_x fr) = - sign_raw_of fr).
  { unfold sign_raw_of, map_frame. cbn [elbow wrist middle_mcp].
    rewrite !vsub_mirror_x, !unit_vec_mirror_x, crossz_mirror_x.
    apply np_sign_mirror. exact Hc. }
  rewrite Hs. f_equal. ring.
Qed.

Lemma unit_vec_axis (v : Vec3) : vdot v v = 1 -> unit_vec v = v.
Proof.
  intros H. rewrite unit_vec_scaled by lra.
  unfold norm. rewrite H, sqrt_1. apply vec3_eq; cbn; field.
Qed.

Lemma mirrored_arm_same_angle_witness :
  signed_theta (map_frame mirror_x planar_frame) = signed_theta planar_frame.
Proof.
  apply (mirrored_arm_same_angle planar_frame).
  - cbn. lra.
  - unfold forearm_of, handvec_of, planar_frame. cbn [elbow wrist middle_mcp].
    rewrite !unit_vec_axis by (unfold vdot, vsub; cbn; ring).
    unfold vcross, vsub. cbn.
    rewrite Rabs_right by lra. lra.
Defined.

(** X2. The algorithm does not see the direction of depth: a frame and its
    mirror image across the image plane (every z negated, so a hand bent
    towards the camera instead of away from it) get the same signed
    angle. *)
Theorem depth_direction_ignored :
  forall fr : Frame, signed_theta (map_frame mirror_z fr) = signed_theta fr.
Proof.
  intros fr. rewrite !signed_theta_defined.
  assert (Ht : theta_of (map_frame mirror_z fr) = theta_of fr).
  { unfold theta_of, map_frame. cbn [elbow wrist middle_mcp].
    rewrite !vsub_mirror_z, !unit_vec_mirror_z.
    do 3 f_equal. unfold vdot, mirror_z. cbn. ring. }
  assert (Hs : sign_raw_of (map_frame mirror_z fr) = sign_raw_of fr).
  { unfold sign_raw_of, map_frame. cbn [elbow wrist middle_mcp].
    rewrite !vsub_mirror_z, !unit_vec_mirror_z.
    do 2 f_equal. }
  rewrite Ht, Hs. reflexivity.
Qed.

(** ** Moving and resizing *)

Lemma norm_vscale (s : R) (v : Vec3) : 0 < s -> norm (vscale s v) = s * norm v.
Proof.
  intros Hs. unfold norm.
  replace (vdot (vscale s v) (vscale s v)) with ((s * s) * vdot v v)
    by (unfold vdot, vscale; cbn; ring).
  rewrite sqrt_mult by (try apply vdot_nonneg; nra).
  rewrite sqrt_square by lra. reflexivity.
Qed.

Lemma unit_vec_vscale (s : R) (v : Vec3) : 0 < s -> unit_vec (vscale s v) = unit_vec v.
Proof.
  intros Hs. unfold unit_vec. rewrite (norm_vscale s v Hs).
  destruct (Rlt_dec 0 (norm v)) as [Hn | Hn].
  - destruct (Rlt_dec 0 (s * norm v)) as [_ | Hc]; [| exfalso; apply Hc; nra].
    apply vec3_eq; cbn; field; lra.
  - rewrite (norm_zero_vec v Hn). unfold norm, vdot. cbn.
    replace (0 * 0 + 0 * 0 + 0 * 0) with 0 by ring. rewrite sqrt_0.
    destruct (Rlt_dec 0 (s * 0)) as [Hc | _]; [lra |].
    apply vec3_eq; cbn; ring.
Qed.

Lemma vsub_rescale (s : R) (t a b : Vec3) :
  vsub (vscale s (vadd a t)) (vscale s (vadd b t)) = vscale s (vsub a b).
Proof. apply vec3_eq; cbn; ring. Qed.

Lemma side_factor_rescale (s : R) (t : Vec3) (fr : Frame) :
  0 < s -> side_factor (rescale_frame s t fr) = side_factor fr.
Proof.
  intros Hs. unfold side_factor, rescale_frame, map_frame. cbn.
  destruct (Rlt_dec (s * (vx (wrist fr) + vx t)) (s * (vx (elbow fr) + vx t)));
    destruct (Rlt_dec (vx (wrist fr)) (vx (elbow fr))); try reflexivity; exfalso; nra.
Qed.

(** X3. "Normalising removes scale effects": the signed angle of a frame
    does not change when the landmarks are moved as a whole and seen larger
    or smaller (a positive scale factor), for a single frame and for a
    batch with any median window. *)
Theorem angle_independent_of_position_and_size :
  forall (s : R) (t : Vec3) (fr : Frame) (frames : list Frame) (median_k : nat),
    0 < s ->
    signed_theta (rescale_frame s t fr) = signed_theta fr /\
    wrist_angle (Batch (map (rescale_frame s t) frames)) median_k
    = wrist_angle (Batch frames) median_k.
Proof.
  intros s t fr frames median_k Hs.
  assert (Hone : forall f, signed_theta (rescale_frame s t f) = signed_theta f).
  { intros f. rewrite !signed_theta_defined.
    rewrite (side_factor_rescale s t f Hs).
    unfold theta_of, sign_raw_of, rescale_frame, map_frame. cbn [elbow wrist middle_mcp].
    rewrite !vsub_rescale, !unit_vec_vscale by assumption. reflexivity. }
  split; [apply Hone |].
  assert (Hall : forall fs, mapM signed_theta (map (rescale_frame s t) fs)
                            = mapM signed_theta fs).
  { induction fs as [| f fs IH]; [reflexivity |].
    cbn [map mapM]. now rewrite Hone, IH. }
  destruct frames as [| f fs]; [reflexivity |].
  cbn [map]. rewrite !wrist_angle_batch.
  change (rescale_frame s t f :: map (rescale_frame s t) fs)
    with (map (rescale_frame s t) (f :: fs)).
  now rewrite Hall.
Qed.

Lemma angle_independent_of_position_and_size_witness :
  signed_theta (rescale_frame 2 (mkVec3 1 1 1) planar_frame) = signed_theta planar_frame /\
  wrist_angle (Batch (map (rescale_frame 2 (mkVec3 1 1 1)) test_frames)) 3
  = wrist_angle (Batch test_frames) 3.
Proof.
  apply (angle_independent_of_position_and_size 2 (mkVec3 1 1 1) planar_frame test_frames 3).
  lra.
Defined.

(** ** An exactly neutral in-plane bend *)

Lemma unit_vec_is_scaled (v : Vec3) : exists k, unit_vec v = vscale k v.
Proof.
  unfold unit_vec. destruct (Rlt_dec 0 (norm v)) as [Hn | Hn].
  - exists (/ norm v). apply vec3_eq; cbn; field; lra.
  - exists 1. apply vec3_eq; cbn; ring.
Qed.

(** X4. When forearm and hand vector are aligned in the image (the z
    component of their cross product is exactly 0: a straight wrist, or a
    hand bent purely in depth), the bias decides the sign: the result is
    the raw angle times the side factor, never 0 times it. *)
Theorem neutral_bend_takes_positive_sign :
  forall fr : Frame,
    vz (vcross (forearm_of fr) (handvec_of fr)) = 0 ->
    signed_theta fr = Some (theta_of fr * side_factor fr).
Proof.
  intros fr Hc. rewrite signed_theta_defined.
  assert (Hs : sign_raw_of fr = 1).
  { unfold sign_raw_of. fold (forearm_of fr) (handvec_of fr).
    destruct (unit_vec_is_scaled (forearm_of fr)) as [k1 ->].
    destruct (unit_vec_is_scaled (handvec_of fr)) as [k2 ->].
    replace (vz (vcross (vscale k1 (forearm_of fr)) (vscale k2 (handvec_of fr))))
      with (k1 * k2 * vz (vcross (forearm_of fr) (handvec_of fr)))
      by (unfold vcross, vscale; cbn; ring).
    rewrite Hc, Rmult_0_r. apply np_sign_bias. }
  rewrite Hs. f_equal. ring.
Qed.

Lemma neutral_bend_takes_positive_sign_witness :
  signed_theta depth_frame = Some (theta_of depth_frame * side_factor depth_frame).
Proof.
  apply (neutral_bend_takes_positive_sign depth_frame).
  unfold forearm_of, handvec_of, depth_frame, vcross, vsub. cbn. ring.
Defined.

(** ** One angle per frame *)

(** X5. On a batch with at least one frame [wrist_angle] returns
    exactly one angle per frame, whatever the median window: the smoothing
    pass neither drops nor adds a value, and a window of 1 or a window
    longer than the batch returns the signed angles untouched. *)
Theorem one_angle_per_frame :
  forall (fr : Frame) (frames : list Frame) (median_k : nat),
    exists signed out,
      mapM signed_theta (fr :: frames) = Some signed /\
      wrist_angle (Batch (fr :: frames)) median_k = Some out /\
      length out = S (length frames) /\
      ((median_k <= 1)%nat \/ (S (length frames) < median_k)%nat -> out = signed).
Proof.
  intros fr frames median_k.
  destruct (signed_thetas_defined (fr :: frames)) as [signed [Hs Hlen]].
  cbn [length] in Hlen.
  exists signed, (moving_median median_k signed).
  split; [exact Hs |]. split; [| split].
  - rewrite wrist_angle_batch, Hs. reflexivity.
  - now rewrite moving_median_length.
  - intros Hk. unfold moving_median, moving_median_from. rewrite Hlen.
    destruct Hk as [Hk | Hk].
    + replace (1 <? median_k)%nat with false; [reflexivity |].
      symmetry. apply Nat.ltb_ge. exact Hk.
    + replace (median_k <=? S (length frames))%nat with false;
        [now rewrite andb_false_r |].
      symmetry. apply Nat.leb_gt. exact Hk.
Qed.

(** ** Smoothing keeps the range *)

Lemma insert_sorted_Forall (P : R -> Prop) (x : R) (l : list R) :
  P x -> Forall P l -> Forall P (insert_sorted x l).
Proof.
  intros Hx. induction 1 as [| y l Hy Hl IH]; cbn.
  - now constructor.
  - destruct (Rle_dec x y); constructor; try assumption. now constructor.
Qed.

Lemma nth_bounded (b : R) (l : list R) (i : nat) :
  0 <= b -> Forall (fun a => - b <= a <= b) l -> - b <= nth i l 0 <= b.
Proof.
  intros Hb Hl. destruct (Nat.lt_ge_cases i (length l)) as [Hi | Hi].
  - rewrite Forall_forall in Hl. apply Hl. now apply nth_In.
  - rewrite nth_overflow by exact Hi. lra.
Qed.

Lemma np_median_bounded (b : R) (l : list R) :
  0 <= b -> Forall (fun a => - b <= a <= b) l -> - b <= np_median l <= b.
Proof.
  intros Hb Hl. unfold np_median.
  assert (Hs : Forall (fun a => - b <= a <= b) (fold_right insert_sorted [] l)).
  { induction Hl as [| y l Hy _ IH]; cbn; [constructor |].
    now apply insert_sorted_Forall. }
  destruct (Nat.even _).
  - pose proof (nth_bounded b _ (length (fold_right insert_sorted [] l) / 2 - 1) Hb Hs).
    pose proof (nth_bounded b _ (length (fold_right insert_sorted [] l) / 2) Hb Hs).
    lra.
  - now apply nth_bounded.
Qed.

Lemma deque_append_Forall (P : R -> Prop) (k : nat) (buf : list R) (val : R) :
  P val -> Forall P buf -> Forall P (deque_append k buf val).
Proof.
  intros Hv Hb. unfold deque_append.
  assert (H : Forall P (buf ++ [val])).
  { apply Forall_app. split; [exact Hb | now constructor]. }
  destruct (k <? length (buf ++ [val]))%nat; [| exact H].
  destruct (buf ++ [val]); [constructor | now inversion H].
Qed.

Lemma set_nth_Forall (P : R -> Prop) (i : nat) (v : R) (out : list R) :
  P v -> Forall P out -> Forall P (set_nth i v out).
Proof.
  intros Hv Ho. revert i. induction Ho as [| x out Hx Ho IH]; intros i; destruct i; cbn;
    try constructor; try assumption.
  apply IH.
Qed.

Lemma median_loop_bounded (b : R) (k half : nat) (vals : list R) (i : nat)
    (buf out : list R) :
  0 <= b ->
  Forall (fun a => - b <= a <= b) vals -> Forall (fun a => - b <= a <= b) buf ->
  Forall (fun a => - b <= a <= b) out ->
  Forall (fun a => - b <= a <= b) (median_loop k half vals i buf out).
Proof.
  intros Hb Hv. revert i buf out.
  induction Hv as [| val rest Hval _ IH]; intros i buf out Hbuf Hout; [exact Hout |].
  cbn [median_loop].
  assert (Hbuf' : Forall (fun a => - b <= a <= b) (deque_append k buf val))
    by now apply deque_append_Forall.
  apply IH; [exact Hbuf' |].
  destruct (i <? half)%nat; apply set_nth_Forall; try assumption;
    now apply np_median_bounded.
Qed.

Lemma median_tail_bounded (b : R) (half n : nat) (out : list R) :
  0 <= b ->
  Forall (fun a => - b <= a <= b) out ->
  Forall (fun a => - b <= a <= b) (median_tail half n out).
Proof.
  intros Hb. unfold median_tail. generalize (seq 0 half). intros idx. revert out.
  induction idx as [| i idx IH]; intros out Hout; [exact Hout |].
  cbn [fold_left]. apply IH. apply set_nth_Forall; [| exact Hout].
  now apply nth_bounded.
Qed.

Lemma signed_thetas_bounded (frames : list Frame) (signed : list R) :
  mapM signed_theta frames = Some signed ->
  Forall (fun a => - 180 <= a <= 180) signed.
Proof.
  revert signed. induction frames as [| fr frames IH]; intros signed H.
  - injection H as <-. constructor.
  - cbn [mapM] in H. rewrite signed_theta_defined in H. cbn [obind] in H.
    destruct (mapM signed_theta frames) as [l |]; [| discriminate].
    cbn [obind] in H. injection H as <-. constructor; [| now apply IH].
    apply signed_bound; [apply theta_bound | apply np_sign_cases | apply side_factor_cases].
Qed.

(** X6. Smoothing keeps the range: every angle [wrist_angle] returns
    for a batch with at least one frame, with any median window, lies
    between -180 and 180 degrees. *)
Theorem smoothed_angles_stay_in_range :
  forall (fr : Frame) (frames : list Frame) (median_k : nat),
    exists out,
      wrist_angle (Batch (fr :: frames)) median_k = Some out /\
      Forall (fun a => - 180 <= a <= 180) out.
Proof.
  intros fr frames median_k.
  destruct (signed_thetas_defined (fr :: frames)) as [signed [Hs _]].
  exists (moving_median median_k signed). split.
  - rewrite wrist_angle_batch, Hs. reflexivity.
  - pose proof (signed_thetas_bounded (fr :: frames) signed Hs) as Hb.
    unfold moving_median, moving_median_from.
    destruct ((1 <? median_k)%nat && (median_k <=? length signed)%nat); [| exact Hb].
    apply median_tail_bounded; [lra |].
    apply median_loop_bounded; [lra | exact Hb | constructor |].
    apply Forall_forall. intros a Ha. apply repeat_spec in Ha. subst a. lra.
Qed.

(** ** The buffer [np.empty_like] leaves uninitialised *)






End WristTransformsFacts.

(* ===================================================================== *)
(** * The completion endpoint: what the stored maxima dominate *)
(* ===================================================================== *)

Module CompleteBoundsFacts.
Import Js JsFacts Complete CompleteFacts CompleteSamples.
Import String.
Local Open Scope Q_scope.

(** A property that one step establishes and every step keeps holds at
    the end of a loop that runs the step. *)
Lemma fold_left_reaches {A S : Type} (f : S -> A -> S) (P : S -> Prop) (a : A)
    (l : list A) :
  (forall s, P (f s a)) -> (forall s b, P s -> P (f s b)) ->
  In a l -> forall s, P (fold_left f l s).
Proof.
  intros Hset Hkeep. induction l as [| b l IH]; intros Hin s; [destruct Hin |].
  cbn [fold_left]. destruct Hin as [-> | Hin].
  - clear IH. generalize (Hset s). generalize (f s a). clear s.
    induction l as [| c l IH]; intros s Hs; [exact Hs |].
    cbn [fold_left]. apply IH. now apply Hkeep.
  - now apply IH.
Qed.

Lemma fold_left_keeps {A S : Type} (f : S -> A -> S) (P : S -> Prop) (l : list A) :
  (forall s b, P s -> P (f s b)) -> forall s, P s -> P (fold_left f l s).
Proof.
  intros Hkeep. induction l as [| b l IH]; intros s Hs; [exact Hs |].
  cbn [fold_left]. apply IH. now apply Hkeep.
Qed.

Lemma Math_max_nonneg_l (a b : Q) : 0 <= a -> 0 <= Math_max a b.
Proof. intros H. eapply Qle_trans; [exact H | apply Math_max_l]. Qed.

(** ** The index finger maxima *)

(** A running maximum that is null or not negative. *)
Lemma or_zero_nonneg (x : option Q) : ole (Some 0) x \/ x = None -> 0 <= or_zero x.
Proof.
  intros [H | ->]; [| apply Qle_refl].
  destruct x as [q |]; [| destruct H]. cbn in H. cbn.
  destruct (truthy q); [exact H | apply Qle_refl].
Qed.

Lemma foldRep_rom_nonneg (st : LoopState) (rep : Repetition) :
  (forall sel, In sel [maxMcpAngle; maxPipAngle; maxDipAngle; totalActiveRom] ->
               ole (Some 0) (sel (rom st)) \/ sel (rom st) = None) ->
  forall sel, In sel [maxMcpAngle; maxPipAngle; maxDipAngle; totalActiveRom] ->
              ole (Some 0) (sel (rom (foldRep st rep))) \/ sel (rom (foldRep st rep)) = None.
Proof.
  intros Hst sel Hsel.
  assert (Hrom : rom (foldRep st rep)
                 = match romData rep with
                   | Some rd => foldRomData (rom st) rd
                   | None => rom st
                   end).
  { unfold foldRep. destruct (motionData rep); reflexivity. }
  rewrite Hrom. destruct (romData rep) as [rd |]; [| now apply Hst].
  left. cbn in Hsel.
  destruct Hsel as [<- | [<- | [<- | [<- | []]]]]; cbn;
    apply Math_max_nonneg_l, or_zero_nonneg, Hst; cbn; tauto.
Qed.

Lemma foldRep_rom_reaches (st : LoopState) (rep : Repetition) (rd : RomData) :
  romData rep = Some rd ->
  ole (Some (field_or_zero (rd_mcpAngle rd))) (maxMcpAngle (rom (foldRep st rep))) /\
  ole (Some (field_or_zero (rd_pipAngle rd))) (maxPipAngle (rom (foldRep st rep))) /\
  ole (Some (field_or_zero (rd_dipAngle rd))) (maxDipAngle (rom (foldRep st rep))) /\
  ole (Some (field_or_zero (rd_totalActiveRom rd)))
      (totalActiveRom (rom (foldRep st rep))).
Proof.
  intros Hrd. unfold foldRep. rewrite Hrd.
  destruct (motionData rep); cbn; repeat split; apply Math_max_r.
Qed.

Lemma finalizeFingers_rom
    (kap : list MotionFrame -> option KapandjiResult)
    (calc : list MotionFrame -> option AllFingersROM)
    (name : option String.string) (m : RomMaxima) (frames : list MotionFrame) :
  let m' := fst (finalizeFingers kap calc name m frames) in
  maxMcpAngle m' = maxMcpAngle m /\ maxPipAngle m' = maxPipAngle m /\
  maxDipAngle m' = maxDipAngle m /\
  (isKapandji name = false -> totalActiveRom m' = totalActiveRom m).
Proof.
  unfold finalizeFingers. destruct frames as [| fr frames]; [cbn; tauto |].
  destruct (isKapandji name).
  - destruct (kap (fr :: frames)); cbn; repeat split; try reflexivity; discriminate.
  - destruct (calc (fr :: frames)); cbn; tauto.
Qed.

Lemma row_rom_eq
    (kap : list MotionFrame -> option KapandjiResult)
    (calc : list MotionFrame -> option AllFingersROM)
    (now : Z) (existing : list Z) (id : Z) (name : option String.string)
    (body : Body) (reps : list Repetition) :
  repetitionData body = Some reps ->
  row_rom (completeAssessment kap calc now existing id name body)
  = fst (finalizeFingers kap calc name
           (rom (fold_left foldRep reps (initialState body)))
           (allMotionFrames (fold_left foldRep reps (initialState body)))).
Proof.
  intros Hreps. unfold completeAssessment. rewrite Hreps.
  destruct (finalizeFingers kap calc name _ _) as [m f]. reflexivity.
Qed.

Lemma row_wrist_eq
    (kap : list MotionFrame -> option KapandjiResult)
    (calc : list MotionFrame -> option AllFingersROM)
    (now : Z) (existing : list Z) (id : Z) (name : option String.string)
    (body : Body) (reps : list Repetition) :
  repetitionData body = Some reps ->
  row_wrist (completeAssessment kap calc now existing id name body)
  = updateMaxWrist (wristMax (fold_left foldRep reps (initialState body))).
Proof.
  intros Hreps. unfold completeAssessment. rewrite Hreps.
  destruct (finalizeFingers kap calc name _ _) as [m f]. reflexivity.
Qed.

Lemma row_handType_eq
    (kap : list MotionFrame -> option KapandjiResult)
    (calc : list MotionFrame -> option AllFingersROM)
    (now : Z) (existing : list Z) (id : Z) (name : option String.string)
    (body : Body) :
  row_handType (completeAssessment kap calc now existing id name body) = handType body.
Proof.
  unfold completeAssessment. destruct (repetitionData body) as [reps |]; [| reflexivity].
  destruct (finalizeFingers kap calc name _ _) as [m f]. reflexivity.
Qed.

(** X7. The index finger maxima of the stored row bound every
    repetition of the request: with [repetitionData] present, each of the
    stored MCP, PIP and DIP maxima is a number that is at least the value
    of every repetition carrying [romData] (an absent or null value
    counting as 0) and never negative; so is the stored total active motion
    unless the assessment is the Kapandji score, which overwrites it. *)
Theorem stored_rom_bounds_every_repetition :
  forall (kap : list MotionFrame -> option KapandjiResult)
         (calc : list MotionFrame -> option AllFingersROM)
         (now : Z) (existing : list Z) (id : Z) (name : option String.string)
         (body : Body) (reps : list Repetition) (rep : Repetition) (rd : RomData),
    repetitionData body = Some reps ->
    In rep reps ->
    romData rep = Some rd ->
    let m := row_rom (completeAssessment kap calc now existing id name body) in
    (ole (Some (field_or_zero (rd_mcpAngle rd))) (maxMcpAngle m) /\
     ole (Some 0) (maxMcpAngle m)) /\
    (ole (Some (field_or_zero (rd_pipAngle rd))) (maxPipAngle m) /\
     ole (Some 0) (maxPipAngle m)) /\
    (ole (Some (field_or_zero (rd_dipAngle rd))) (maxDipAngle m) /\
     ole (Some 0) (maxDipAngle m)) /\
    (isKapandji name = false ->
     ole (Some (field_or_zero (rd_totalActiveRom rd))) (totalActiveRom m) /\
     ole (Some 0) (totalActiveRom m)).
Proof.
  intros kap calc now existing id name body reps rep rd Hreps Hin Hrd m.
  subst m. rewrite (row_rom_eq kap calc now existing id name body reps Hreps).
  set (st := fold_left foldRep reps (initialState body)).
  destruct (finalizeFingers_rom kap calc name (rom st) (allMotionFrames st))
    as (E1 & E2 & E3 & E4).
  rewrite E1, E2, E3.
  (* every repetition's values are reached *)
  assert (Hreach :
    ole (Some (field_or_zero (rd_mcpAngle rd))) (maxMcpAngle (rom st)) /\
    ole (Some (field_or_zero (rd_pipAngle rd))) (maxPipAngle (rom st)) /\
    ole (Some (field_or_zero (rd_dipAngle rd))) (maxDipAngle (rom st)) /\
    ole (Some (field_or_zero (rd_totalActiveRom rd))) (totalActiveRom (rom st))).
  { subst st.
    apply (fold_left_reaches foldRep
             (fun s =>
                ole (Some (field_or_zero (rd_mcpAngle rd))) (maxMcpAngle (rom s)) /\
                ole (Some (field_or_zero (rd_pipAngle rd))) (maxPipAngle (rom s)) /\
                ole (Some (field_or_zero (rd_dipAngle rd))) (maxDipAngle (rom s)) /\
                ole (Some (field_or_zero (rd_totalActiveRom rd)))
                    (totalActiveRom (rom s))) rep reps).
    - intros s. now apply foldRep_rom_reaches.
    - intros s b (H1 & H2 & H3 & H4).
      destruct (foldRep_mono s b) as [(K1 & K2 & K3 & K4) _].
      repeat split; eapply ole_trans; eassumption.
    - exact Hin. }
  (* the maxima are never negative *)
  assert (Hnonneg :
    forall sel, In sel [maxMcpAngle; maxPipAngle; maxDipAngle; totalActiveRom] ->
                ole (Some 0) (sel (rom st)) \/ sel (rom st) = None).
  { subst st.
    apply (fold_left_keeps foldRep
             (fun s => forall sel,
                  In sel [maxMcpAngle; maxPipAngle; maxDipAngle; totalActiveRom] ->
                  ole (Some 0) (sel (rom s)) \/ sel (rom s) = None)).
    - intros s b Hs. now apply foldRep_rom_nonneg.
    - intros sel Hsel. right. cbn in Hsel.
      destruct Hsel as [<- | [<- | [<- | [<- | []]]]]; reflexivity. }
  assert (Hpos : forall sel v,
             In sel [maxMcpAngle; maxPipAngle; maxDipAngle; totalActiveRom] ->
             ole (Some v) (sel (rom st)) -> ole (Some 0) (sel (rom st))).
  { intros sel v Hsel Hv. destruct (Hnonneg sel Hsel) as [H | H]; [exact H |].
    rewrite H in Hv. destruct Hv. }
  destruct Hreach as (R1 & R2 & R3 & R4).
  repeat split; try assumption.
  - apply (Hpos maxMcpAngle _ (or_introl eq_refl) R1).
  - apply (Hpos maxPipAngle _ (or_intror (or_introl eq_refl)) R2).
  - apply (Hpos maxDipAngle _ (or_intror (or_intror (or_introl eq_refl))) R3).
  - rewrite (E4 H). exact R4.
  - rewrite (E4 H).
    apply (Hpos totalActiveRom _
             (or_intror (or_intror (or_intror (or_introl eq_refl)))) R4).
Qed.

Lemma stored_rom_bounds_every_repetition_witness :
  ole (Some 135) (totalActiveRom (row_rom sample_row)) /\
  ole (Some 0) (maxMcpAngle (row_rom sample_row)).
Proof.
  pose proof (stored_rom_bounds_every_repetition
                (fun _ => None) (fun _ => Some sample_rom) 0%Z [] 1%Z
                (Some "TAM Assessment"%string) sample_body
                [mkRepetition (Some (mkRomData (JNum 45) (JNum 60) (JNum 30) (JNum 135)))
                   JUndefined JUndefined JUndefined JUndefined (Some [sample_frame])]
                (mkRepetition (Some (mkRomData (JNum 45) (JNum 60) (JNum 30) (JNum 135)))
                   JUndefined JUndefined JUndefined JUndefined (Some [sample_frame]))
                (mkRomData (JNum 45) (JNum 60) (JNum 30) (JNum 135))
                eq_refl (or_introl eq_refl) eq_refl) as H.
  destruct H as ((_ & H0) & _ & _ & H4).
  split; [apply (H4 eq_refl) | exact H0].
Defined.

(** ** The wrist maxima *)

Lemma foldFrames_reach_flexion (frames : list MotionFrame) (frame : MotionFrame)
    (fw : WristAngles) (q : Q) (w : WristMaxima) :
  In frame frames -> wristAngles frame = Some fw -> wa_wristFlexionAngle fw = JNum q ->
  ole (Some q) (wristFlexionAngle (fold_left foldFrame frames w)).
Proof.
  intros Hin Hfw Hq.
  apply (fold_left_reaches foldFrame
           (fun s => ole (Some q) (wristFlexionAngle s)) frame frames).
  - intros s. unfold foldFrame. rewrite Hfw. cbn. rewrite Hq. cbn. apply Math_max_r.
  - intros s b Hs. destruct (foldFrame_mono s b) as (K & _).
    eapply ole_trans; eassumption.
  - exact Hin.
Qed.

Lemma foldFrames_reach_extension (frames : list MotionFrame) (frame : MotionFrame)
    (fw : WristAngles) (q : Q) (w : WristMaxima) :
  In frame frames -> wristAngles frame = Some fw -> wa_wristExtensionAngle fw = JNum q ->
  ole (Some q) (wristExtensionAngle (fold_left foldFrame frames w)).
Proof.
  intros Hin Hfw Hq.
  apply (fold_left_reaches foldFrame
           (fun s => ole (Some q) (wristExtensionAngle s)) frame frames).
  - intros s. unfold foldFrame. rewrite Hfw. cbn. rewrite Hq. cbn. apply Math_max_r.
  - intros s b Hs. destruct (foldFrame_mono s b) as (_ & K & _).
    eapply ole_trans; eassumption.
  - exact Hin.
Qed.

(** The wrist maxima a repetition leaves behind, before its frames. *)
Lemma foldRep_wrist (st : LoopState) (rep : Repetition) :
  exists w1,
    le_wrist w1 (wristMax (foldRep st rep)) /\
    wristFlexionAngle w1
    = foldRepField (wristFlexionAngle (wristMax st)) (rep_wristFlexionAngle rep) /\
    wristExtensionAngle w1
    = foldRepField (wristExtensionAngle (wristMax st)) (rep_wristExtensionAngle rep) /\
    maxWristFlexion w1
    = foldRepField (maxWristFlexion (wristMax st)) (rep_maxWristFlexion rep) /\
    maxWristExtension w1
    = foldRepField (maxWristExtension (wristMax st)) (rep_maxWristExtension rep) /\
    (forall frames, motionData rep = Some frames ->
                    wristMax (foldRep st rep) = fold_left foldFrame frames w1).
Proof.
  eexists (mkWristMaxima _ _ _ _). unfold foldRep.
  destruct (motionData rep) as [frames |]; cbn [wristMax].
  - split; [apply foldFrames_mono |].
    cbn. repeat split. intros frames' H. now injection H as <-.
  - split; [apply le_wrist_refl |].
    cbn. repeat split. intros frames' H. discriminate.
Qed.

Lemma keeps_wrist (sel : WristMaxima -> option Q) (q : Q) :
  In sel [wristFlexionAngle; wristExtensionAngle; maxWristFlexion; maxWristExtension] ->
  forall (s : LoopState) (b : Repetition),
    ole (Some q) (sel (wristMax s)) -> ole (Some q) (sel (wristMax (foldRep s b))).
Proof.
  intros Hsel s b Hs. destruct (foldRep_mono s b) as [_ (K1 & K2 & K3 & K4)].
  cbn in Hsel.
  destruct Hsel as [<- | [<- | [<- | [<- | []]]]]; eapply ole_trans; eassumption.
Qed.

Lemma reps_reach_wrist (sel : WristMaxima -> option Q) (q : Q)
    (reps : list Repetition) (rep : Repetition) (st : LoopState) :
  In sel [wristFlexionAngle; wristExtensionAngle; maxWristFlexion; maxWristExtension] ->
  In rep reps ->
  (forall s, ole (Some q) (sel (wristMax (foldRep s rep)))) ->
  ole (Some q) (sel (wristMax (fold_left foldRep reps st))).
Proof.
  intros Hsel Hrep Hset.
  apply (fold_left_reaches foldRep (fun s => ole (Some q) (sel (wristMax s))) rep reps).
  - exact Hset.
  - now apply keeps_wrist.
  - exact Hrep.
Qed.

Lemma foldRep_sets_flexion (s : LoopState) (rep : Repetition) (q : Q) :
  rep_wristFlexionAngle rep = JNum q ->
  ole (Some q) (wristFlexionAngle (wristMax (foldRep s rep))).
Proof.
  intros Hq. destruct (foldRep_wrist s rep) as (w1 & (L1 & _) & E1 & _).
  eapply ole_trans; [| exact L1]. rewrite E1, Hq. cbn. apply Math_max_r.
Qed.

Lemma foldRep_sets_extension (s : LoopState) (rep : Repetition) (q : Q) :
  rep_wristExtensionAngle rep = JNum q ->
  ole (Some q) (wristExtensionAngle (wristMax (foldRep s rep))).
Proof.
  intros Hq. destruct (foldRep_wrist s rep) as (w1 & (_ & L2 & _) & _ & E2 & _).
  eapply ole_trans; [| exact L2]. rewrite E2, Hq. cbn. apply Math_max_r.
Qed.

Lemma foldRep_sets_maxFlexion (s : LoopState) (rep : Repetition) (q : Q) :
  rep_maxWristFlexion rep = JNum q ->
  ole (Some q) (maxWristFlexion (wristMax (foldRep s rep))).
Proof.
  intros Hq. destruct (foldRep_wrist s rep) as (w1 & (_ & _ & L3 & _) & _ & _ & E3 & _).
  eapply ole_trans; [| exact L3]. rewrite E3, Hq. cbn. apply Math_max_r.
Qed.

Lemma foldRep_sets_maxExtension (s : LoopState) (rep : Repetition) (q : Q) :
  rep_maxWristExtension rep = JNum q ->
  ole (Some q) (maxWristExtension (wristMax (foldRep s rep))).
Proof.
  intros Hq.
  destruct (foldRep_wrist s rep) as (w1 & (_ & _ & _ & L4) & _ & _ & _ & E4 & _).
  eapply ole_trans; [| exact L4]. rewrite E4, Hq. cbn. apply Math_max_r.
Qed.

Lemma updateMaxWrist_above (w : WristMaxima) :
  ole (wristFlexionAngle (updateMaxWrist w)) (maxWristFlexion (updateMaxWrist w)) /\
  ole (wristExtensionAngle (updateMaxWrist w)) (maxWristExtension (updateMaxWrist w)).
Proof.
  unfold updateMaxWrist. cbn. split.
  - destruct (wristFlexionAngle w); cbn; [apply Math_max_r | exact I].
  - destruct (wristExtensionAngle w); cbn; [apply Math_max_r | exact I].
Qed.

(** ** Wrist maxima that are null or not negative *)

Lemma foldRepField_nonneg (cur : option Q) (v : jsnum) :
  ole (Some 0) cur \/ cur = None ->
  ole (Some 0) (foldRepField cur v) \/ foldRepField cur v = None.
Proof.
  intros H. destruct v; cbn [foldRepField]; [exact H | left ..]; cbn;
    now apply Math_max_nonneg_l, or_zero_nonneg.
Qed.

Lemma foldFrameField_nonneg (cur : option Q) (v : jsnum) :
  ole (Some 0) cur \/ cur = None ->
  ole (Some 0) (foldFrameField cur v) \/ foldFrameField cur v = None.
Proof.
  intros H. destruct v; cbn [foldFrameField]; [exact H .. | left]; cbn;
    now apply Math_max_nonneg_l, or_zero_nonneg.
Qed.

Lemma foldFrame_nonneg (w : WristMaxima) (frame : MotionFrame) :
  (forall sel,
      In sel [wristFlexionAngle; wristExtensionAngle; maxWristFlexion; maxWristExtension] ->
      ole (Some 0) (sel w) \/ sel w = None) ->
  forall sel,
    In sel [wristFlexionAngle; wristExtensionAngle; maxWristFlexion; maxWristExtension] ->
    ole (Some 0) (sel (foldFrame w frame)) \/ sel (foldFrame w frame) = None.
Proof.
  intros Hw sel Hsel. unfold foldFrame.
  destruct (wristAngles frame) as [fw |]; [| now apply Hw].
  cbn in Hsel. destruct Hsel as [<- | [<- | [<- | [<- | []]]]]; cbn;
    try apply foldFrameField_nonneg; apply Hw; cbn; tauto.
Qed.

Lemma foldRep_wrist_nonneg (st : LoopState) (rep : Repetition) :
  (forall sel,
      In sel [wristFlexionAngle; wristExtensionAngle; maxWristFlexion; maxWristExtension] ->
      ole (Some 0) (sel (wristMax st)) \/ sel (wristMax st) = None) ->
  forall sel,
    In sel [wristFlexionAngle; wristExtensionAngle; maxWristFlexion; maxWristExtension] ->
    ole (Some 0) (sel (wristMax (foldRep st rep))) \/
    sel (wristMax (foldRep st rep)) = None.
Proof.
  intros Hst.
  assert (Hw1 : forall sel,
            In sel [wristFlexionAngle; wristExtensionAngle; maxWristFlexion;
                    maxWristExtension] ->
            ole (Some 0)
              (sel (mkWristMaxima
                      (foldRepField (wristFlexionAngle (wristMax st))
                         (rep_wristFlexionAngle rep))
                      (foldRepField (wristExtensionAngle (wristMax st))
                         (rep_wristExtensionAngle rep))
                      (foldRepField (maxWristFlexion (wristMax st))
                         (rep_maxWristFlexion rep))
                      (foldRepField (maxWristExtension (wristMax st))
                         (rep_maxWristExtension rep)))) \/
            sel (mkWristMaxima
                   (foldRepField (wristFlexionAngle (wristMax st))
                      (rep_wristFlexionAngle rep))
                   (foldRepField (wristExtensionAngle (wristMax st))
                      (rep_wristExtensionAngle rep))
                   (foldRepField (maxWristFlexion (wristMax st))
                      (rep_maxWristFlexion rep))
                   (foldRepField (maxWristExtension (wristMax st))
                      (rep_maxWristExtension rep))) = None).
  { intros sel Hsel. cbn in Hsel.
    destruct Hsel as [<- | [<- | [<- | [<- | []]]]]; cbn;
      apply foldRepField_nonneg, Hst; cbn; tauto. }
  unfold foldRep. destruct (motionData rep) as [frames |]; cbn [wristMax];
    [| exact Hw1].
  apply (fold_left_keeps foldFrame
           (fun w => forall sel,
                In sel [wristFlexionAngle; wristExtensionAngle; maxWristFlexion;
                        maxWristExtension] ->
                ole (Some 0) (sel w) \/ sel w = None)).
  - intros w frame Hw. now apply foldFrame_nonneg.
  - exact Hw1.
Qed.

(** X8. The wrist figures of the stored row bound every wrist reading of
    the request: with [repetitionData] present, the stored wrist flexion
    (extension) angle is at least every repetition's own angle and every
    motion frame's angle, the stored maximum is at least every
    repetition's maximum, and the stored maximum is never below the
    stored angle. *)
Theorem stored_wrist_bounds_every_reading :
  forall (kap : list MotionFrame -> option KapandjiResult)
         (calc : list MotionFrame -> option AllFingersROM)
         (now : Z) (existing : list Z) (id : Z) (name : option String.string)
         (body : Body) (reps : list Repetition),
    repetitionData body = Some reps ->
    let w := row_wrist (completeAssessment kap calc now existing id name body) in
    (ole (wristFlexionAngle w) (maxWristFlexion w) /\
     ole (wristExtensionAngle w) (maxWristExtension w)) /\
    (forall rep q, In rep reps ->
       (rep_wristFlexionAngle rep = JNum q -> ole (Some q) (wristFlexionAngle w)) /\
       (rep_wristExtensionAngle rep = JNum q -> ole (Some q) (wristExtensionAngle w)) /\
       (rep_maxWristFlexion rep = JNum q -> ole (Some q) (maxWristFlexion w)) /\
       (rep_maxWristExtension rep = JNum q -> ole (Some q) (maxWristExtension w))) /\
    (forall rep frames frame fw q,
       In rep reps -> motionData rep = Some frames -> In frame frames ->
       wristAngles frame = Some fw ->
       (wa_wristFlexionAngle fw = JNum q -> ole (Some q) (wristFlexionAngle w)) /\
       (wa_wristExtensionAngle fw = JNum q -> ole (Some q) (wristExtensionAngle w))).
Proof.
  intros kap calc now existing id name body reps Hreps w. subst w.
  rewrite (row_wrist_eq kap calc now existing id name body reps Hreps).
  set (st := fold_left foldRep reps (initialState body)).
  destruct (updateMaxWrist_mono (wristMax st)) as (U1 & U2 & U3 & U4).
  split; [apply updateMaxWrist_above | split].
  - intros rep q Hrep. repeat split; intros Hq.
    + eapply ole_trans; [| exact U1].
      apply (reps_reach_wrist wristFlexionAngle q reps rep); [cbn; tauto | exact Hrep |].
      intros s. now apply foldRep_sets_flexion.
    + eapply ole_trans; [| exact U2].
      apply (reps_reach_wrist wristExtensionAngle q reps rep); [cbn; tauto | exact Hrep |].
      intros s. now apply foldRep_sets_extension.
    + eapply ole_trans; [| exact U3].
      apply (reps_reach_wrist maxWristFlexion q reps rep); [cbn; tauto | exact Hrep |].
      intros s. now apply foldRep_sets_maxFlexion.
    + eapply ole_trans; [| exact U4].
      apply (reps_reach_wrist maxWristExtension q reps rep); [cbn; tauto | exact Hrep |].
      intros s. now apply foldRep_sets_maxExtension.
  - intros rep frames frame fw q Hrep Hframes Hframe Hfw. split; intros Hq.
    + eapply ole_trans; [| exact U1].
      apply (reps_reach_wrist wristFlexionAngle q reps rep); [cbn; tauto | exact Hrep |].
      intros s. destruct (foldRep_wrist s rep) as (w1 & _ & _ & _ & _ & _ & E).
      rewrite (E frames Hframes).
      now apply (foldFrames_reach_flexion frames frame fw).
    + eapply ole_trans; [| exact U2].
      apply (reps_reach_wrist wristExtensionAngle q reps rep); [cbn; tauto | exact Hrep |].
      intros s. destruct (foldRep_wrist s rep) as (w1 & _ & _ & _ & _ & _ & E).
      rewrite (E frames Hframes).
      now apply (foldFrames_reach_extension frames frame fw).
Qed.

Lemma stored_wrist_bounds_every_reading_witness :
  ole (Some 42) (maxWristFlexion (row_wrist wrist_row)).
Proof.
  pose proof (stored_wrist_bounds_every_reading
                (fun _ => None) (fun _ => None) 0%Z [] 3%Z
                (Some "Wrist Flexion"%string) wrist_body
                [wrist_repetition] eq_refl) as H.
  destruct H as ((H1 & _) & _ & H3).
  eapply ole_trans; [| exact H1].
  apply (H3 wrist_repetition [wrist_frame] wrist_frame
            (mkWristAngles (JNum 42) (JNum 0)) 42
            (or_introl eq_refl) eq_refl (or_introl eq_refl) eq_refl).
  reflexivity.
Defined.

End CompleteBoundsFacts.

(* ===================================================================== *)
(** * Two runs on the same frames *)
(* ===================================================================== *)

Module DeterminismFacts.
Import Js JsFacts Complete CompleteFacts CompleteFrames CompleteBoundsFacts.
Import String.
Local Open Scope Q_scope.





End DeterminismFacts.

(* ===================================================================== *)
(** * Rounding of integer quotients *)
(* ===================================================================== *)

Module RoundingFacts.
Local Open Scope Z_scope.

(** [Math.floor(a / b)] on integers is the floored integer division. *)
Lemma Qfloor_div (a : Z) (p : positive) :
  Qfloor (inject_Z a / inject_Z (Zpos p)) = a / Zpos p.
Proof.
  unfold Qdiv, Qmult, Qinv, inject_Z, Qfloor. cbn.
  now rewrite Z.mul_1_r.
Qed.

(** [q <= a / b] for a floored division by a positive number. *)
Lemma div_ge_iff (a b q : Z) : 0 < b -> (q <= a / b <-> b * q <= a).
Proof.
  intros Hb. pose proof (Z.div_mod a b ltac:(lia)) as Hdm.
  pose proof (Z.mod_pos_bound a b Hb) as Hm. split; intros H; nia.
Qed.

End RoundingFacts.

(* ===================================================================== *)
(** * Properties of the patient-facing read endpoints *)
(* ===================================================================== *)

Module RoutesFacts.
Import Js Routes RoundingFacts.
Import Permutation Sorted.
Import String.
Local Open Scope Z_scope.

Lemma DAY_pos : 0 < DAY.
Proof. reflexivity. Qed.

Lemma isoDate_back (now k : Z) : isoDate (now - k * DAY) = isoDate now - k.
Proof.
  unfold isoDate. replace (now - k * DAY) with (now + (- k) * DAY) by ring.
  rewrite Z.div_add by (pose proof DAY_pos; lia). ring.
Qed.

(** ** The descending sort *)

Section Sorting.
Context {A : Type} (key : A -> Z).

Lemma insertDesc_perm (x : A) (l : list A) : Permutation (insertDesc key x l) (x :: l).
Proof.
  induction l as [| y l IH]; cbn; [reflexivity |].
  destruct (key y <=? key x); [reflexivity |].
  rewrite IH. apply perm_swap.
Qed.

Lemma sortDesc_perm (l : list A) : Permutation (sortDesc key l) l.
Proof.
  induction l as [| x l IH]; cbn; [reflexivity |].
  rewrite insertDesc_perm. now constructor.
Qed.

Lemma insertDesc_sorted (x : A) (l : list A) :
  StronglySorted (fun a b => key b <= key a) l ->
  StronglySorted (fun a b => key b <= key a) (insertDesc key x l).
Proof.
  induction 1 as [| y l Hs IH Hy]; cbn.
  - constructor; constructor.
  - destruct (key y <=? key x) eqn:E.
    + apply Z.leb_le in E. constructor; [now constructor |].
      constructor; [exact E |].
      eapply Forall_impl; [| exact Hy]. cbn. intros a Ha. lia.
    + apply Z.leb_gt in E. constructor; [exact IH |].
      eapply Permutation_Forall; [symmetry; apply insertDesc_perm |].
      constructor; [lia | exact Hy].
Qed.

Lemma sortDesc_sorted (l : list A) :
  StronglySorted (fun a b => key b <= key a) (sortDesc key l).
Proof.
  induction l as [| x l IH]; cbn; [constructor | now apply insertDesc_sorted].
Qed.

(** The head of the sorted list is an entry with the largest key. *)
Lemma sortDesc_head (l : list A) (x : A) :
  hd_error (sortDesc key l) = Some x ->
  In x l /\ Forall (fun y => key y <= key x) l.
Proof.
  intros H. pose proof (sortDesc_perm l) as Hp. pose proof (sortDesc_sorted l) as Hs.
  destruct (sortDesc key l) as [| y ys]; [discriminate |].
  cbn in H. injection H as ->. split.
  - eapply Permutation_in; [exact Hp | now left].
  - eapply Permutation_Forall; [exact Hp |].
    inversion Hs as [| ? ? _ Hall]; subst.
    constructor; [lia | exact Hall].
Qed.

Lemma sortDesc_nil (l : list A) : hd_error (sortDesc key l) = None -> l = [].
Proof.
  intros H. pose proof (sortDesc_perm l) as Hp.
  destruct (sortDesc key l); [| discriminate].
  now apply Permutation_nil in Hp.
Qed.

End Sorting.

(** ** History *)

Lemma historyName_nonempty (assessments : list Assessment) (ua : UserAssessment) :
  historyName assessments ua <> EmptyString.
Proof.
  unfold historyName. destruct (ua_assessmentId ua =? 6); [discriminate |].
  destruct (find _ assessments) as [a |]; [| discriminate].
  destruct (String.eqb (a_name a) EmptyString) eqn:E; [discriminate |].
  now apply String.eqb_neq in E.
Qed.

(** X9. The history lists every completed row of the patient exactly
    once and nothing else, the most recently completed first (a row
    without a completion date counting as the epoch); a DASH row (assessment
    6) is named "DASH Survey" whatever the assessment table says, and no
    entry has an empty name. *)
Theorem history_lists_completed_newest_first :
  forall (assessments : list Assessment) (userAssessments : list UserAssessment),
    let h := history assessments userAssessments in
    Permutation h (map (historyEntry assessments)
                     (filter ua_isCompleted userAssessments)) /\
    StronglySorted (fun a b => historyTime b <= historyTime a) h /\
    (forall e, In e h ->
       (h_assessmentId e = 6 -> h_assessmentName e = "DASH Survey"%string) /\
       h_assessmentName e <> EmptyString).
Proof.
  intros assessments userAssessments h.
  assert (Hh : h = sortDesc historyTime
                     (map (historyEntry assessments)
                        (filter ua_isCompleted userAssessments))).
  { subst h. unfold history. destruct userAssessments; reflexivity. }
  rewrite Hh. split; [apply sortDesc_perm | split; [apply sortDesc_sorted |]].
  intros e He.
  apply (Permutation_in _ (sortDesc_perm historyTime _)) in He.
  apply in_map_iff in He. destruct He as (ua & <- & _). cbn. split.
  - intros H6. unfold historyName. apply Z.eqb_eq in H6. now rewrite H6.
  - apply historyName_nonempty.
Qed.

(** ** The assessment list *)

Lemma StronglySorted_weaken {A : Type} (R1 R2 : A -> A -> Prop) (l : list A) :
  (forall a b, R1 a b -> R2 a b) -> StronglySorted R1 l -> StronglySorted R2 l.
Proof.
  intros Himp. induction 1 as [| x l Hs IH Hx]; constructor; [exact IH |].
  eapply Forall_impl; [| exact Hx]. intros b. apply Himp.
Qed.

(** X10. The assessment list has one entry per assessment, ordered by
    [orderIndex].  An entry is marked completed exactly when the patient
    has a completed session of that assessment, and then the completion
    date and the session id shown are those of a completed session with the
    latest completion time. *)
Theorem assessment_list_shows_latest_completed_session :
  forall (allAssessments : list Assessment) (userAssessments : list UserAssessment),
    let l := assessmentsWithProgress allAssessments userAssessments in
    Permutation (map ap_assessment l) allAssessments /\
    StronglySorted (fun a b => a_orderIndex (ap_assessment a)
                               <= a_orderIndex (ap_assessment b)) l /\
    (forall e, In e l ->
       (ap_isCompleted e = true <->
        exists ua, In ua userAssessments /\
                   ua_assessmentId ua = a_id (ap_assessment e) /\
                   ua_isCompleted ua = true) /\
       (ap_isCompleted e = true ->
        exists ua, In ua userAssessments /\
                   ua_assessmentId ua = a_id (ap_assessment e) /\
                   ua_isCompleted ua = true /\
                   ap_userAssessmentId e = Some (ua_id ua) /\
                   ap_completedAt e = ua_completedAt ua /\
                   (forall other, In other userAssessments ->
                      ua_assessmentId other = a_id (ap_assessment e) ->
                      ua_isCompleted other = true -> timeOf other <= timeOf ua))).
Proof.
  intros all rows l. subst l. unfold assessmentsWithProgress.
  split; [| split].
  - rewrite (sortDesc_perm _ _). rewrite map_map. cbn. now rewrite map_id.
  - eapply StronglySorted_weaken; [| apply sortDesc_sorted].
    cbv beta. intros a b H. lia.
  - intros e He.
    apply (Permutation_in _ (sortDesc_perm _ _)) in He.
    apply in_map_iff in He. destruct He as (a & <- & _).
    unfold withProgress. cbn [ap_isCompleted ap_assessment ap_completedAt
                                ap_userAssessmentId].
    set (mine := filter (fun ua => ua_assessmentId ua =? a_id a) rows).
    assert (Hmine : forall ua, In ua mine <->
                               In ua rows /\ ua_assessmentId ua = a_id a).
    { intros ua. subst mine. rewrite filter_In, Z.eqb_eq. tauto. }
    split.
    + rewrite existsb_exists. split.
      * intros (ua & Hin & Hc). apply Hmine in Hin. exists ua. tauto.
      * intros (ua & Hin & Hid & Hc). exists ua. split; [apply Hmine; tauto | exact Hc].
    + intros Hc. unfold representativeSession.
      destruct (hd_error (sortDesc timeOf (filter ua_isCompleted mine))) as [ua |] eqn:Eh.
      * apply sortDesc_head in Eh. destruct Eh as [Hin Hmax].
        apply filter_In in Hin. destruct Hin as [Hin Hua]. apply Hmine in Hin.
        exists ua. cbn [option_map]. repeat split; try tauto.
        intros other Ho Hoid Hoc. rewrite Forall_forall in Hmax. apply Hmax.
        apply filter_In. split; [apply Hmine; tauto | exact Hoc].
      * apply sortDesc_nil in Eh. exfalso.
        apply existsb_exists in Hc. destruct Hc as (ua & Hin & Hua).
        assert (Hf : In ua (filter ua_isCompleted mine)) by (apply filter_In; tauto).
        rewrite Eh in Hf. destruct Hf.
Qed.

(** ** Progress *)

(** [Math.round((c / t) * 100)] in integer arithmetic. *)
Lemma round_percent (c t : Z) :
  0 < t ->
  Dash.Math_round ((inject_Z c / inject_Z t) * 100)%Q = (200 * c + t) / (2 * t).
Proof.
  intros Ht. unfold Dash.Math_round.
  destruct t as [| p | p]; try lia.
  replace (2 * Z.pos p) with (Z.pos (2 * p)) by reflexivity.
  rewrite <- Qfloor_div. apply Qfloor_comp.
  rewrite !inject_Z_plus, !inject_Z_mult. 
  change (Z.pos (2 * p)) with (2 * Z.pos p). rewrite inject_Z_mult.
  assert (Hp : ~ (inject_Z (Z.pos p) == 0)%Q).
  { intros H. apply (Qeq_bool_neq (inject_Z (Z.pos p)) 0); [reflexivity | exact H]. }
  field. exact Hp.
Qed.

(** X11. The progress percentage is 0 when there is no assessment type
    and never negative; it counts completed rows, not assessment types, so it
    stays within 100 exactly while [200 * completed < 201 * total], and
    repeated sessions push it beyond. *)
Theorem progress_percentage_range :
  forall (userAssessments : list UserAssessment) (allAssessments : list Assessment),
    let p := progress userAssessments allAssessments in
    0 <= percentage p /\
    (total p = 0 -> percentage p = 0) /\
    (completed p <= total p -> percentage p <= 100) /\
    (0 < total p -> (percentage p <= 100 <-> 200 * completed p < 201 * total p)).
Proof.
  intros userAssessments allAssessments p. subst p. unfold progress.
  cbn [percentage total completed].
  set (c := Z.of_nat (List.length (filter ua_isCompleted userAssessments))).
  set (t := Z.of_nat (List.length allAssessments)).
  assert (Hc : 0 <= c) by apply Nat2Z.is_nonneg.
  assert (Ht : 0 <= t) by apply Nat2Z.is_nonneg.
  destruct (0 <? t) eqn:E.
  - apply Z.ltb_lt in E. rewrite (round_percent c t E).
    assert (Hlow : 0 <= (200 * c + t) / (2 * t)) by (apply Z.div_pos; lia).
    assert (Hiff : (200 * c + t) / (2 * t) <= 100 <-> 200 * c < 201 * t).
    { pose proof (div_ge_iff (200 * c + t) (2 * t) 101 ltac:(lia)) as H. lia. }
    repeat split; try lia; apply Hiff; lia.
  - apply Z.ltb_ge in E. repeat split; lia.
Qed.

(** ** Motion data *)

Lemma extract_from (reps : list Complete.Repetition) (acc : list Complete.MotionFrame) :
  fold_left (fun motionData rep =>
               match Complete.motionData rep with
               | Some frames => motionData ++ frames
               | None => motionData
               end) reps acc
  = acc ++ extractMotionData reps.
Proof.
  unfold extractMotionData. revert acc.
  induction reps as [| rep reps IH]; intros acc; cbn [fold_left].
  - now rewrite app_nil_r.
  - rewrite IH. rewrite (IH (match Complete.motionData rep with
                             | Some frames => [] ++ frames
                             | None => []
                             end)).
    destruct (Complete.motionData rep); cbn; [now rewrite app_assoc | reflexivity].
Qed.

Lemma allMotionFrames_fold (reps : list Complete.Repetition) (st : Complete.LoopState) :
  Complete.allMotionFrames (fold_left Complete.foldRep reps st)
  = Complete.allMotionFrames st ++ extractMotionData reps.
Proof.
  revert st. induction reps as [| rep reps IH]; intros st; cbn [fold_left].
  - unfold extractMotionData. cbn. now rewrite app_nil_r.
  - rewrite IH. unfold extractMotionData at 2. cbn [fold_left]. rewrite extract_from.
    unfold Complete.foldRep.
    destruct (Complete.motionData rep); cbn; [now rewrite app_assoc | reflexivity].
Qed.

(** X12. The frames the replay endpoint returns for a stored row are
    exactly the frames, in the same order, that the completion endpoint
    handed to the calculators when the row was stored with the request's
    [repetitionData]. *)
Theorem replay_returns_the_scored_frames :
  forall (getUserAssessments : Z -> option (list UserAssessment))
         (userAssessmentId : Z) (ua : UserAssessment)
         (body : Complete.Body) (reps : list Complete.Repetition),
    findUserAssessment getUserAssessments userAssessmentId = Some ua ->
    ua_repetitionData ua = Complete.repetitionData body ->
    Complete.repetitionData body = Some reps ->
    motionDataRoute getUserAssessments userAssessmentId
    = Json (Complete.allMotionFrames
              (fold_left Complete.foldRep reps (Complete.initialState body))).
Proof.
  intros getUA id ua body reps Hfind Hstored Hreps.
  unfold motionDataRoute. rewrite Hfind, Hstored, Hreps.
  now rewrite allMotionFrames_fold.
Qed.

Lemma replay_returns_the_scored_frames_witness :
  motionDataRoute sample_storage 7 = Json [CompleteSamples.wrist_frame].
Proof.
  apply (replay_returns_the_scored_frames sample_storage 7 stored_wrist_row
           CompleteSamples.wrist_body [CompleteSamples.wrist_repetition]);
    reflexivity.
Defined.

Lemma searchUsers_none (getUA : Z -> option (list UserAssessment))
    (id : Z) (n : nat) (start : Z) :
  searchUsers getUA n start id = None <->
  (forall userId rows ua,
      start <= userId < start + Z.of_nat n -> getUA userId = Some rows -> In ua rows ->
      ua_id ua <> id).
Proof.
  revert start. induction n as [| n IH]; intros start.
  - cbn. split; [intros _ userId rows ua H; lia | reflexivity].
  - cbn [searchUsers]. split.
    + intros H userId rows ua Hu Hrows Hin.
      assert (Hrest : searchUsers getUA n (start + 1) id = None).
      { destruct (getUA start) as [uas |]; [| exact H].
        destruct (find _ uas); [discriminate | exact H]. }
      destruct (Z.eq_dec userId start) as [-> | Hne].
      * rewrite Hrows in H.
        destruct (find (fun ua => ua_id ua =? id) rows) eqn:Ef; [discriminate |].
        intros Heq. apply (find_none _ _ Ef) in Hin. cbn in Hin.
        apply Z.eqb_neq in Hin. contradiction.
      * apply (proj1 (IH (start + 1)) Hrest userId rows ua); [lia | assumption ..].
    + intros H.
      assert (Hrest : searchUsers getUA n (start + 1) id = None).
      { apply IH. intros userId rows ua Hu. apply H. lia. }
      destruct (getUA start) as [uas |] eqn:Eu; [| exact Hrest].
      destruct (find (fun ua => ua_id ua =? id) uas) as [found |] eqn:Ef;
        [| exact Hrest].
      apply find_some in Ef. destruct Ef as [Hin Heq]. apply Z.eqb_eq in Heq.
      exfalso. apply (H start uas found); [lia | assumption ..].
Qed.

(** X13. The motion-data endpoint looks for the row among the rows of
    the users 1 to 100 only: it answers 404 whenever none of them holds a
    row with the requested id, although a user with a larger id may, and it
    finds a row exactly when one of them does. *)
Theorem motion_data_search_is_bounded :
  forall (getUserAssessments : Z -> option (list UserAssessment))
         (userAssessmentId : Z),
    (findUserAssessment getUserAssessments userAssessmentId = None <->
     (forall userId rows ua,
         1 <= userId <= 100 -> getUserAssessments userId = Some rows -> In ua rows ->
         ua_id ua <> userAssessmentId)) /\
    (findUserAssessment getUserAssessments userAssessmentId = None ->
     motionDataRoute getUserAssessments userAssessmentId = Status 404).
Proof.
  intros getUA id. split.
  - unfold findUserAssessment. rewrite searchUsers_none. split; intros H userId rows ua Hu.
    + apply H. cbn. lia.
    + apply H. cbn in Hu. lia.
  - intros H. unfold motionDataRoute. now rewrite H.
Qed.

(** ** The access code *)

(** X21. Whatever [Math.random()] returns in [0, 1), the access code
    generated for a new patient is an integer between 100000 and 999999:
    it has exactly six digits and no leading zero. *)
Theorem access_code_has_six_digits :
  forall r : Q, (0 <= r)%Q -> (r < 1)%Q -> 100000 <= accessCode r <= 999999.
Proof.
  intros r H0 H1. unfold accessCode. split.
  - change 100000 with (Qfloor (inject_Z 100000)) at 1.
    apply Qfloor_resp_le. unfold inject_Z. Lqa.lra.
  - assert (H : (inject_Z (Qfloor (100000 + r * 900000)) < inject_Z 1000000)%Q).
    { eapply Qle_lt_trans; [apply Qfloor_le |]. unfold inject_Z. Lqa.lra. }
    rewrite <- Zlt_Qlt in H. lia.
Qed.

Lemma access_code_has_six_digits_witness :
  100000 <= accessCode (1 # 2) <= 999999.
Proof.
  apply (access_code_has_six_digits (1 # 2)); [unfold Qle | unfold Qlt]; cbn; lia.
Defined.

End RoutesFacts.

(* ===================================================================== *)
(** * Properties of today's list, the streak and the calendar *)
(* ===================================================================== *)

Module ScheduleFacts.
Import Js Routes RoundingFacts RoutesFacts.
Import Permutation Sorted.
Import String.
Local Open Scope Z_scope.

(** ** The weekly DASH reminder *)

Lemma present_find {A : Type} (f : A -> bool) (l : list A) :
  present (find f l) = existsb f l.
Proof.
  induction l as [| x l IH]; cbn; [reflexivity |].
  destruct (f x); [reflexivity | exact IH].
Qed.

(** A DASH row was completed on the UTC day of [now]. *)
Lemma dashCompletedToday_iff (userAssessments : list UserAssessment) (now : Z) :
  present (find (fun ua => ua_assessmentId ua =? 6)
             (completedToday userAssessments now)) = true <->
  Exists (fun r => isoDate (timeOf r) = isoDate now) (dashRows userAssessments).
Proof.
  rewrite present_find, existsb_exists, Exists_exists. unfold completedToday, dashRows.
  split.
  - intros (ua & Hin & H6). apply filter_In in Hin. destruct Hin as [Hin Hc].
    apply andb_prop in Hc. destruct Hc as [Hc Hd]. apply Z.eqb_eq in Hd.
    exists ua. split; [| exact Hd].
    apply filter_In. split; [| exact Hc]. apply filter_In. now split.
  - intros (ua & Hin & Hd). apply filter_In in Hin. destruct Hin as [Hin Hc].
    apply filter_In in Hin. destruct Hin as [Hin H6].
    exists ua. split; [| exact H6].
    apply filter_In. split; [exact Hin |].
    rewrite Hc. cbn. now apply Z.eqb_eq.
Qed.

Lemma todayDash_present (user : User) (userAssessments : list UserAssessment) (now : Z) :
  present (todayDash user userAssessments now)
  = (6 <=? match lastDashAssessment userAssessments with
           | Some l => daysSince now (timeOf l)
           | None => daysSince now (match u_createdAt user with
                                    | Some t => t
                                    | None => now
                                    end)
           end)
    || ((0 <=? daysSince now (match u_createdAt user with
                              | Some t => t
                              | None => now
                              end))
        && negb (present (lastDashAssessment userAssessments)))
    || present (find (fun ua => ua_assessmentId ua =? 6)
                  (completedToday userAssessments now)).
Proof.
  unfold todayDash. cbv zeta.
  destruct (_ || _ || _); reflexivity.
Qed.

Lemma daysSince_ge (now t q : Z) : q <= daysSince now t <-> t + q * DAY <= now.
Proof.
  unfold daysSince. rewrite (div_ge_iff (now - t) DAY q DAY_pos). lia.
Qed.

(** X14. The weekly DASH reminder of today's list.  A patient who never
    completed a DASH survey gets the entry as soon as the account exists
    (creation date not in the future, or unknown).  Afterwards the entry
    is listed exactly when every completed DASH survey lies at least six
    times 24 hours back, or one was completed on the current UTC day; and
    the entry is marked completed exactly in the latter case. *)
Theorem today_dash_rule :
  forall (user : User) (userAssessments : list UserAssessment) (now : Z),
    (dashRows userAssessments = [] ->
     (present (todayDash user userAssessments now) = true <->
      match u_createdAt user with
      | Some created => created <= now
      | None => True
      end)) /\
    (dashRows userAssessments <> [] ->
     (present (todayDash user userAssessments now) = true <->
      Forall (fun r => timeOf r + 6 * DAY <= now) (dashRows userAssessments) \/
      Exists (fun r => isoDate (timeOf r) = isoDate now) (dashRows userAssessments))) /\
    (forall e, todayDash user userAssessments now = Some e ->
       te_id e = 6 /\
       (te_isCompleted e = true <->
        Exists (fun r => isoDate (timeOf r) = isoDate now) (dashRows userAssessments))).
Proof.
  intros user rows now. split; [| split].
  - intros Hnil. rewrite todayDash_present.
    assert (Hlast : lastDashAssessment rows = None).
    { unfold lastDashAssessment. now rewrite Hnil. }
    assert (Htoday : present (find (fun ua => ua_assessmentId ua =? 6)
                                (completedToday rows now)) = false).
    { destruct (present _) eqn:E; [| reflexivity].
      apply dashCompletedToday_iff in E. rewrite Hnil in E. inversion E. }
    rewrite Hlast, Htoday. cbn [present negb]. rewrite andb_true_r, orb_false_r.
    rewrite orb_true_iff, !Z.leb_le, !daysSince_ge.
    pose proof DAY_pos. destruct (u_createdAt user) as [created |]; split; intros; lia.
  - intros Hne. rewrite todayDash_present.
    destruct (lastDashAssessment rows) as [l |] eqn:Hlast.
    + cbn [present negb]. rewrite andb_false_r, orb_false_r.
      rewrite orb_true_iff, dashCompletedToday_iff, Z.leb_le, daysSince_ge.
      apply sortDesc_head in Hlast. destruct Hlast as [Hin Hmax].
      split; (intros [H | H]; [left | now right]).
      * eapply Forall_impl; [| exact Hmax]. cbv beta. intros r Hr. lia.
      * rewrite Forall_forall in H. now apply H.
    + apply sortDesc_nil in Hlast. contradiction.
  - intros e He. unfold todayDash in He. cbv zeta in He.
    destruct (_ || _ || _); [| discriminate].
    injection He as <-. cbn. split; [reflexivity |]. apply dashCompletedToday_iff.
Qed.

(** X15. The two lists agree on a due reminder: for a patient whose
    account does not lie in the future, whenever the daily list carries the
    DASH reminder, today's list carries the DASH entry too. *)
Theorem daily_reminder_is_in_todays_list :
  forall (user : User) (userAssessments : list UserAssessment) (now : Z),
    match u_createdAt user with
    | Some created => created <= now
    | None => True
    end ->
    dailyDash user userAssessments now = true ->
    present (todayDash user userAssessments now) = true.
Proof.
  intros user rows now Hcreated Hdaily.
  rewrite todayDash_present. unfold dailyDash in Hdaily. cbv zeta in Hdaily.
  destruct (lastDashAssessment rows) as [l |].
  - cbn [present negb] in Hdaily. rewrite andb_false_r, orb_false_r in Hdaily.
    now rewrite Hdaily.
  - cbn [present negb]. rewrite andb_true_r.
    assert (H0 : (0 <=? daysSince now match u_createdAt user with
                                      | Some t => t
                                      | None => now
                                      end) = true).
    { apply Z.leb_le. apply daysSince_ge. destruct (u_createdAt user); lia. }
    rewrite H0. now rewrite orb_true_r.
Qed.

Lemma daily_reminder_is_in_todays_list_witness :
  present (todayDash sample_user sample_rows (20310 * DAY)) = true.
Proof.
  apply (daily_reminder_is_in_todays_list sample_user sample_rows (20310 * DAY)).
  - vm_compute. discriminate.
  - reflexivity.
Defined.

(** ** The entries of today's list *)

Lemma getAssessments_range (injuryType : string) (ids : list Z) :
  getAssessmentsForInjuryType injuryType = Some ids ->
  In 1 ids /\ Forall (fun id => 1 <= id <= 5) ids.
Proof.
  unfold getAssessmentsForInjuryType.
  repeat (match goal with
          | |- context [if ?b then _ else _] => destruct b
          end;
          try (intros H; injection H as <-; split;
               [cbn; tauto | repeat constructor; lia]));
    discriminate.
Qed.

(** X16. Today's list follows the injury type: besides the DASH entry
    (id 6) it holds only assessments of the assessment table whose id is
    among the ids of the patient's injury type, all between 1 and 5; a
    Trigger Finger patient is offered assessment 1 alone and a CMC
    Arthroplasty patient assessments 1 and 2. *)
Theorem today_list_follows_injury_type :
  forall (user : User) (coreAssessments : list Assessment)
         (userAssessments : list UserAssessment) (now : Z) (l : list TodayEntry)
         (e : TodayEntry),
    todayRoute user coreAssessments userAssessments now = Some l ->
    In e l ->
    te_id e = 6 \/
    (1 <= te_id e <= 5 /\
     (exists a, In a coreAssessments /\ a_id a = te_id e /\ a_name a = te_name e) /\
     (u_injuryType user = Some "Trigger Finger"%string -> te_id e = 1) /\
     (u_injuryType user = Some "CMC Arthroplasty"%string -> te_id e <= 2)).
Proof.
  intros user core rows now l e Hroute Hin.
  unfold todayRoute, obind in Hroute.
  destruct (todayCore user core (completedToday rows now)) as [entries |] eqn:Hcore;
    [| discriminate].
  injection Hroute as <-. apply in_app_or in Hin. destruct Hin as [Hin | Hin].
  - right. unfold todayCore in Hcore.
    destruct (getAssessmentsForInjuryType _) as [ids |] eqn:Hids.
    + injection Hcore as <-. apply in_map_iff in Hin.
      destruct Hin as (a & <- & Ha). apply filter_In in Ha. destruct Ha as [Ha Hallowed].
      apply existsb_exists in Hallowed. destruct Hallowed as (id & Hid & Heq).
      apply Z.eqb_eq in Heq. cbn [te_id te_name todayEntry].
      destruct (getAssessments_range _ _ Hids) as [_ Hrange].
      rewrite Forall_forall in Hrange. specialize (Hrange id Hid).
      split; [lia |]. split; [now exists a |].
      split; intros Ht; rewrite Ht in Hids; cbn in Hids; injection Hids as <-;
        cbn in Hid; lia.
    + destruct core; [| discriminate]. injection Hcore as <-. destruct Hin.
  - left. destruct (todayDash user rows now) as [dash |] eqn:Hdash; [| destruct Hin].
    destruct Hin as [<- | []].
    unfold todayDash in Hdash. cbv zeta in Hdash.
    destruct (_ || _ || _); [| discriminate].
    now injection Hdash as <-.
Qed.

Lemma today_list_follows_injury_type_witness :
  te_id (mkTodayEntry 1 "TAM" 10 true true (Some (20302 * DAY + 100)) (Some 4)) = 6 \/
  (1 <= te_id (mkTodayEntry 1 "TAM" 10 true true (Some (20302 * DAY + 100)) (Some 4)) <= 5 /\
   (exists a, In a sample_assessments /\ a_id a = 1 /\ a_name a = "TAM"%string) /\
   (u_injuryType sample_user = Some "Trigger Finger"%string -> 1 = 1) /\
   (u_injuryType sample_user = Some "CMC Arthroplasty"%string -> 1 <= 2)).
Proof.
  apply (today_list_follows_injury_type sample_user sample_assessments sample_rows
           (20302 * DAY + 500)
           [mkTodayEntry 1 "TAM" 10 true true (Some (20302 * DAY + 100)) (Some 4)]
           (mkTodayEntry 1 "TAM" 10 true true (Some (20302 * DAY + 100)) (Some 4))).
  - reflexivity.
  - now left.
Defined.

End ScheduleFacts.

(* ===================================================================== *)
(** * Properties of the streak and the calendar *)
(* ===================================================================== *)

Module StreakFacts.
Import Js Routes RoundingFacts RoutesFacts.
Import Permutation Sorted.
Import String.
Local Open Scope Z_scope.

(** ** The completion days *)

Lemma uniqueDates_In (dates seen : list Z) (d : Z) :
  In d (uniqueDates seen dates) <-> In d dates /\ ~ In d seen.
Proof.
  revert seen. induction dates as [| x dates IH]; intros seen; cbn.
  - tauto.
  - destruct (existsb (Z.eqb x) seen) eqn:E.
    + apply existsb_exists in E. destruct E as (y & Hy & Hxy).
      apply Z.eqb_eq in Hxy. subst y. rewrite IH. split.
      * tauto.
      * intros [[-> | H] Hn]; [contradiction | tauto].
    + assert (Hx : ~ In x seen).
      { intros Hin. apply not_true_iff_false in E. apply E.
        apply existsb_exists. exists x. split; [exact Hin | apply Z.eqb_refl]. }
      cbn. rewrite IH. cbn. split.
      * intros [-> | [H Hn]]; [tauto |]. tauto.
      * intros [[-> | H] Hn]; [now left |].
        destruct (Z.eq_dec x d) as [-> | Hne]; [now left | right]. tauto.
Qed.

Lemma uniqueDates_NoDup (dates seen : list Z) : NoDup (uniqueDates seen dates).
Proof.
  revert seen. induction dates as [| x dates IH]; intros seen; cbn; [constructor |].
  destruct (existsb (Z.eqb x) seen); [apply IH |].
  constructor; [| apply IH].
  rewrite uniqueDates_In. cbn. tauto.
Qed.

Lemma uniqueDates_length (dates seen : list Z) :
  (List.length (uniqueDates seen dates) <= List.length dates)%nat.
Proof.
  revert seen. induction dates as [| x dates IH]; intros seen; cbn; [lia |].
  destruct (existsb (Z.eqb x) seen); [specialize (IH seen) | specialize (IH (x :: seen))];
    cbn; lia.
Qed.

Lemma completionDates_In (userAssessments : list UserAssessment) (day : Z) :
  In day (completionDates (filter ua_isCompleted userAssessments)) <->
  completedOn userAssessments day = true.
Proof.
  unfold completionDates, completedOn.
  rewrite existsb_exists. split.
  - intros H. apply (Permutation_in _ (sortDesc_perm _ _)) in H.
    apply uniqueDates_In in H. destruct H as [H _].
    apply in_map_iff in H. destruct H as (ua & Hd & Hin).
    apply filter_In in Hin. destruct Hin as [Hin Hp].
    apply filter_In in Hin. destruct Hin as [Hin Hc].
    exists ua. split; [exact Hin |].
    unfold completedWithDate. rewrite Hc.
    unfold present in Hp. destruct (ua_completedAt ua); [| discriminate].
    cbn. now apply Z.eqb_eq.
  - intros (ua & Hin & H). apply andb_prop in H. destruct H as [Hc Hd].
    unfold completedWithDate in Hc. apply andb_prop in Hc. destruct Hc as [Hc Hp].
    apply Z.eqb_eq in Hd.
    apply (Permutation_in _ (Permutation_sym (sortDesc_perm _ _))).
    apply uniqueDates_In. split; [| intros []].
    apply in_map_iff. exists ua. split; [exact Hd |].
    apply filter_In. split; [now apply filter_In |].
    unfold present. destruct (ua_completedAt ua); [reflexivity | discriminate].
Qed.

Lemma completionDates_NoDup (completedAssessments : list UserAssessment) :
  NoDup (completionDates completedAssessments).
Proof.
  unfold completionDates.
  eapply Permutation_NoDup; [symmetry; apply sortDesc_perm | apply uniqueDates_NoDup].
Qed.

Lemma completionDates_length (completedAssessments : list UserAssessment) :
  (List.length (completionDates completedAssessments)
   <= List.length completedAssessments)%nat.
Proof.
  unfold completionDates.
  rewrite (Permutation_length (sortDesc_perm _ _)).
  eapply Nat.le_trans; [apply uniqueDates_length |].
  rewrite length_map. apply filter_length_le.
Qed.

(** ** The loop *)

(** The rounds after the first, where the day checked is not today. *)
Lemma streakLoop_spec (dates : list Z) (now : Z) (n : nat) (i s : Z) :
  1 <= i ->
  let r := streakLoop n dates (isoDate now) (now - i * DAY) s in
  s <= r <= s + Z.of_nat n /\
  (forall k, 0 <= k < r - s ->
             existsb (Z.eqb (isoDate now - i - k)) dates = true) /\
  (r - s < Z.of_nat n ->
   existsb (Z.eqb (isoDate now - i - (r - s))) dates = false).
Proof.
  revert i s. induction n as [| n IH]; intros i s Hi r; subst r.
  - cbn [streakLoop]. split; [lia |]. split; intros; lia.
  - cbn [streakLoop]. rewrite isoDate_back.
    destruct (existsb (Z.eqb (isoDate now - i)) dates) eqn:E.
    + replace (now - i * DAY - DAY) with (now - (i + 1) * DAY) by ring.
      destruct (IH (i + 1) (s + 1) ltac:(lia)) as (H1 & H2 & H3).
      set (r := streakLoop n dates (isoDate now) (now - (i + 1) * DAY) (s + 1)) in *.
      split; [lia |]. split.
      * intros k Hk. destruct (Z.eq_dec k 0) as [-> | Hk0].
        -- now rewrite Z.sub_0_r.
        -- replace (isoDate now - i - k) with (isoDate now - (i + 1) - (k - 1)) by ring.
           apply H2. lia.
      * intros Hr.
        replace (isoDate now - i - (r - s))
          with (isoDate now - (i + 1) - (r - (s + 1))) by ring.
        apply H3. lia.
    + assert (Hne : (isoDate now - i =? isoDate now) = false)
        by (apply Z.eqb_neq; lia).
      rewrite Hne. cbn [negb]. split; [lia |]. split.
      * intros k Hk. lia.
      * intros _. now rewrite Z.sub_diag, Z.sub_0_r.
Qed.

Lemma streakLoop_S (n : nat) (dates : list Z) (todayStr checkDate streak : Z) :
  streakLoop (S n) dates todayStr checkDate streak
  = (let dateStr := isoDate checkDate in
     if existsb (Z.eqb dateStr) dates then
       streakLoop n dates todayStr (checkDate - DAY) (streak + 1)
     else if negb (dateStr =? todayStr) then streak
     else streakLoop n dates todayStr (checkDate - DAY) streak).
Proof. reflexivity. Qed.

(** The whole loop, from today. *)
Lemma streakLoop_first (dates : list Z) (now : Z) (n : nat) :
  let off := if existsb (Z.eqb (isoDate now)) dates then 0 else 1 in
  let r := streakLoop (S n) dates (isoDate now) now 0 in
  0 <= r <= Z.of_nat (S n) - off /\
  (forall k, 0 <= k < r -> existsb (Z.eqb (isoDate now - off - k)) dates = true) /\
  (r + off < Z.of_nat (S n) ->
   existsb (Z.eqb (isoDate now - off - r)) dates = false).
Proof.
  intros off r. subst off r.
  rewrite streakLoop_S. cbv zeta. rewrite Z.eqb_refl. cbn [negb].
  replace (now - DAY) with (now - 1 * DAY) by ring.
  rewrite Nat2Z.inj_succ.
  destruct (existsb (Z.eqb (isoDate now)) dates) eqn:E.
  - destruct (streakLoop_spec dates now n 1 (0 + 1) ltac:(lia)) as (H1 & H2 & H3).
    remember (streakLoop n dates (isoDate now) (now - 1 * DAY) (0 + 1)) as r eqn:Er.
    clear Er.
    split; [lia |]. split.
    + intros k Hk. destruct (Z.eq_dec k 0) as [-> | Hk0].
      * now rewrite !Z.sub_0_r.
      * replace (isoDate now - 0 - k) with (isoDate now - 1 - (k - 1)) by lia.
        apply H2. lia.
    + intros Hr. replace (isoDate now - 0 - r) with (isoDate now - 1 - (r - (0 + 1)))
        by lia.
      apply H3. lia.
  - destruct (streakLoop_spec dates now n 1 0 ltac:(lia)) as (H1 & H2 & H3).
    remember (streakLoop n dates (isoDate now) (now - 1 * DAY) 0) as r eqn:Er.
    clear Er.
    split; [lia |]. split.
    + intros k Hk. apply H2. lia.
    + intros Hr. replace (isoDate now - 1 - r) with (isoDate now - 1 - (r - 0)) by lia.
      apply H3. lia.
Qed.

Lemma streakLoop_30 (dates : list Z) (now : Z) :
  let off := if existsb (Z.eqb (isoDate now)) dates then 0 else 1 in
  let r := streakLoop 30 dates (isoDate now) now 0 in
  0 <= r <= 30 - off /\
  (forall k, 0 <= k < r -> existsb (Z.eqb (isoDate now - off - k)) dates = true) /\
  (r + off < 30 -> existsb (Z.eqb (isoDate now - off - r)) dates = false).
Proof. exact (streakLoop_first dates now 29). Qed.

Lemma existsb_eqb_In (d : Z) (l : list Z) : existsb (Z.eqb d) l = true <-> In d l.
Proof.
  rewrite existsb_exists. split.
  - intros (x & Hx & Heq). apply Z.eqb_eq in Heq. now subst.
  - intros H. exists d. split; [exact H | apply Z.eqb_refl].
Qed.

Lemma existsb_completedOn (userAssessments : list UserAssessment) (day : Z) :
  existsb (Z.eqb day) (completionDates (filter ua_isCompleted userAssessments))
  = completedOn userAssessments day.
Proof.
  apply eq_true_iff_eq. rewrite existsb_eqb_In. apply completionDates_In.
Qed.

Lemma completedOn_none (userAssessments : list UserAssessment) (day : Z) :
  filter ua_isCompleted userAssessments = [] -> completedOn userAssessments day = false.
Proof.
  intros H. rewrite <- existsb_completedOn, H. reflexivity.
Qed.

(** X17. The current streak is the number of consecutive UTC days with a
    dated completed assessment, counted backwards from today if today
    has one and from yesterday otherwise: each of these days has a
    completion, the day before them has none unless the 30-day horizon
    of the loop was reached, and the streak is between 0 and 30. *)
Theorem current_streak_counts_consecutive_days :
  forall (userAssessments : list UserAssessment) (now : Z),
    let today := isoDate now in
    let off := if completedOn userAssessments today then 0 else 1 in
    let streak := currentStreak (streakRoute userAssessments now) in
    0 <= streak <= 30 - off /\
    (forall k, 0 <= k < streak ->
               completedOn userAssessments (today - off - k) = true) /\
    (streak + off < 30 -> completedOn userAssessments (today - off - streak) = false).
Proof.
  intros rows now today off streak. subst today off streak.
  unfold streakRoute.
  destruct (0 <? Z.of_nat (List.length (filter ua_isCompleted rows))) eqn:E;
    cbn [currentStreak].
  - pose proof (streakLoop_30 (completionDates (filter ua_isCompleted rows)) now) as H.
    cbv zeta in H. rewrite existsb_completedOn in H.
    destruct H as (H1 & H2 & H3). split; [exact H1 |]. split.
    + intros k Hk. rewrite <- existsb_completedOn. now apply H2.
    + intros Hr. rewrite <- existsb_completedOn. now apply H3.
  - apply Z.ltb_ge in E.
    assert (Hnil : filter ua_isCompleted rows = []).
    { destruct (filter ua_isCompleted rows); [reflexivity | cbn in E; lia]. }
    rewrite !(completedOn_none rows _ Hnil). split; [lia |]. split.
    + intros k Hk. lia.
    + intros _. reflexivity.
Qed.

Lemma Math_ceil_div_5 (n : Z) : 0 <= n -> 0 <= Math_ceil_div n 5 <= n.
Proof.
  intros Hn. unfold Math_ceil_div.
  pose proof (Z.div_mod (- n) 5 ltac:(lia)) as Hdm.
  pose proof (Z.mod_pos_bound (- n) 5 ltac:(lia)) as Hm. lia.
Qed.

(** The days of a streak are distinct completion days. *)
Lemma streak_le_dates (dates : list Z) (base : Z) (r : nat) :
  NoDup dates ->
  (forall k, 0 <= k < Z.of_nat r -> In (base - k) dates) ->
  (r <= List.length dates)%nat.
Proof.
  intros Hnd Hin.
  rewrite <- (length_seq r 0) at 1.
  rewrite <- (length_map (fun k => base - Z.of_nat k)).
  apply NoDup_incl_length.
  - apply NoDup_map_NoDup_ForallPairs; [| apply seq_NoDup].
    intros a b _ _ Hab. lia.
  - intros d Hd. apply in_map_iff in Hd. destruct Hd as (k & <- & Hk).
    apply in_seq in Hk. apply Hin. lia.
Qed.

(** X18. The three figures of the streak answer are ordered: the current
    streak never exceeds the "longest" streak, which never exceeds the
    number of completed rows; without a completed row all of them are 0. *)
Theorem streak_figures_are_ordered :
  forall (userAssessments : list UserAssessment) (now : Z),
    let s := streakRoute userAssessments now in
    0 <= currentStreak s <= longestStreak s /\
    longestStreak s <= totalCompletions s /\
    totalCompletions s = Z.of_nat (List.length (filter ua_isCompleted userAssessments)) /\
    (totalCompletions s = 0 -> currentStreak s = 0 /\ longestStreak s = 0).
Proof.
  intros rows now s. subst s. unfold streakRoute.
  destruct (0 <? Z.of_nat (List.length (filter ua_isCompleted rows))) eqn:E;
    cbn [currentStreak longestStreak totalCompletions].
  - apply Z.ltb_lt in E.
    remember (completionDates (filter ua_isCompleted rows)) as dates eqn:Ed.
    pose proof (streakLoop_30 dates now) as H. cbv zeta in H.
    remember (streakLoop 30 dates (isoDate now) now 0) as r eqn:Er. clear Er.
    destruct H as (H1 & H2 & _).
    pose proof (completionDates_length (filter ua_isCompleted rows)) as Hlen.
    rewrite <- Ed in Hlen.
    pose proof (Math_ceil_div_5 (Z.of_nat (List.length dates)) ltac:(lia)) as Hceil.
    assert (Hr : r <= Z.of_nat (List.length dates)).
    { rewrite <- (Z2Nat.id r) by lia. apply inj_le.
      apply (streak_le_dates dates
               (isoDate now - (if existsb (Z.eqb (isoDate now)) dates then 0 else 1))).
      - rewrite Ed. apply completionDates_NoDup.
      - intros k Hk. rewrite Z2Nat.id in Hk by lia.
        apply existsb_eqb_In. now apply H2. }
    repeat split; try lia.
  - apply Z.ltb_ge in E. repeat split; lia.
Qed.

(** ** The calendar *)

Lemma nth_error_rev_seq (n k i : nat) :
  nth_error (rev (seq 0 n)) k = Some i -> (k < n /\ i = n - 1 - k)%nat.
Proof.
  intros H.
  assert (Hk : (k < n)%nat).
  { rewrite <- (length_seq n 0), <- length_rev. apply nth_error_Some. congruence. }
  split; [exact Hk |].
  apply (nth_error_nth _ _ 0%nat) in H.
  rewrite rev_nth in H by (now rewrite length_seq).
  rewrite length_seq, seq_nth in H by lia. lia.
Qed.

Lemma calendar_filter (userAssessments : list UserAssessment) (day : Z) :
  filter (fun ua => match ua_completedAt ua with
                    | Some t => (isoDate t =? day) && ua_isCompleted ua
                    | None => false
                    end) userAssessments
  = filter (fun ua => completedWithDate ua && (isoDate (timeOf ua) =? day))
      userAssessments.
Proof.
  apply filter_ext. intros ua. unfold completedWithDate, timeOf.
  destruct (ua_completedAt ua); [| now rewrite andb_false_r].
  rewrite andb_true_r. apply andb_comm.
Qed.

Lemma distinct_pos (ids : list Z) : ids <> [] -> 0 < distinct ids.
Proof.
  intros H. unfold distinct. destruct ids as [| x ids]; [contradiction |].
  assert (Hin : In x (nodup Z.eq_dec (x :: ids))) by (apply nodup_In; now left).
  destruct (nodup Z.eq_dec (x :: ids)); [destruct Hin | cbn; lia].
Qed.

(** The entry of one day. *)
Ltac close_day :=
  try discriminate; try lia; try (intros; lia);
  try (intros (? & ? & ?); first [lia | contradiction]).

(** The entry of one day. *)
Lemma calendarDay_spec (tz totalAssessments : Z) (userAssessments : list UserAssessment)
    (today date : Z) :
  date <= today ->
  let e := calendarDay tz totalAssessments userAssessments today date in
  let done := filter (fun ua => completedWithDate ua && (isoDate (timeOf ua) =? isoDate date))
                userAssessments in
  cd_date e = isoDate date /\
  cd_totalAssessments e = totalAssessments /\
  cd_status e <> missed_day /\
  (cd_status e = future_day <-> date < recoveryStartDate tz) /\
  (recoveryStartDate tz <= date ->
   cd_completedAssessments e = distinct (map ua_assessmentId done)) /\
  (cd_status e = completed_day <->
   recoveryStartDate tz <= date /\ done <> [] /\
   totalAssessments <= distinct (map ua_assessmentId done)).
Proof.
  intros Hdate e done. subst e done. unfold calendarDay. cbv zeta.
  rewrite calendar_filter.
  destruct (date <? recoveryStartDate tz) eqn:E1.
  - apply Z.ltb_lt in E1.
    cbn [cd_date cd_status cd_completedAssessments cd_totalAssessments].
    repeat split; close_day.
  - apply Z.ltb_ge in E1.
    assert (E2 : (date <=? today) = true) by now apply Z.leb_le.
    rewrite E2.
    destruct (filter _ userAssessments) as [| ua done] eqn:Ef.
    + cbn [cd_date cd_status cd_completedAssessments cd_totalAssessments map].
      change (distinct []) with 0.
      repeat split; close_day.
    + cbn [cd_date cd_status cd_completedAssessments cd_totalAssessments].
      destruct (totalAssessments <=? distinct (map ua_assessmentId (ua :: done))) eqn:E3.
      * apply Z.leb_le in E3. repeat split; close_day.
      * apply Z.leb_gt in E3. repeat split; close_day.
Qed.

(** X19. The calendar has one entry for each of the 30 UTC days that end
    today, in order.  A day is "future" exactly when it lies before the
    fixed recovery start of 20 June 2025 and no entry is ever "missed": a
    day without work stays "pending".  From the recovery start on, the
    entry counts the distinct assessments with a dated completed row that
    day, and it is "completed" exactly when there is such a row and the
    count reaches the number of assessment types. *)
Theorem calendar_covers_the_last_30_days :
  forall (tz : Z) (allAssessments : list Assessment)
         (userAssessments : list UserAssessment) (today : Z),
    let cal := calendarRoute tz allAssessments userAssessments today in
    List.length cal = 30%nat /\
    (forall k e, nth_error cal k = Some e ->
       let date := today - (29 - Z.of_nat k) * DAY in
       let done := filter (fun ua => completedWithDate ua &&
                                     (isoDate (timeOf ua) =? cd_date e))
                     userAssessments in
       cd_date e = isoDate today - 29 + Z.of_nat k /\
       cd_totalAssessments e = Z.of_nat (List.length allAssessments) /\
       cd_status e <> missed_day /\
       (cd_status e = future_day <-> date < recoveryStartDate tz) /\
       (recoveryStartDate tz <= date ->
        cd_completedAssessments e = distinct (map ua_assessmentId done)) /\
       (cd_status e = completed_day <->
        recoveryStartDate tz <= date /\ done <> [] /\
        cd_totalAssessments e <= distinct (map ua_assessmentId done))).
Proof.
  intros tz all rows today cal. subst cal. unfold calendarRoute. split.
  - now rewrite length_map, length_rev, length_seq.
  - intros k e He. rewrite nth_error_map in He.
    destruct (nth_error (rev (seq 0 30)) k) as [i |] eqn:Ei; [| discriminate].
    apply nth_error_rev_seq in Ei. destruct Ei as [Hk Hi].
    cbn [option_map] in He. injection He as <-.
    replace (Z.of_nat i) with (29 - Z.of_nat k) by lia. clear Hi.
    pose proof DAY_pos as Hday.
    assert (Hdate : today - (29 - Z.of_nat k) * DAY <= today) by nia.
    pose proof (calendarDay_spec tz (Z.of_nat (List.length all)) rows today
                  (today - (29 - Z.of_nat k) * DAY) Hdate) as H.
    cbv zeta in H. destruct H as (H1 & H2 & H3 & H4 & H5 & H6).
    cbv zeta. rewrite H1, H2.
    repeat split; try assumption; try (now apply H4); try (now apply H6).
    rewrite isoDate_back. lia.
Qed.

(** X20. The calendar and the streak agree on today: when the last entry
    of the calendar shows completed work, the current streak is at least
    1. *)
Theorem calendar_work_today_starts_a_streak :
  forall (tz : Z) (allAssessments : list Assessment)
         (userAssessments : list UserAssessment) (now : Z) (e : CalendarDay),
    nth_error (calendarRoute tz allAssessments userAssessments now) 29 = Some e ->
    0 < cd_completedAssessments e ->
    1 <= currentStreak (streakRoute userAssessments now).
Proof.
  intros tz all rows now e He Hcount.
  unfold calendarRoute in He. rewrite nth_error_map in He.
  destruct (nth_error (rev (seq 0 30)) 29) as [i |] eqn:Ei; [| discriminate].
  apply nth_error_rev_seq in Ei. destruct Ei as [_ Hi].
  cbn [option_map] in He. injection He as <-.
  replace (Z.of_nat i) with 0 in Hcount by lia. clear Hi.
  rewrite Z.mul_0_l, Z.sub_0_r in Hcount.
  (* some completed row carries today's date *)
  assert (Hon : completedOn rows (isoDate now) = true).
  { unfold calendarDay in Hcount. cbv zeta in Hcount. rewrite calendar_filter in Hcount.
    destruct (now <? recoveryStartDate tz); [cbn [cd_completedAssessments] in Hcount; lia |].
    destruct (now <=? now); [| cbn [cd_completedAssessments] in Hcount; lia].
    destruct (filter _ rows) as [| ua done] eqn:Ef; [cbn [cd_completedAssessments] in Hcount; lia |].
    assert (Hin : In ua (filter
                           (fun ua => completedWithDate ua &&
                                      (isoDate (timeOf ua) =? isoDate now)) rows))
      by (rewrite Ef; now left).
    apply filter_In in Hin. destruct Hin as [Hin Hua].
    unfold completedOn. apply existsb_exists. now exists ua. }
  unfold streakRoute.
  destruct (0 <? Z.of_nat (List.length (filter ua_isCompleted rows))) eqn:E;
    cbn [currentStreak].
  - pose proof (streakLoop_30 (completionDates (filter ua_isCompleted rows)) now) as H.
    cbv zeta in H. rewrite existsb_completedOn, Hon in H.
    remember (streakLoop 30 _ _ _ _) as r eqn:Er. clear Er.
    destruct H as (H1 & _ & H3).
    destruct (Z.eq_dec r 0) as [-> | Hr]; [| lia].
    rewrite existsb_completedOn, !Z.sub_0_r, Hon in H3.
    discriminate H3. lia.
  - apply Z.ltb_ge in E.
    assert (Hnil : filter ua_isCompleted rows = []).
    { destruct (filter ua_isCompleted rows); [reflexivity | cbn in E; lia]. }
    rewrite (completedOn_none rows _ Hnil) in Hon. discriminate.
Qed.

Lemma calendar_work_today_starts_a_streak_witness :
  1 <= currentStreak (streakRoute sample_rows (20302 * DAY + 500)).
Proof.
  apply (calendar_work_today_starts_a_streak 0 sample_assessments sample_rows
           (20302 * DAY + 500)
           (mkCalendarDay 20302 pending_day 1 2)).
  - reflexivity.
  - reflexivity.
Defined.

End StreakFacts.

(* ===================================================================== *)
(** * Properties of what the recording page submits *)
(* ===================================================================== *)

Module SubmissionFacts.
Import Js JsFacts Recording RecordingFacts Submission RoundingFacts.
Local Open Scope Z_scope.

(** ** The capture window *)

Lemma inCaptureWindow_true (start : option Z) (t : Z) :
  inCaptureWindow start t = true -> exists t0, start = Some t0 /\ t0 < t <= t0 + 10000.
Proof.
  unfold inCaptureWindow. destruct start as [t0 |]; [| discriminate].
  intros H. apply andb_prop in H. destruct H as [H H2].
  apply andb_prop in H. destruct H as [_ H1].
  apply Z.ltb_lt in H1. apply Z.leb_le in H2. exists t0. split; [reflexivity | lia].
Qed.

Lemma captureFrame_window (st : State) (data : TrackerData) (t : Z) (f : MotionFrame) :
  captureFrame st data t = Some f ->
  exists t0, recordingStartTime st = Some t0 /\ t0 < timestamp f <= t0 + 10000.
Proof.
  unfold captureFrame. destruct (landmarks data) as [[| l ls] |]; try discriminate.
  destruct (inCaptureWindow (recordingStartTime st) t) eqn:E; [| discriminate].
  destruct (handDetected data); [| discriminate].
  cbn [andb]. intros H. injection H as <-. cbn [timestamp].
  now apply inCaptureWindow_true.
Qed.

Lemma handleMediaPipeUpdate_motion
    (calc : list Landmark -> option JointAngles)
    (st : State) (data : TrackerData) (t : Z) :
  recordingStartTime (handleMediaPipeUpdate calc st data t) = recordingStartTime st /\
  (recordingMotionData (handleMediaPipeUpdate calc st data t) = recordingMotionData st \/
   exists f, captureFrame st data t = Some f /\
             recordingMotionData (handleMediaPipeUpdate calc st data t)
             = recordingMotionData st ++ [f]).
Proof.
  unfold handleMediaPipeUpdate.
  destruct (landmarks data) as [[| l ls] |] eqn:El; cbn; try tauto.
  split; [reflexivity |].
  destruct (captureFrame st data t) as [f |]; [right; now exists f | now left].
Qed.

(** Every captured frame lies in the ten seconds after one start time,
    which is the current one while a recording runs. *)
Lemma window_invariant
    (calc : list Landmark -> option JointAngles) (evs : list Event) (st : State) :
  (exists t0, (recordingStartTime st = None \/ recordingStartTime st = Some t0) /\
              Forall (fun f => t0 < timestamp f <= t0 + 10000) (recordingMotionData st)) ->
  exists t0, (recordingStartTime (run calc st evs) = None \/
              recordingStartTime (run calc st evs) = Some t0) /\
             Forall (fun f => t0 < timestamp f <= t0 + 10000)
               (recordingMotionData (run calc st evs)).
Proof.
  revert st. induction evs as [| e evs IH]; intros st Hst; [exact Hst |].
  unfold run. cbn [fold_left]. apply IH. clear IH.
  destruct Hst as (t0 & Hstart & Hall).
  destruct e as [data t | | startTime | |]; cbn [step].
  - destruct (handleMediaPipeUpdate_motion calc st data t) as [Hs [Hm | (f & Hf & Hm)]];
      rewrite Hs, Hm.
    + now exists t0.
    + apply captureFrame_window in Hf. destruct Hf as (t1 & Ht1 & Hw).
      exists t0. split; [exact Hstart |].
      apply Forall_app. split; [exact Hall |]. constructor; [| constructor].
      destruct Hstart as [Hn | Hs0]; [congruence |].
      assert (t1 = t0) by congruence. subst t1. exact Hw.
  - now exists t0.
  - exists startTime. cbn. split; [now right | constructor].
  - exists t0. cbn. split; [now left | exact Hall].
  - now exists t0.
Qed.

(** [Math.round(d / 1000)] in integer arithmetic. *)
Lemma round_seconds (d : Z) :
  Dash.Math_round (inject_Z d / 1000)%Q = (2 * d + 1000) / 2000.
Proof.
  unfold Dash.Math_round.
  change 2000 with (Z.pos 2000). rewrite <- Qfloor_div. apply Qfloor_comp.
  rewrite inject_Z_plus, inject_Z_mult.
  change (inject_Z (Z.pos 2000)) with 2000%Q. change (inject_Z 1000) with 1000%Q.
  change (inject_Z 2) with 2%Q. field.
Qed.

Lemma last_In {A : Type} (l : list A) (d : A) : l <> [] -> In (last l d) l.
Proof.
  induction l as [| x l IH]; [contradiction |]. intros _.
  destruct l as [| y l]; [now left |].
  right. apply IH. discriminate.
Qed.

(** X22. Whatever the tracker, the timers and the buttons do, the frames
    a recording holds all lie within the ten seconds after one start of a
    recording; so the duration submitted for a repetition is at most 10
    seconds in absolute value (15 when no frame was captured), although
    the recording timer runs for 15 seconds. *)
Theorem captured_frames_span_ten_seconds :
  forall (calc : list Landmark -> option JointAngles) (evs : list Event),
    let frames := recordingMotionData (run calc initialState evs) in
    (exists t0, Forall (fun f => t0 < timestamp f <= t0 + 10000) frames) /\
    (frames = [] /\ actualDuration frames = 15 \/
     frames <> [] /\ -10 <= actualDuration frames <= 10).
Proof.
  intros calc evs frames.
  destruct (window_invariant calc evs initialState) as (t0 & _ & Hall).
  { exists 0. cbn. split; [now left | constructor]. }
  fold frames in Hall. split; [now exists t0 |].
  destruct frames as [| first rest] eqn:Ef; [left; split; reflexivity | right].
  split; [discriminate |].
  unfold actualDuration. rewrite round_seconds.
  rewrite Forall_forall in Hall.
  pose proof (Hall first (or_introl eq_refl)) as H1.
  pose proof (Hall (last (first :: rest) first)
                (last_In (first :: rest) first ltac:(discriminate))) as H2.
  cbv beta in H1, H2.
  remember (timestamp (last (first :: rest) first)) as tl eqn:El. clear El.
  remember (timestamp first) as tf eqn:Etf. clear Etf.
  split.
  - apply Z.div_le_lower_bound; lia.
  - apply Z.lt_succ_r. apply Z.div_lt_upper_bound; lia.
Qed.

(** ** The hand type *)

Lemma step_keeps_known
    (calc : list Landmark -> option JointAngles) (st : State) (e : Event) :
  sessionHandType st <> UNKNOWN -> sessionHandType (step calc st e) <> UNKNOWN.
Proof.
  intros H. destruct e as [data t | | startTime | |]; cbn [step]; try exact H.
  - rewrite handleMediaPipeUpdate_session. now rewrite updateSession_locked.
  - apply startRecording_locks.
Qed.

Lemma run_keeps_known
    (calc : list Landmark -> option JointAngles) (evs : list Event) (st : State) :
  sessionHandType st <> UNKNOWN -> sessionHandType (run calc st evs) <> UNKNOWN.
Proof.
  revert st. induction evs as [| e evs IH]; intros st H; [exact H |].
  unfold run. cbn [fold_left]. apply IH. now apply step_keeps_known.
Qed.

(** X23. Once the record button was pressed, the hand type submitted
    with the assessment is the session hand type, LEFT or RIGHT, never
    UNKNOWN: the detected hand type is only a fallback for a submission
    without a lock. *)
Theorem submitted_hand_type_is_the_lock :
  forall (calc : list Landmark -> option JointAngles) (st0 : State)
         (evs : list Event) (recorded : list RepetitionData),
    In StartRecording evs ->
    let st := run calc st0 evs in
    req_handType (completeAssessment st recorded) = sessionHandType st /\
    (sessionHandType st = LEFT \/ sessionHandType st = RIGHT).
Proof.
  intros calc st0 evs recorded Hin st.
  assert (Hknown : sessionHandType st <> UNKNOWN).
  { subst st. apply in_split in Hin. destruct Hin as (evs1 & evs2 & ->).
    rewrite run_app. change (StartRecording :: evs2) with ([StartRecording] ++ evs2).
    rewrite run_app. apply run_keeps_known. cbn. apply startRecording_locks. }
  unfold completeAssessment. cbn [req_handType].
  destruct (sessionHandType st); [split; [reflexivity | now left]
                                 | split; [reflexivity | now right]
                                 | contradiction].
Qed.

Lemma submitted_hand_type_is_the_lock_witness :
  req_handType (completeAssessment (run (fun _ => None) initialState sample_events) [])
  = LEFT.
Proof.
  pose proof (submitted_hand_type_is_the_lock (fun _ => None) initialState
                sample_events [] (or_introl eq_refl)) as H.
  cbv zeta in H. destruct H as [H _]. rewrite H. reflexivity.
Defined.

End SubmissionFacts.

(* ===================================================================== *)
(** * From the recording page to the stored row *)
(* ===================================================================== *)

Module EndToEndFacts.
Import Js JsFacts Complete CompleteFacts CompleteBoundsFacts.
Local Open Scope Q_scope.

Lemma ole_some (q : Q) (x : option Q) : ole (Some q) x -> exists y, x = Some y /\ q <= y.
Proof. destruct x as [y |]; [intros H; now exists y | intros []]. Qed.

Lemma nonneg_some (y : Q) : ole (Some 0) (Some y) \/ Some y = None -> 0 <= y.
Proof. intros [H | H]; [exact H | discriminate]. Qed.

Lemma toBody_reps (request : Submission.Request) :
  repetitionData (Submission.toBody request)
  = Some (map Submission.toRepetition (Submission.req_repetitionData request)).
Proof. reflexivity. Qed.

(** X24. A repetition the recording page submits always leaves wrist
    figures in the stored row, whatever the assessment: the four wrist
    fields are numbers, none negative and each maximum at least its angle
    (they are 0, not null, for a recording without wrist angles); the index
    finger MCP maximum is a number that is not negative, and the stored hand
    type is the one submitted. *)
Theorem finished_repetition_stores_wrist_figures :
  forall (calculateMaxROM : list Recording.MotionFrame -> option Recording.JointAngles)
         (calculateMaxElbowWristAngles :
            list Recording.MotionFrame -> option Recording.WristAngles)
         (kap : list MotionFrame -> option KapandjiResult)
         (calc : list MotionFrame -> option AllFingersROM)
         (now : Z) (existing : list Z) (id : Z) (name : option String.string)
         (st : Recording.State) (d : Submission.Display) (currentRepetition : Z)
         (recordedData : list Submission.RepetitionData)
         (request : Submission.Request),
    Submission.handleRepetitionComplete calculateMaxROM calculateMaxElbowWristAngles
      st d currentRepetition recordedData = Some request ->
    let row := completeAssessment kap calc now existing id name
                 (Submission.toBody request) in
    (exists flexion extension maxFlexion maxExtension,
        row_wrist row = mkWristMaxima (Some flexion) (Some extension)
                          (Some maxFlexion) (Some maxExtension) /\
        0 <= flexion /\ 0 <= extension /\
        flexion <= maxFlexion /\ extension <= maxExtension) /\
    (exists mcp, maxMcpAngle (row_rom row) = Some mcp /\ 0 <= mcp) /\
    row_handType row = Some (Submission.req_handType request).
Proof.
  intros calcMax calcWrist kap calc now existing id name st d n recorded request Hreq row.
  (* the request holds the repetition just finished *)
  assert (Hlast : exists r, Submission.req_repetitionData request = recorded ++ [r]).
  { unfold Submission.handleRepetitionComplete, obind in Hreq.
    destruct (match Recording.recordingMotionData st with
              | [] => Some (Recording.maxROM st)
              | _ :: _ => calcMax (Recording.recordingMotionData st)
              end) as [rom |]; [| discriminate].
    destruct (calcWrist (Recording.recordingMotionData st)) as [wmax |]; [| discriminate].
    injection Hreq as <-. eexists. reflexivity. }
  destruct Hlast as (r & Hr).
  set (reps := map Submission.toRepetition (Submission.req_repetitionData request)).
  assert (Hreps : repetitionData (Submission.toBody request) = Some reps)
    by apply toBody_reps.
  assert (Hin : In (Submission.toRepetition r) reps).
  { subst reps. rewrite Hr, map_app. apply in_or_app. right. now left. }
  set (stf := fold_left foldRep reps (initialState (Submission.toBody request))).
  split; [| split].
  - subst row.
    rewrite (row_wrist_eq kap calc now existing id name _ reps Hreps). fold stf.
    (* the four fields are numbers *)
    assert (H1 : ole (Some (Submission.rd_wristFlexionAngle r))
                   (wristFlexionAngle (wristMax stf))).
    { apply (reps_reach_wrist wristFlexionAngle _ reps (Submission.toRepetition r));
        [cbn; tauto | exact Hin |].
      intros s. now apply foldRep_sets_flexion. }
    assert (H2 : ole (Some (Submission.rd_wristExtensionAngle r))
                   (wristExtensionAngle (wristMax stf))).
    { apply (reps_reach_wrist wristExtensionAngle _ reps (Submission.toRepetition r));
        [cbn; tauto | exact Hin |].
      intros s. now apply foldRep_sets_extension. }
    (* none is negative *)
    assert (Hnn : forall sel,
              In sel [wristFlexionAngle; wristExtensionAngle; maxWristFlexion;
                      maxWristExtension] ->
              ole (Some 0) (sel (wristMax stf)) \/ sel (wristMax stf) = None).
    { subst stf.
      apply (fold_left_keeps foldRep
               (fun s => forall sel,
                    In sel [wristFlexionAngle; wristExtensionAngle; maxWristFlexion;
                            maxWristExtension] ->
                    ole (Some 0) (sel (wristMax s)) \/ sel (wristMax s) = None)).
      - intros s b Hs. now apply foldRep_wrist_nonneg.
      - intros sel Hsel. right. cbn in Hsel.
        destruct Hsel as [<- | [<- | [<- | [<- | []]]]]; reflexivity. }
    apply ole_some in H1. destruct H1 as (a & Ha & _).
    apply ole_some in H2. destruct H2 as (b & Hb & _).
    pose proof (Hnn wristFlexionAngle ltac:(cbn; tauto)) as Na.
    pose proof (Hnn wristExtensionAngle ltac:(cbn; tauto)) as Nb.
    rewrite Ha in Na. rewrite Hb in Nb.
    apply nonneg_some in Na. apply nonneg_some in Nb.
    exists a, b, (Math_max (or_zero (maxWristFlexion (wristMax stf))) a),
      (Math_max (or_zero (maxWristExtension (wristMax stf))) b).
    split.
    + unfold updateMaxWrist. now rewrite Ha, Hb.
    + repeat split; try assumption; apply Math_max_r.
  - subst row.
    rewrite (row_rom_eq kap calc now existing id name _ reps Hreps). fold stf.
    destruct (finalizeFingers_rom kap calc name (rom stf) (allMotionFrames stf))
      as (E1 & _).
    rewrite E1.
    assert (Hreach : ole (Some (field_or_zero
                                  (JNum (Recording.mcpAngle (Submission.rd_romData r)))))
                       (maxMcpAngle (rom stf))).
    { subst stf.
      apply (fold_left_reaches foldRep
               (fun s => ole (Some (field_or_zero
                                      (JNum (Recording.mcpAngle
                                               (Submission.rd_romData r)))))
                           (maxMcpAngle (rom s)))
               (Submission.toRepetition r) reps).
      - intros s. apply (foldRep_rom_reaches s (Submission.toRepetition r) _ eq_refl).
      - intros s b Hs. destruct (foldRep_mono s b) as [(K1 & _) _].
        eapply ole_trans; eassumption.
      - exact Hin. }
    assert (Hnn : forall sel,
              In sel [maxMcpAngle; maxPipAngle; maxDipAngle; totalActiveRom] ->
              ole (Some 0) (sel (rom stf)) \/ sel (rom stf) = None).
    { subst stf.
      apply (fold_left_keeps foldRep
               (fun s => forall sel,
                    In sel [maxMcpAngle; maxPipAngle; maxDipAngle; totalActiveRom] ->
                    ole (Some 0) (sel (rom s)) \/ sel (rom s) = None)).
      - intros s b Hs. now apply foldRep_rom_nonneg.
      - intros sel Hsel. right. cbn in Hsel.
        destruct Hsel as [<- | [<- | [<- | [<- | []]]]]; reflexivity. }
    apply ole_some in Hreach. destruct Hreach as (mcp & Hm & _).
    exists mcp. split; [exact Hm |].
    pose proof (Hnn maxMcpAngle ltac:(cbn; tauto)) as N. rewrite Hm in N.
    now apply nonneg_some in N.
  - subst row. now rewrite row_handType_eq.
Qed.

Lemma finished_repetition_stores_wrist_figures_witness :
  exists request,
    Submission.handleRepetitionComplete
      (fun _ => Some (Recording.mkJointAngles 10 20 30 60))
      (fun _ => Some (Recording.mkWristAngles JUndefined JUndefined))
      (Recording.run (fun _ => None) Recording.initialState Submission.sample_events)
      Submission.sample_display 1%Z [] = Some request /\
    row_handType (completeAssessment (fun _ => None) (fun _ => None) 0%Z [] 1%Z None
                    (Submission.toBody request)) = Some LEFT.
Proof.
  eexists. split; [reflexivity |].
  pose proof (finished_repetition_stores_wrist_figures
                (fun _ => Some (Recording.mkJointAngles 10 20 30 60))
                (fun _ => Some (Recording.mkWristAngles JUndefined JUndefined))
                (fun _ => None) (fun _ => None) 0%Z [] 1%Z None
                (Recording.run (fun _ => None) Recording.initialState
                   Submission.sample_events)
                Submission.sample_display 1%Z [] _ eq_refl) as H.
  cbv zeta in H. destruct H as (_ & _ & H). exact H.
Defined.

End EndToEndFacts.

(* ===================================================================== *)
(** * Properties of the questionnaire form *)
(* ===================================================================== *)

Module DashFormFacts.
Import Dash DashFacts DashForm.
Local Open Scope Z_scope.

(** ** Writing and reading a response *)

Lemma getResponse_set_same (q : nat) (v : Z) (r : Responses) :
  getResponse q (setResponse q v r) = Some v.
Proof.
  induction r as [| [q' w] r IH]; cbn [setResponse getResponse].
  - now rewrite Nat.eqb_refl.
  - destruct (q =? q')%nat eqn:E; cbn [getResponse].
    + now rewrite Nat.eqb_refl.
    + destruct (q <? q')%nat; cbn [getResponse]; [now rewrite Nat.eqb_refl |].
      now rewrite E.
Qed.

Lemma getResponse_set_other (q q' : nat) (v : Z) (r : Responses) :
  q' <> q -> getResponse q' (setResponse q v r) = getResponse q' r.
Proof.
  intros Hne. apply Nat.eqb_neq in Hne.
  induction r as [| [p w] r IH]; cbn [setResponse getResponse].
  - now rewrite Hne.
  - destruct (q =? p)%nat eqn:E; cbn [getResponse].
    + apply Nat.eqb_eq in E. subst p. now rewrite Hne.
    + destruct (q <? p)%nat; cbn [getResponse]; [now rewrite Hne |].
      destruct (q' =? p)%nat; [reflexivity | exact IH].
Qed.

Lemma setResponse_Forall (P : nat * Z -> Prop) (q : nat) (v : Z) (r : Responses) :
  P (q, v) -> Forall P r -> Forall P (setResponse q v r).
Proof.
  intros Hp. induction 1 as [| [p w] r Hh Ht IH]; cbn [setResponse].
  - now constructor.
  - destruct (q =? p)%nat; [now constructor |].
    destruct (q <? p)%nat; constructor; try assumption. now constructor.
Qed.

Lemma getResponse_In (q : nat) (v : Z) (r : Responses) :
  getResponse q r = Some v -> In (q, v) r.
Proof.
  induction r as [| [p w] r IH]; cbn [getResponse]; [discriminate |].
  destruct (q =? p)%nat eqn:E.
  - apply Nat.eqb_eq in E. subst p. intros H. injection H as ->. now left.
  - intros H. right. now apply IH.
Qed.

Lemma value_range (o : ResponseOption) : 1 <= value o <= 5.
Proof. destruct o; cbn; lia. Qed.

(** ** The invariant of the form *)

Lemma step_invariant (st : State) (e : Event) :
  (1 <= currentQuestion st <= 30)%nat /\
  (forall q, (1 <= q < currentQuestion st)%nat ->
             exists v, getResponse q (responses st) = Some v) /\
  Forall (fun e => 1 <= snd e <= 5) (responses st) ->
  (1 <= currentQuestion (step st e) <= 30)%nat /\
  (forall q, (1 <= q < currentQuestion (step st e))%nat ->
             exists v, getResponse q (responses (step st e)) = Some v) /\
  Forall (fun e => 1 <= snd e <= 5) (responses (step st e)).
Proof.
  intros (Hcq & Hans & Hval). destruct e as [o | |]; cbn [step].
  - unfold handleResponseChange. cbn. split; [exact Hcq |]. split.
    + intros q Hq. rewrite getResponse_set_other by lia. now apply Hans.
    + apply setResponse_Forall; [apply value_range | exact Hval].
  - unfold handleNext.
    destruct (getResponse (currentQuestion st) (responses st)) as [v |] eqn:Ev;
      [| tauto].
    destruct (v =? 0); [tauto |].
    destruct (currentQuestion st <? 30)%nat eqn:E; [| tauto].
    apply Nat.ltb_lt in E. cbn. split; [lia |]. split; [| exact Hval].
    intros q Hq. destruct (Nat.eq_dec q (currentQuestion st)) as [-> | Hne].
    + now exists v.
    + apply Hans. lia.
  - unfold handlePrevious.
    destruct (1 <? currentQuestion st)%nat eqn:E; [| tauto].
    apply Nat.ltb_lt in E. cbn. split; [lia |]. split; [| exact Hval].
    intros q Hq. apply Hans. lia.
Qed.

Lemma run_invariant (evs : list Event) (st : State) :
  (1 <= currentQuestion st <= 30)%nat /\
  (forall q, (1 <= q < currentQuestion st)%nat ->
             exists v, getResponse q (responses st) = Some v) /\
  Forall (fun e => 1 <= snd e <= 5) (responses st) ->
  (1 <= currentQuestion (run st evs) <= 30)%nat /\
  (forall q, (1 <= q < currentQuestion (run st evs))%nat ->
             exists v, getResponse q (responses (run st evs)) = Some v) /\
  Forall (fun e => 1 <= snd e <= 5) (responses (run st evs)).
Proof.
  revert st. induction evs as [| e evs IH]; intros st H; [exact H |].
  unfold run. cbn [fold_left]. apply IH. now apply step_invariant.
Qed.

Lemma initial_invariant :
  (1 <= currentQuestion initialState <= 30)%nat /\
  (forall q, (1 <= q < currentQuestion initialState)%nat ->
             exists v, getResponse q (responses initialState) = Some v) /\
  Forall (fun e => 1 <= snd e <= 5) (responses initialState).
Proof.
  cbn. split; [lia |]. split; [intros q Hq; lia | constructor].
Qed.

(** X25. The form cannot skip a question: whatever the patient clicks,
    the current question stays between 1 and 30, every question before it
    has a response, and every response recorded is one of the values 1 to
    5 of the radio buttons. *)
Theorem form_never_skips_a_question :
  forall evs : list Event,
    let st := run initialState evs in
    (1 <= currentQuestion st <= 30)%nat /\
    (forall q, (1 <= q < currentQuestion st)%nat ->
               exists v, getResponse q (responses st) = Some v /\ 1 <= v <= 5) /\
    Forall (fun e => 1 <= snd e <= 5) (responses st).
Proof.
  intros evs st. subst st.
  destruct (run_invariant evs initialState initial_invariant) as (H1 & H2 & H3).
  split; [exact H1 |]. split; [| exact H3].
  intros q Hq. destruct (H2 q Hq) as (v & Hv). exists v. split; [exact Hv |].
  apply getResponse_In in Hv. rewrite Forall_forall in H3. apply (H3 (q, v) Hv).
Qed.

(** ** The Complete button *)

Lemma answered_all (r : Responses) :
  Forall (fun e => 1 <= snd e <= 5) r -> answered r = Object_values r.
Proof.
  intros H. unfold answered, Object_values.
  induction H as [| e r He _ IH]; cbn; [reflexivity |].
  destruct (0 <? snd e) eqn:E; [now rewrite IH |].
  apply Z.ltb_ge in E. lia.
Qed.

Lemma keys_at_least (r : Responses) (n : nat) :
  (forall q, (1 <= q < S n)%nat -> exists v, getResponse q r = Some v) ->
  (n <= List.length r)%nat.
Proof.
  intros H. rewrite <- (length_map fst r), <- (length_seq n 1) at 1.
  apply NoDup_incl_length; [apply seq_NoDup |].
  intros q Hq. apply in_seq in Hq.
  destruct (H q ltac:(lia)) as (v & Hv). apply getResponse_In in Hv.
  apply in_map_iff. now exists (q, v).
Qed.

Lemma score_range (r : Responses) :
  Forall (fun e => 1 <= snd e <= 5) r -> (27 <= List.length r)%nat ->
  exists dashScore,
    calculateDashScore r = Some dashScore /\ (0 <= dashScore)%Q /\ (dashScore <= 100)%Q.
Proof.
  intros Hval Hlen.
  assert (Hlen' : List.length (answered r) = List.length r).
  { rewrite (answered_all r Hval). unfold Object_values. apply length_map. }
  rewrite calculateDashScore_eq, Hlen'.
  destruct (List.length r <? 27)%nat eqn:E; [apply Nat.ltb_lt in E; lia |].
  eexists. split; [reflexivity |].
  assert (Hne : answered r <> []).
  { intros Hnil. rewrite Hnil in Hlen'. cbn in Hlen'. lia. }
  assert (Hrange : Forall (fun v => 1 <= v <= 5) (answered r)).
  { apply answered_range. eapply Forall_impl; [| exact Hval]. cbn. intros e He. lia. }
  destruct (mean_range (answered r) Hne Hrange) as [Hlo Hhi].
  apply round_tenths_range; rewrite score_scaled; Lqa.lra.
Qed.

(** X26. On question 30, where the Complete button is shown, at least 29
    questions are answered: the button is never disabled, [handleComplete]
    never ends with the "incomplete" message, and it hands over the
    responses with a score between 0 and 100. *)
Theorem complete_button_always_submits :
  forall evs : list Event,
    let st := run initialState evs in
    currentQuestion st = 30%nat ->
    (29 <= List.length (Object_keys (responses st)))%nat /\
    exists dashScore,
      handleComplete st = Some (responses st, dashScore) /\
      (0 <= dashScore)%Q /\ (dashScore <= 100)%Q.
Proof.
  intros evs st Hcq. subst st.
  destruct (run_invariant evs initialState initial_invariant) as (H1 & H2 & H3).
  rewrite Hcq in H2.
  pose proof (keys_at_least _ 29 H2) as Hlen.
  unfold Object_keys. rewrite length_map. split; [exact Hlen |].
  destruct (score_range _ H3 ltac:(lia)) as (s & Hs & Hlo & Hhi).
  exists s. split; [| now split].
  unfold handleComplete, Object_keys. rewrite length_map.
  destruct (_ <? 27)%nat eqn:E; [apply Nat.ltb_lt in E; lia |].
  now rewrite Hs.
Qed.

Lemma complete_button_always_submits_witness :
  (29 <= List.length (Object_keys (responses (run initialState sample_session))))%nat /\
  exists dashScore,
    handleComplete (run initialState sample_session)
    = Some (responses (run initialState sample_session), dashScore) /\
    (0 <= dashScore)%Q /\ (dashScore <= 100)%Q.
Proof.
  apply (complete_button_always_submits sample_session). reflexivity.
Defined.

End DashFormFacts.

(* ===================================================================== *)
(** * Properties of the QuickDASH running score *)
(* ===================================================================== *)

Module QuickDashFacts.
Import Dash DashFacts QuickDash.
Local Open Scope Q_scope.

Lemma scores_In (values : Values) (n : Z) :
  In n (flat_map (fun v => match v with
                           | Some n => [n]
                           | None => []
                           end) values) <-> In (Some n) values.
Proof.
  rewrite in_flat_map. split.
  - intros ([m |] & Hin & Hn); [| destruct Hn].
    destruct Hn as [-> | []]. exact Hin.
  - intros H. exists (Some n). split; [exact H | now left].
Qed.

Lemma sum_above_length (l : list Z) :
  Forall (fun v => (1 <= v <= 5)%Z) l ->
  ((Z.of_nat (List.length l) < fold_right Z.add 0 l)%Z <-> Exists (fun v => (1 < v)%Z) l).
Proof.
  induction 1 as [| v l Hv Hl IH]; cbn [fold_right List.length].
  - split; [lia | intros H; inversion H].
  - pose proof (answers_sum_bounds l Hl) as Hb. split.
    + intros H. destruct (Z.eq_dec v 1) as [-> | Hne].
      * apply Exists_cons_tl. apply IH. lia.
      * apply Exists_cons_hd. lia.
    + intros H. inversion H as [? ? Hhd | ? ? Htl]; subst; [lia |].
      apply IH in Htl. lia.
Qed.

Lemma score_of_sum (s n : Z) :
  (0 < n)%Z ->
  ((inject_Z s / inject_Z n - 1) / 4) * 100 == inject_Z (25 * (s - n)) / inject_Z n.
Proof.
  intros Hn. rewrite inject_Z_mult. unfold Zminus. rewrite inject_Z_plus, inject_Z_opp.
  change (inject_Z 25) with 25.
  assert (Hq : ~ inject_Z n == 0).
  { intros H. unfold Qeq, inject_Z in H. cbn in H. lia. }
  field. exact Hq.
Qed.

(** X27. With answers between 1 and 5 the running QuickDASH score lies
    between 0 and 100, and the score panel is shown exactly when some
    answer is above 1: a patient who reports no difficulty anywhere sees
    no score, as if nothing were answered. *)
Theorem quickdash_score_range :
  forall values : Values,
    Forall (fun v => match v with
                     | Some n => (1 <= n <= 5)%Z
                     | None => True
                     end) values ->
    0 <= calculateScore values /\ calculateScore values <= 100 /\
    (showsScore values = true <-> exists n, In (Some n) values /\ (1 < n)%Z).
Proof.
  intros values Hval.
  set (scores := flat_map (fun v => match v with
                                    | Some n => [n]
                                    | None => []
                                    end) values).
  assert (Hrange : Forall (fun v => (1 <= v <= 5)%Z) scores).
  { apply Forall_forall. intros n Hn. apply scores_In in Hn.
    rewrite Forall_forall in Hval. apply (Hval (Some n) Hn). }
  assert (Hex : Exists (fun v => (1 < v)%Z) scores <->
                exists n, In (Some n) values /\ (1 < n)%Z).
  { rewrite Exists_exists. split; intros (n & Hn & H1); exists n;
      (split; [now apply scores_In | exact H1]). }
  unfold showsScore, calculateScore. fold scores.
  destruct scores as [| x rest] eqn:Es.
  - split; [apply Qle_refl |]. split; [discriminate |].
    rewrite <- Hex. split; [discriminate | intros H; inversion H].
  - rewrite fold_left_add, Z.add_0_l.
    pose proof (answers_sum_bounds (x :: rest) Hrange) as [Hlo Hhi].
    pose proof (sum_above_length (x :: rest) Hrange) as Habove.
    set (s := fold_right Z.add 0%Z (x :: rest)) in *.
    set (n := Z.of_nat (List.length (x :: rest))) in *.
    assert (Hn : (0 < n)%Z) by (subst n; cbn; lia).
    assert (Hnq : 0 < inject_Z n).
    { change 0 with (inject_Z 0). now rewrite <- Zlt_Qlt. }
    rewrite (score_of_sum s n Hn).
    split; [| split].
    + apply Qle_shift_div_l; [exact Hnq |]. rewrite Qmult_0_l.
      change 0 with (inject_Z 0). rewrite <- Zle_Qle. lia.
    + apply Qle_shift_div_r; [exact Hnq |].
      change 100 with (inject_Z 100). rewrite <- inject_Z_mult, <- Zle_Qle. lia.
    + rewrite <- Hex, <- Habove, negb_true_iff.
      split.
      * intros H. destruct (Z_lt_le_dec n s) as [Hlt | Hle]; [exact Hlt | exfalso].
        apply not_true_iff_false in H. apply H. apply Qle_bool_iff.
        apply Qle_shift_div_r; [exact Hnq |]. rewrite Qmult_0_l.
        change 0 with (inject_Z 0). rewrite <- Zle_Qle. lia.
      * intros Hlt. apply not_true_iff_false. intros H. apply Qle_bool_iff in H.
        assert (Hpos : 0 < inject_Z (25 * (s - n)) / inject_Z n).
        { apply Qlt_shift_div_l; [exact Hnq |]. rewrite Qmult_0_l.
          change 0 with (inject_Z 0). rewrite <- Zlt_Qlt. lia. }
        apply (Qlt_irrefl 0). eapply Qlt_le_trans; eassumption.
Qed.

Lemma quickdash_score_range_witness :
  0 <= calculateScore sample_values /\ calculateScore sample_values <= 100 /\
  (showsScore sample_values = true <->
   exists n, In (Some n) sample_values /\ (1 < n)%Z).
Proof.
  apply (quickdash_score_range sample_values).
  repeat constructor; lia.
Defined.

End QuickDashFacts.

(* ===================================================================== *)
(** * Properties of the playback controls *)
(* ===================================================================== *)

Module ReplayFacts.
Import Replay.
Local Open Scope nat_scope.

Lemma step_in_range (totalFrames : nat) (st : State) (e : Event) :
  currentFrame st <= totalFrames - 1 /\ isPlaying st = interval st ->
  currentFrame (step totalFrames st e) <= totalFrames - 1 /\
  isPlaying (step totalFrames st e) = interval (step totalFrames st e).
Proof.
  intros [Hf Hp]. destruct e; cbn [step].
  - unfold togglePlayback. destruct (isPlaying st); cbn [currentFrame isPlaying interval]; now split.
  - unfold tick. destruct (interval st) eqn:Ei; [| split; [exact Hf | congruence]].
    destruct (Z.of_nat totalFrames - 1 <=? Z.of_nat (currentFrame st))%Z eqn:E;
      cbn [currentFrame isPlaying interval].
    + now split.
    + apply Z.leb_gt in E. split; [lia | congruence].
  - cbn [resetPlayback currentFrame isPlaying interval]. split; [lia | reflexivity].
Qed.

Lemma step_forward (totalFrames : nat) (st : State) (e : Event) :
  e <> Reset -> currentFrame st <= currentFrame (step totalFrames st e).
Proof.
  intros He. destruct e; cbn [step]; [| | contradiction].
  - unfold togglePlayback. destruct (isPlaying st); cbn [currentFrame]; lia.
  - unfold tick. destruct (interval st); [| lia].
    destruct (_ <=? _)%Z; cbn [currentFrame]; lia.
Qed.

(** X28. The replay never leaves the recording: whatever sequence of
    play, pause, reset and timer ticks occurs, the frame shown is at most
    the last frame (and stays frame 0 for an empty recording), and the
    play flag is set exactly while the timer runs.  Without a reset the
    frame never moves backwards, so a replay that reached the end
    restarts only through Reset. *)
Theorem playback_stays_within_the_recording :
  forall (totalFrames : nat) (evs : list Event),
    (currentFrame (run totalFrames initialState evs) <= totalFrames - 1 /\
     isPlaying (run totalFrames initialState evs)
     = interval (run totalFrames initialState evs)) /\
    (forall st : State,
        Forall (fun e => e <> Reset) evs ->
        currentFrame st <= currentFrame (run totalFrames st evs)).
Proof.
  intros totalFrames evs. split.
  - assert (H : forall st,
               currentFrame st <= totalFrames - 1 /\ isPlaying st = interval st ->
               currentFrame (run totalFrames st evs) <= totalFrames - 1 /\
               isPlaying (run totalFrames st evs) = interval (run totalFrames st evs)).
    { induction evs as [| e evs IH]; intros st Hst; [exact Hst |].
      unfold run. cbn [fold_left]. apply IH. now apply step_in_range. }
    apply H. cbn [initialState currentFrame isPlaying interval].
    split; [lia | reflexivity].
  - induction evs as [| e evs IH]; intros st Hall; [apply Nat.le_refl |].
    inversion Hall as [| ? ? He Hrest]; subst.
    unfold run. cbn [fold_left].
    eapply Nat.le_trans; [apply (step_forward totalFrames st e He) |].
    now apply IH.
Qed.

End ReplayFacts.
